(** * alt-hanzi: the Hanzi application (app.ts)

    A shallow embedding of the logic of the [Hanzi] class: the Pinyin
    composer ([putc]), the two paged datasets, and the manager of spawned
    3D characters with its level files.

    Conventions.
    - A JavaScript string is the list of its UTF-16 code units
      ([jsstring]); [js] turns an ASCII literal into one.
    - A JavaScript number is an IEEE 754 double, with the arithmetic of
      the standard library's [SpecFloat] (round to nearest, ties to even);
      [Null] is the value that a numeric slot holds after [JSON.parse]
      read back a serialised [NaN] or infinity.
    - A JavaScript [Map] is an association list in insertion order
      ([JSMap]), the order [forEach] visits it in.
    - Actors are handles; their fields live in a store of objects that
      outlives [destroy], as the objects do in the program.
    - An event is handled in one step together with what it waits for:
      the answer to its prompt, the write of its file, the models its
      spawns fetch.  The spawns of one load start together, and the order
      in which their models arrive is left open. *)

From Stdlib Require Import List String Ascii Bool Arith ZArith NArith Lia.
From Stdlib Require Import Permutation DecimalString SpecFloat.
From Stdlib Require HexadecimalString DecimalN DecimalPos DecimalFacts.
Import ListNotations.

Set Implicit Arguments.

(* ------------------------------------------------------------------ *)
(** ** JavaScript strings *)

Module JSString.

Definition jsstring := list N.

Definition js (s : string) : jsstring :=
  map N_of_ascii (list_ascii_of_string s).

Fixpoint eqb (a b : jsstring) : bool :=
  match a, b with
  | [], [] => true
  | x :: a', y :: b' => N.eqb x y && eqb a' b'
  | _, _ => false
  end.

(** [s.startsWith(p)] *)
Fixpoint startsWith (p s : jsstring) : bool :=
  match p, s with
  | [], _ => true
  | x :: p', y :: s' => N.eqb x y && startsWith p' s'
  | _ :: _, [] => false
  end.

(** [s.includes(q)]: [q] occurs at some offset of [s]. *)
Fixpoint includes (s q : jsstring) : bool :=
  startsWith q s ||
  match s with
  | [] => false
  | _ :: s' => includes s' q
  end.

(** [s.slice(0, -1)]: all but the last code unit. *)
Definition slice_0_m1 (s : jsstring) : jsstring := removelast s.

(** [s.replace(a, b)] with a one-unit string pattern: only the first
    occurrence is replaced. *)
Fixpoint replace (a b : N) (s : jsstring) : jsstring :=
  match s with
  | [] => []
  | x :: s' => if N.eqb x a then b :: s' else x :: replace a b s'
  end.

(** [Array.prototype.includes] on an array of strings. *)
Definition array_includes (arr : list jsstring) (s : jsstring) : bool :=
  existsb (eqb s) arr.

Definition is_prefix (p s : jsstring) : Prop := exists r, s = p ++ r.
Definition is_substring (q s : jsstring) : Prop := exists l r, s = l ++ q ++ r.

End JSString.
Import JSString.

(* ------------------------------------------------------------------ *)
(** ** JavaScript numbers and [parseInt] *)

Module JSNumber.

(** The numbers are the IEEE 754 doubles: 53 bits of precision, binary
    exponents below 1024. *)
Definition prec : Z := 53.
Definition emax : Z := 1024.

(** What a numeric slot holds: a double ([NaN], the infinities and the
    two zeros included), or the [null] that [JSON.parse] reads back. *)
Inductive number : Type :=
| Null
| Num (f : spec_float).

Definition NaN : number := Num S754_nan.
Definition Infinity : number := Num (S754_infinity false).

(** The double nearest to an integer, ties to even. *)
Definition of_Z (z : Z) : number := Num (binary_normalize prec emax z 0 false).

(** [ToNumber]: [null] coerces to [+0]. *)
Definition to_float (a : number) : spec_float :=
  match a with Null => S754_zero false | Num f => f end.

Definition lift2 (f : spec_float -> spec_float -> spec_float) (a b : number)
  : number :=
  Num (f (to_float a) (to_float b)).

Definition num_add := lift2 (SFadd prec emax).
Definition num_sub := lift2 (SFsub prec emax).
Definition num_mul := lift2 (SFmul prec emax).
Definition num_div := lift2 (SFdiv prec emax).
(** Unary minus: the sign is flipped, that of a zero too. *)
Definition num_neg (a : number) : number := Num (SFopp (to_float a)).

(** A decimal literal [m/k], [k] a power of ten: the quotient of two
    integers that are doubles is rounded once, as the literal is. *)
Definition dec (m k : Z) : number := num_div (of_Z m) (of_Z k).

(** [a !== b]. [NaN] differs from every value, itself included; the two
    zeros are equal. *)
Definition strict_neq (a b : number) : bool :=
  match a, b with
  | Num x, Num y => negb (SFeqb x y)
  | Null, Null => false
  | _, _ => true
  end.

Definition is_NaN (a : number) : bool :=
  match a with Num S754_nan => true | _ => false end.

(** What [JSON.parse (JSON.stringify a)] gives back in a numeric slot:
    [NaN] and the infinities are written as [null], the negative zero as
    [0]; a finite double is written with the digits that read back as
    the same double. *)
Definition json_number (a : number) : number :=
  match a with
  | Null => Null
  | Num S754_nan => Null
  | Num (S754_infinity _) => Null
  | Num (S754_zero _) => Num (S754_zero false)
  | Num (S754_finite _ _ _) => a
  end.

(** White space skipped by [parseInt] ([StrWhiteSpaceChar]). *)
Definition is_whitespace (c : N) : bool :=
  existsb (N.eqb c)
    [9; 10; 11; 12; 13; 32; 160; 5760; 8192; 8193; 8194; 8195; 8196; 8197;
     8198; 8199; 8200; 8201; 8202; 8232; 8233; 8239; 8287; 12288; 65279]%N.

Fixpoint trim_start (s : jsstring) : jsstring :=
  match s with
  | c :: s' => if is_whitespace c then trim_start s' else s
  | [] => []
  end.

Definition digit_value (c : N) : option N :=
  if (48 <=? c)%N && (c <=? 57)%N then Some (c - 48)%N
  else if (97 <=? c)%N && (c <=? 122)%N then Some (c - 87)%N
  else if (65 <=? c)%N && (c <=? 90)%N then Some (c - 55)%N
  else None.

(** The longest prefix of radix-[r] digits, read as a number; [None]
    when that prefix is empty. *)
Fixpoint digits (r : N) (s : jsstring) (acc : option N) : option N :=
  match s with
  | c :: s' =>
      match digit_value c with
      | Some d =>
          if (d <? r)%N
          then digits r s' (Some (match acc with Some a => a * r + d | None => d end)%N)
          else acc
      | None => acc
      end
  | [] => acc
  end.

(** [parseInt(text)] with no radix argument: [None] stands for [NaN]. *)
Definition parseInt_Z (text : jsstring) : option Z :=
  let s := trim_start text in
  let '(sign, s) :=
    match s with
    | 45%N :: s' => ((-1)%Z, s')
    | 43%N :: s' => (1%Z, s')
    | _ => (1%Z, s)
    end in
  let '(r, s) :=
    match s with
    | 48%N :: 120%N :: s' => (16%N, s')
    | 48%N :: 88%N :: s' => (16%N, s')
    | _ => (10%N, s)
    end in
  match digits r s None with
  | Some n => Some (sign * Z.of_N n)%Z
  | None => None
  end.

(** The text starts, after white space, with a minus sign. *)
Definition minus_sign (text : jsstring) : bool :=
  match trim_start text with
  | 45%N :: _ => true
  | _ => false
  end.

(** [parseInt(text)] as a number: the integer read is rounded to the
    nearest double, which is [Infinity] for an integer beyond the
    largest double, and "-0" gives the negative zero.  (The language
    lets an implementation replace the decimal digits after the 20th by
    zeros before it rounds.) *)
Definition parseInt (text : jsstring) : number :=
  match parseInt_Z text with
  | Some z => Num (binary_normalize prec emax z 0 (minus_sign text))
  | None => NaN
  end.

(** [n.toString()] for a non-negative integer. *)
Definition toString_N (n : N) : jsstring :=
  js (NilEmpty.string_of_uint (N.to_uint n)).

End JSNumber.
Import JSNumber.

(* ------------------------------------------------------------------ *)
(** ** [path.basename] (POSIX) *)

Module Path.

Definition slash : N := 47%N.

Fixpoint drop_slashes (r : jsstring) : jsstring :=
  match r with
  | c :: r' => if N.eqb c slash then drop_slashes r' else r
  | [] => []
  end.

Fixpoint until_slash (r : jsstring) : jsstring :=
  match r with
  | c :: r' => if N.eqb c slash then [] else c :: until_slash r'
  | [] => []
  end.

(** Node scans the path from its end: trailing slashes are skipped, then
    the units up to the next slash (or the start) are the base name. *)
Definition basename (p : jsstring) : jsstring :=
  rev (until_slash (drop_slashes (rev p))).

(** [file] names an entry of directory [dir] itself: the rest of the
    path after [dir] has no separator. *)
Definition directly_inside (dir file : jsstring) : Prop :=
  exists name, file = dir ++ name /\ ~ In slash name.

End Path.

(* ------------------------------------------------------------------ *)
(** ** JavaScript [Map]: entries in insertion order *)

Module JSMap.
Section Ops.

Variables K V : Type.
Variable keqb : K -> K -> bool.

Definition t := list (K * V).

Fixpoint get (k : K) (m : t) : option V :=
  match m with
  | [] => None
  | (k', v) :: m' => if keqb k k' then Some v else get k m'
  end.

Definition has (k : K) (m : t) : bool :=
  match get k m with Some _ => true | None => false end.

(** [m.set(k, v)]: an existing key keeps its place, a new one goes last. *)
Fixpoint set (k : K) (v : V) (m : t) : t :=
  match m with
  | [] => [(k, v)]
  | (k', v') :: m' => if keqb k k' then (k', v) :: m' else (k', v') :: set k v m'
  end.

Fixpoint delete (k : K) (m : t) : t :=
  match m with
  | [] => []
  | (k', v') :: m' => if keqb k k' then delete k m' else (k', v') :: delete k m'
  end.

Definition keys (m : t) : list K := map fst m.
Definition values (m : t) : list V := map snd m.

End Ops.
End JSMap.

(* ------------------------------------------------------------------ *)
(** ** Data of the application *)

Definition hanzi := jsstring.
Definition actor := nat.
Definition prefab := N.

(** [char.charCodeAt(0)]; [None] is the [NaN] of an empty string. *)
Definition charCodeAt0 (c : hanzi) : option N := hd_error c.

Definition code_string (c : hanzi) : jsstring :=
  match charCodeAt0 c with
  | Some n => toString_N n
  | None => js "NaN"
  end.

(* ------------------------------------------------------------------ *)
(** ** Thumbnails: textures and materials by name *)

Module Assets.

(** The thumbnails loaded so far: the maps [textures] and [materials] of
    the application, and what [assets.createTexture] and
    [assets.createMaterial] made for them, in the order of creation.  An
    asset is named by its place in that list. *)
Inductive Asset :=
| TextureAsset (asset_name uri : jsstring)
| MaterialAsset (asset_name : jsstring) (mainTextureId : nat).

Record t := {
  textures : list (jsstring * nat);
  materials : list (jsstring * nat);
  container : list Asset
}.

Definition empty : t := {| textures := []; materials := []; container := [] |}.

Definition loadMaterial (name uri : jsstring) (a : t) : t * nat :=
  let tname := js "texture_" ++ name in
  let '(a, texture) :=
    match JSMap.get JSString.eqb tname (textures a) with
    | None =>
        let id := List.length (container a) in
        ({| textures := JSMap.set JSString.eqb tname id (textures a);
            materials := materials a;
            container := container a ++ [TextureAsset tname uri] |}, id)
    | Some texture => (a, texture)
    end in
  let mname := js "material_" ++ name in
  match JSMap.get JSString.eqb mname (materials a) with
  | None =>
      let id := List.length (container a) in
      ({| textures := textures a;
          materials := JSMap.set JSString.eqb mname id (materials a);
          container := container a ++ [MaterialAsset mname texture] |}, id)
  | Some material => (a, material)
  end.

Definition THUMBNAILS_BASE_URL : jsstring :=
  js "https://raw.githubusercontent.com/illuminati360/alt-hanzi-data/master/thumbnails/".

(** [new URL(`${code}.png`, THUMBNAILS_BASE_URL).toString()], the code
    being a decimal number (or "NaN"). *)
Definition thumbnail_url (code : jsstring) : jsstring :=
  THUMBNAILS_BASE_URL ++ code ++ js ".png".

(** [s.toUpperCase()] on the letters a to z. *)
Definition toUpperCase (s : jsstring) : jsstring :=
  map (fun c => if (97 <=? c)%N && (c <=? 122)%N then (c - 32)%N else c) s.

(** [n.toString(16)] for a non-negative integer. *)
Definition toString16 (n : N) : jsstring :=
  js (HexadecimalString.NilEmpty.string_of_uint (N.to_hex_uint n)).

(** [z.toString(16)] for an integer: a minus sign, then the digits. *)
Definition toString16_Z (z : Z) : jsstring :=
  (if (z <? 0)%Z then js "-" else []) ++ toString16 (Z.abs_N z).

(** [parseInt(code).toString(16).toUpperCase()]: the text of a cell.
    The code is the decimal code of a UTF-16 unit, or "NaN": the integer
    read is a double as it stands. *)
Definition cell_text (code : jsstring) : jsstring :=
  match parseInt_Z code with
  | Some z => toUpperCase (toString16_Z z)
  | None => js "NAN"
  end.

Record Cell := { cell_label : jsstring; cell_material : nat }.

(** The [pageData.map] of [updateCommonHanziMenu]: one cell for each
    character of the page, its material loaded by the character's code. *)
Definition page_cells (pageData : list hanzi) (a : t) : t * list Cell :=
  fold_left
    (fun (acc : t * list Cell) d =>
       let code := code_string d in
       let url := thumbnail_url code in
       let '(a, m) := loadMaterial code url (fst acc) in
       (a, snd acc ++ [{| cell_label := cell_text code; cell_material := m |}]))
    pageData (a, []).

End Assets.

Record Vector3 := { vx : number; vy : number; vz : number }.
Record Quaternion := { qx : number; qy : number; qz : number; qw : number }.

(** [MRE.ActorTransformLike]: the app-space and the local placement. *)
Record Transform := {
  app_position : Vector3;
  app_rotation : Quaternion;
  local_position : Vector3;
  local_rotation : Quaternion;
  local_scale : Vector3
}.

Record BoundingBoxDimensions := {
  width : number; height : number; depth : number;
  center : Vector3
}.

Inductive Material := invisibleMaterial | boundingBoxMaterial.

Inductive Shape :=
| BoxPrimitive (dx dy dz : number)
| FromPrefab (p : prefab).

(** The fields of an [MRE.Actor] that the application reads or writes.
    [onClick] holds the visual model that the box's click handler closes
    over, when the box has one. *)
Record ActorObj := {
  name : jsstring;
  parentId : option actor;
  shape : Shape;
  transform : Transform;
  material : Material;
  grabbable : bool;
  subscriptions : list string;
  onClick : option actor
}.

Record LevelEntry := { char : hanzi; entry_transform : Transform }.
Definition levelData := list LevelEntry.

Record Info := { pinyin : jsstring; stroke : jsstring; english : jsstring }.

(** [PinyinDatabase], of which the application reads these members.  Every
    character of the two lists has an entry in [dictionary], which is
    therefore a total lookup here. *)
Record PinyinDatabase := {
  db_characters : list hanzi;
  db_radicals : list hanzi;
  dictionary : hanzi -> Info;
  syllables : list jsstring
}.

Record User := { user_id : nat; user_name : jsstring }.

(** What is fixed when a session starts: the process environment, the
    data files, the remote model store and the size of the grid widget. *)
Record Env := {
  OWNER_NAME : option jsstring;
  pinyinDatabase : PinyinDatabase;
  sprite : list (jsstring * (jsstring * jsstring));
  remote_model : option N -> option (prefab * BoundingBoxDimensions);
  menu_width : number
}.

Record Sound := { sound_time : number; stop_after : number }.

Inductive Widget :=
| mainMenu | pinyinMenu | pinyinMenuControlStrip | pinyinHead | pinyinTone
| pinyinInfoPanel | phoneticsTable | commonHanziMenu | hanziInfoPanel
| commonHanziMenuControlStrip | numberInput.

Definition Widget_eqb (a b : Widget) : bool :=
  match a, b with
  | mainMenu, mainMenu | pinyinMenu, pinyinMenu
  | pinyinMenuControlStrip, pinyinMenuControlStrip | pinyinHead, pinyinHead
  | pinyinTone, pinyinTone | pinyinInfoPanel, pinyinInfoPanel
  | phoneticsTable, phoneticsTable | commonHanziMenu, commonHanziMenu
  | hanziInfoPanel, hanziInfoPanel
  | commonHanziMenuControlStrip, commonHanziMenuControlStrip
  | numberInput, numberInput => true
  | _, _ => false
  end.

(** The Pinyin composer: the buffer, what the info panel shows, the
    highlight of the keyboard grid, the tone strip, and the sounds started. *)
Record Composer := {
  pinyinInfoText : jsstring;
  pinyinInfoPanel_text : jsstring;
  pinyinMenu_highlighted : bool;
  tone_highlighted : bool;              (* pinyinTone.highlighted *)
  tone_coord_y : N;                     (* pinyinTone.coord.y *)
  sounds : list Sound
}.

(** The two datasets behind the one grid ([commonHanziMenu]). *)
Record Pager := {
  characters : list hanzi;
  radicals : list hanzi;
  radicalPageNum : option Z;            (* undefined until first written *)
  hanziPageNum : option Z;
  curPageNum : Z;                       (* commonHanziMenu.curPageNum *)
  menu_coord : Z * Z;                   (* commonHanziMenu.coord *)
  menu_cells : list hanzi               (* what updateCells last showed *)
}.

(** The spawned entities, with the SDK context they live in: [actors] is
    the set of live actors, [objects] holds every actor object made. *)
Record Entities := {
  highlightedActor : option actor;
  highlightBoxes : list (actor * actor);
  spawnedHanzi : list (actor * hanzi);
  prefabs : list (hanzi * prefab);
  dimensions : list (hanzi * BoundingBoxDimensions);
  numberInput_text : option number;
  actors : list actor;
  objects : list (actor * ActorObj);
  next_actor : actor
}.

Record State := {
  currentScene : string;
  enabled : list (Widget * bool);
  composer : Composer;
  pager : Pager;
  entities : Entities;
  hanziInfoPanel_char : option hanzi;   (* whose card the info panel shows *)
  files : list (jsstring * levelData);
  prompts : list (nat * string);        (* user.prompt calls, oldest first *)
  assets : Assets.t                     (* the thumbnails loaded so far *)
}.

Definition with_scene (v : string) (st : State) : State :=
  {| currentScene := v; enabled := enabled st; composer := composer st;
     pager := pager st; entities := entities st;
     hanziInfoPanel_char := hanziInfoPanel_char st; files := files st;
     prompts := prompts st; assets := assets st |}.

Definition with_enabled (v : list (Widget * bool)) (st : State) : State :=
  {| currentScene := currentScene st; enabled := v; composer := composer st;
     pager := pager st; entities := entities st;
     hanziInfoPanel_char := hanziInfoPanel_char st; files := files st;
     prompts := prompts st; assets := assets st |}.

Definition with_composer (v : Composer) (st : State) : State :=
  {| currentScene := currentScene st; enabled := enabled st; composer := v;
     pager := pager st; entities := entities st;
     hanziInfoPanel_char := hanziInfoPanel_char st; files := files st;
     prompts := prompts st; assets := assets st |}.

Definition with_pager (v : Pager) (st : State) : State :=
  {| currentScene := currentScene st; enabled := enabled st;
     composer := composer st; pager := v; entities := entities st;
     hanziInfoPanel_char := hanziInfoPanel_char st; files := files st;
     prompts := prompts st; assets := assets st |}.

Definition with_entities (v : Entities) (st : State) : State :=
  {| currentScene := currentScene st; enabled := enabled st;
     composer := composer st; pager := pager st; entities := v;
     hanziInfoPanel_char := hanziInfoPanel_char st; files := files st;
     prompts := prompts st; assets := assets st |}.

Definition with_infoPanel (v : option hanzi) (st : State) : State :=
  {| currentScene := currentScene st; enabled := enabled st;
     composer := composer st; pager := pager st; entities := entities st;
     hanziInfoPanel_char := v; files := files st; prompts := prompts st;
     assets := assets st |}.

Definition with_files (v : list (jsstring * levelData)) (st : State) : State :=
  {| currentScene := currentScene st; enabled := enabled st;
     composer := composer st; pager := pager st; entities := entities st;
     hanziInfoPanel_char := hanziInfoPanel_char st; files := v;
     prompts := prompts st; assets := assets st |}.

Definition with_assets (v : Assets.t) (st : State) : State :=
  {| currentScene := currentScene st; enabled := enabled st;
     composer := composer st; pager := pager st; entities := entities st;
     hanziInfoPanel_char := hanziInfoPanel_char st; files := files st;
     prompts := prompts st; assets := v |}.

(** [user.prompt(text)] *)
Definition prompt (u : User) (text : string) (st : State) : State :=
  {| currentScene := currentScene st; enabled := enabled st;
     composer := composer st; pager := pager st; entities := entities st;
     hanziInfoPanel_char := hanziInfoPanel_char st; files := files st;
     prompts := prompts st ++ [(user_id u, text)];
     assets := assets st |}.

Definition PINYIN_INFO_PLACE_HOLDER : jsstring := js "Awaiting Input".
Definition PINYIN_INFO_ERROR_MESSAGE : jsstring := js "No Such Syllable".

(** [0.0001*8] and [0.025/1000] *)
Definition HANZI_MODEL_SCALE : number := num_mul (dec 1 10000) (of_Z 8).
Definition SCALE_STEP : number := num_div (dec 25 1000) (of_Z 1000).
Definition HANZI_MODEL_ROTATION : Quaternion :=
  {| qx := of_Z 0; qy := of_Z 0; qz := of_Z 0; qw := of_Z 1 |}.

(* ------------------------------------------------------------------ *)
(** ** Authorization and scenes *)

(** Modelled from the spec: [checkUserName] (utils.ts, not among the
    sources) compares the acting user's identity against the one
    configured owner identity.  With no [OWNER_NAME] in the environment
    nobody matches. *)
Definition checkUserName (user : User) (owner : option jsstring) : bool :=
  match owner with
  | Some o => JSString.eqb (user_name user) o
  | None => false
  end.

Definition scenes : list (string * list Widget) :=
  [("main_menu", [mainMenu]);
   ("pinyin_menu",
     [pinyinMenu; pinyinMenuControlStrip; pinyinHead; pinyinTone; pinyinInfoPanel]);
   ("phonetics_table", [phoneticsTable]);
   ("radical_menu",
     [commonHanziMenu; hanziInfoPanel; commonHanziMenuControlStrip; numberInput]);
   ("common_hanzi_menu",
     [commonHanziMenu; hanziInfoPanel; commonHanziMenuControlStrip; numberInput])]%string.

Definition set_enabled (b : bool) (en : list (Widget * bool)) (m : Widget) :=
  JSMap.set Widget_eqb m b en.

(** The first loop of [switchScene]: disable the widgets of the other
    scenes, remember the widget list [tv] of the target. *)
Definition disable_others (scene : string) (en : list (Widget * bool))
  : list (Widget * bool) * list Widget :=
  fold_left
    (fun acc (e : string * list Widget) =>
       let '(k, v) := e in
       fold_left
         (fun (acc : list (Widget * bool) * list Widget) m =>
            if negb (String.eqb k scene)
            then (set_enabled false (fst acc) m, snd acc)
            else (fst acc, v))
         v acc)
    scenes (en, []).

Definition switchScene (scene : string) (st : State) : State :=
  if String.eqb (currentScene st) scene then st
  else
    let scene :=
      if (String.length (currentScene st) =? 0)%nat
         && negb (existsb (String.eqb scene) (map fst scenes))
      then "main_menu"%string else scene in
    let '(en, tv) := disable_others scene (enabled st) in
    with_enabled (fold_left (set_enabled true) tv en) (with_scene scene st).

(** The home button. *)
Definition home_onClick (env : Env) (user : User) (st : State) : State :=
  if checkUserName user (OWNER_NAME env) then switchScene "main_menu" st else st.

Definition in_hanzi_scene (st : State) : bool :=
  String.eqb (currentScene st) "common_hanzi_menu"
  || String.eqb (currentScene st) "radical_menu".

(* ------------------------------------------------------------------ *)
(** ** The Pinyin composer *)

(** Modelled from the spec: [PinyinDatabase.find] (database.ts, not among
    the sources) tells whether some syllable has the text as a prefix. *)
Definition find (db : PinyinDatabase) (text : jsstring) : bool :=
  existsb (startsWith text) (syllables db).

Definition u_umlaut : N := 252%N.
Definition letter_v : N := 118%N.

Definition with_text (text : jsstring) (k : Composer) : Composer :=
  {| pinyinInfoText := text;
     pinyinInfoPanel_text := pinyinInfoPanel_text k;
     pinyinMenu_highlighted := pinyinMenu_highlighted k;
     tone_highlighted := tone_highlighted k;
     tone_coord_y := tone_coord_y k;
     sounds := sounds k |}.

(** [pinyinInfoPanel.updateCells([[{text}]])] *)
Definition updatePinyinInfoPanel (text : jsstring) (k : Composer) : Composer :=
  {| pinyinInfoText := pinyinInfoText k;
     pinyinInfoPanel_text := text;
     pinyinMenu_highlighted := pinyinMenu_highlighted k;
     tone_highlighted := tone_highlighted k;
     tone_coord_y := tone_coord_y k;
     sounds := sounds k |}.

(** Modelled from the spec: [pinyinMenu.highlight(coord, false)] (GridMenu,
    not among the sources) releases the highlight of the keyboard grid. *)
Definition release_highlight (k : Composer) : Composer :=
  {| pinyinInfoText := pinyinInfoText k;
     pinyinInfoPanel_text := pinyinInfoPanel_text k;
     pinyinMenu_highlighted := false;
     tone_highlighted := tone_highlighted k;
     tone_coord_y := tone_coord_y k;
     sounds := sounds k |}.

(** [root.startSound] at the segment's offset, with the stop scheduled
    after the segment's length. *)
Definition startSound (s : Sound) (k : Composer) : Composer :=
  {| pinyinInfoText := pinyinInfoText k;
     pinyinInfoPanel_text := pinyinInfoPanel_text k;
     pinyinMenu_highlighted := pinyinMenu_highlighted k;
     tone_highlighted := tone_highlighted k;
     tone_coord_y := tone_coord_y k;
     sounds := sounds k ++ [s] |}.

Definition playSound (env : Env) (text : jsstring) (k : Composer) : Composer :=
  match JSMap.get JSString.eqb text (sprite env) with
  | None => k
  | Some (s0, s1) =>
      startSound {| sound_time := num_div (parseInt s0) (of_Z 1000);
                    stop_after := parseInt s1 |} k
  end.

(** A string is truthy when it is not empty. *)
Definition truthy (s : jsstring) : bool :=
  match s with [] => false | _ :: _ => true end.

Definition putc (env : Env) (c : jsstring) (k : Composer) : Composer :=
  let db := pinyinDatabase env in
  let '(k, error) :=
    if JSString.eqb c (js "Backspace") then
      (with_text (slice_0_m1 (pinyinInfoText k)) k, false)
    else if JSString.eqb c (js "Clear") then
      (release_highlight (with_text [] k), false)
    else if JSString.eqb c (js "Enter") then
      let '(k, error) :=
        if truthy (pinyinInfoText k)
           && array_includes (syllables db) (pinyinInfoText k)
        then
          let tone :=
            if tone_highlighted k then toString_N (tone_coord_y k + 1) else [] in
          (playSound env (replace u_umlaut letter_v (pinyinInfoText k) ++ tone) k,
           false)
        else (k, true) in
      (release_highlight (with_text [] k), error)
    else
      let k := with_text (pinyinInfoText k ++ c) k in
      if negb (find db (pinyinInfoText k))
      then (release_highlight (with_text [] k), true)
      else (k, false) in
  updatePinyinInfoPanel
    (if truthy (pinyinInfoText k) then pinyinInfoText k
     else if error then PINYIN_INFO_ERROR_MESSAGE else PINYIN_INFO_PLACE_HOLDER)
    k.

(** The control strip of the Pinyin scene. *)
Definition pinyinMenuControlStrip_onClick (env : Env) (col : Z) (st : State) : State :=
  if negb (String.eqb (currentScene st) "pinyin_menu") then st
  else
    match col with
    | 0%Z => with_composer (putc env (js "Backspace") (composer st)) st
    | 1%Z => with_composer (putc env (js "Clear") (composer st)) st
    | 2%Z => with_composer (putc env (js "Enter") (composer st)) st
    | 3%Z => switchScene "main_menu" st
    | _ => st
    end.

(* ------------------------------------------------------------------ *)
(** ** The two paged datasets *)

Definition with_characters (v : list hanzi) (p : Pager) : Pager :=
  {| characters := v; radicals := radicals p;
     radicalPageNum := radicalPageNum p; hanziPageNum := hanziPageNum p;
     curPageNum := curPageNum p; menu_coord := menu_coord p;
     menu_cells := menu_cells p |}.

Definition with_radicals (v : list hanzi) (p : Pager) : Pager :=
  {| characters := characters p; radicals := v;
     radicalPageNum := radicalPageNum p; hanziPageNum := hanziPageNum p;
     curPageNum := curPageNum p; menu_coord := menu_coord p;
     menu_cells := menu_cells p |}.

Definition with_radicalPageNum (v : option Z) (p : Pager) : Pager :=
  {| characters := characters p; radicals := radicals p;
     radicalPageNum := v; hanziPageNum := hanziPageNum p;
     curPageNum := curPageNum p; menu_coord := menu_coord p;
     menu_cells := menu_cells p |}.

Definition with_hanziPageNum (v : option Z) (p : Pager) : Pager :=
  {| characters := characters p; radicals := radicals p;
     radicalPageNum := radicalPageNum p; hanziPageNum := v;
     curPageNum := curPageNum p; menu_coord := menu_coord p;
     menu_cells := menu_cells p |}.

Definition with_curPageNum (v : Z) (p : Pager) : Pager :=
  {| characters := characters p; radicals := radicals p;
     radicalPageNum := radicalPageNum p; hanziPageNum := hanziPageNum p;
     curPageNum := v; menu_coord := menu_coord p;
     menu_cells := menu_cells p |}.

Definition with_cells (v : list hanzi) (p : Pager) : Pager :=
  {| characters := characters p; radicals := radicals p;
     radicalPageNum := radicalPageNum p; hanziPageNum := hanziPageNum p;
     curPageNum := curPageNum p; menu_coord := menu_coord p;
     menu_cells := v |}.

(** [commonHanziMenu.row * commonHanziMenu.col], the grid being 8 by 8. *)
Definition menu_col : Z := 8.
Definition pageSize : Z := 8 * menu_col.

Definition getCharacters (st : State) : list hanzi :=
  if String.eqb (currentScene st) "radical_menu"
  then radicals (pager st) else characters (pager st).

(** [arr.slice(start, end)], negative indices counting from the end. *)
Definition slice {A : Type} (start end_ : Z) (l : list A) : list A :=
  let len := Z.of_nat (List.length l) in
  let rel (i : Z) := if (i <? 0)%Z then Z.max (len + i) 0 else Z.min i len in
  firstn (Z.to_nat (rel end_ - rel start)) (skipn (Z.to_nat (rel start)) l).

Definition getCommonHanziPageData (st : State) : list hanzi :=
  slice (pageSize * (curPageNum (pager st) - 1))
        (pageSize * curPageNum (pager st)) (getCharacters st).

(** Modelled from the spec: the page functions of GridMenu (GUI/gridMenu.ts,
    not among the sources): bounded page navigation, a page being clamped
    into [1, ceil(total/pageSize)], and [resetPageNum] going back to page 1. *)
Definition totalPages (total : Z) : Z := (total + pageSize - 1) / pageSize.

Definition setPageNum (p total : Z) : Z := Z.max 1 (Z.min p (totalPages total)).

Definition incrementPageNum (total cur : Z) : Z :=
  if (cur <? totalPages total)%Z then (cur + 1)%Z else cur.

Definition decrementPageNum (cur : Z) : Z :=
  if (1 <? cur)%Z then (cur - 1)%Z else cur.

Definition resetPageNum : Z := 1.

(** Modelled from the spec: [getHighlightedIndex] (GridMenu) maps a grid
    coordinate to a linear dataset index under row-major order, on the
    current page. *)
Definition getHighlightedIndex (p : Pager) : Z :=
  (pageSize * (curPageNum p - 1) + fst (menu_coord p) * menu_col + snd (menu_coord p))%Z.

Definition total (st : State) : Z := Z.of_nat (List.length (getCharacters st)).

(** [updateCommonHanziMenu(getCommonHanziPageData())]: the thumbnail of
    every character of the current page is loaded, and the grid shows
    the page (the padding is left to the widget). *)
Definition updateCommonHanziMenu (st : State) : State :=
  let pageData := getCommonHanziPageData st in
  with_assets (fst (Assets.page_cells pageData (assets st)))
    (with_pager (with_cells pageData (pager st)) st).

Definition gotoPage (p : Z) (st : State) : State :=
  updateCommonHanziMenu
    (with_pager (with_curPageNum (setPageNum p (total st)) (pager st)) st).

(** The main menu: rows 'Pin Yin', 'Phonetics', 'Radicals', 'Common'. *)
Definition mainMenu_onClick (row : Z) (st : State) : State :=
  if negb (String.eqb (currentScene st) "main_menu") then st
  else
    match row with
    | 0%Z => switchScene "pinyin_menu" st
    | 1%Z => switchScene "phonetics_table" st
    | 2%Z =>
        let st := switchScene "radical_menu" st in
        let st := with_pager
                    (with_hanziPageNum (Some (curPageNum (pager st))) (pager st)) st in
        let st :=
          match radicalPageNum (pager st) with
          | Some p =>
              with_pager (with_curPageNum (setPageNum p (total st)) (pager st)) st
          | None => st
          end in
        updateCommonHanziMenu st
    | 3%Z =>
        let st := switchScene "common_hanzi_menu" st in
        let st := with_pager
                    (with_radicalPageNum (Some (curPageNum (pager st))) (pager st)) st in
        let st :=
          match hanziPageNum (pager st) with
          | Some p =>
              with_pager (with_curPageNum (setPageNum p (total st)) (pager st)) st
          | None => st
          end in
        updateCommonHanziMenu st
    | _ => st
    end.

Definition searchHanzi (env : Env) (search : jsstring) (st : State) : State :=
  let db := pinyinDatabase env in
  let matching (src : list hanzi) :=
    filter (fun c => includes (pinyin (dictionary db c)) search) src in
  if String.eqb (currentScene st) "common_hanzi_menu" then
    match search with
    | [] => with_pager (with_characters (db_characters db) (pager st)) st
    | _ :: _ => with_pager (with_characters (matching (db_characters db)) (pager st)) st
    end
  else
    match search with
    | [] => with_pager (with_radicals (db_radicals db) (pager st)) st
    | _ :: _ => with_pager (with_radicals (matching (db_radicals db)) (pager st)) st
    end.

(** What the answer to a prompt carries. *)
Record Dialog := { submitted : bool; text : jsstring }.

(** The continuation of the "Search Hanzi" prompt, once submitted. *)
Definition onSearchSubmitted (env : Env) (query : jsstring) (st : State) : State :=
  let st := searchHanzi env query st in
  let st := with_pager (with_curPageNum resetPageNum (pager st)) st in
  updateCommonHanziMenu st.

(** The continuation of the "Goto page" prompt, once submitted.  The test
    [p !== NaN] is part of it; [None] stands for the call
    [setPageNum(NaN, total)], which is left to the widget. *)
Definition onGotoSubmitted (input : jsstring) (st : State) : option State :=
  let p := parseInt input in
  if strict_neq p NaN then
    match parseInt_Z input with
    | Some z => Some (gotoPage z st)
    | None => None
    end
  else Some st.

Definition prevPage (st : State) : State :=
  updateCommonHanziMenu
    (with_pager (with_curPageNum (decrementPageNum (curPageNum (pager st))) (pager st)) st).

Definition nextPage (st : State) : State :=
  updateCommonHanziMenu
    (with_pager
       (with_curPageNum (incrementPageNum (total st) (curPageNum (pager st))) (pager st))
       st).

(* ------------------------------------------------------------------ *)
(** ** The SDK context: actor objects *)

Definition with_highlightedActor (v : option actor) (e : Entities) : Entities :=
  {| highlightedActor := v; highlightBoxes := highlightBoxes e;
     spawnedHanzi := spawnedHanzi e; prefabs := prefabs e;
     dimensions := dimensions e; numberInput_text := numberInput_text e;
     actors := actors e; objects := objects e; next_actor := next_actor e |}.

Definition with_highlightBoxes (v : list (actor * actor)) (e : Entities) : Entities :=
  {| highlightedActor := highlightedActor e; highlightBoxes := v;
     spawnedHanzi := spawnedHanzi e; prefabs := prefabs e;
     dimensions := dimensions e; numberInput_text := numberInput_text e;
     actors := actors e; objects := objects e; next_actor := next_actor e |}.

Definition with_spawnedHanzi (v : list (actor * hanzi)) (e : Entities) : Entities :=
  {| highlightedActor := highlightedActor e; highlightBoxes := highlightBoxes e;
     spawnedHanzi := v; prefabs := prefabs e;
     dimensions := dimensions e; numberInput_text := numberInput_text e;
     actors := actors e; objects := objects e; next_actor := next_actor e |}.

Definition with_caches (p : list (hanzi * prefab))
  (d : list (hanzi * BoundingBoxDimensions)) (e : Entities) : Entities :=
  {| highlightedActor := highlightedActor e; highlightBoxes := highlightBoxes e;
     spawnedHanzi := spawnedHanzi e; prefabs := p;
     dimensions := d; numberInput_text := numberInput_text e;
     actors := actors e; objects := objects e; next_actor := next_actor e |}.

(** [numberInput.updateText(n.toString())]: the number shown. *)
Definition updateText (v : number) (e : Entities) : Entities :=
  {| highlightedActor := highlightedActor e; highlightBoxes := highlightBoxes e;
     spawnedHanzi := spawnedHanzi e; prefabs := prefabs e;
     dimensions := dimensions e; numberInput_text := Some v;
     actors := actors e; objects := objects e; next_actor := next_actor e |}.

Definition with_actors (v : list actor) (e : Entities) : Entities :=
  {| highlightedActor := highlightedActor e; highlightBoxes := highlightBoxes e;
     spawnedHanzi := spawnedHanzi e; prefabs := prefabs e;
     dimensions := dimensions e; numberInput_text := numberInput_text e;
     actors := v; objects := objects e; next_actor := next_actor e |}.

Definition with_objects (v : list (actor * ActorObj)) (e : Entities) : Entities :=
  {| highlightedActor := highlightedActor e; highlightBoxes := highlightBoxes e;
     spawnedHanzi := spawnedHanzi e; prefabs := prefabs e;
     dimensions := dimensions e; numberInput_text := numberInput_text e;
     actors := actors e; objects := v; next_actor := next_actor e |}.

Definition with_material (m : Material) (o : ActorObj) : ActorObj :=
  {| name := name o; parentId := parentId o; shape := shape o;
     transform := transform o; material := m; grabbable := grabbable o;
     subscriptions := subscriptions o; onClick := onClick o |}.

Definition with_subscriptions (s : list string) (o : ActorObj) : ActorObj :=
  {| name := name o; parentId := parentId o; shape := shape o;
     transform := transform o; material := material o; grabbable := grabbable o;
     subscriptions := s; onClick := onClick o |}.

Definition with_onClick (a : option actor) (o : ActorObj) : ActorObj :=
  {| name := name o; parentId := parentId o; shape := shape o;
     transform := transform o; material := material o; grabbable := grabbable o;
     subscriptions := subscriptions o; onClick := a |}.

Definition with_local_scale (s : Vector3) (o : ActorObj) : ActorObj :=
  {| name := name o; parentId := parentId o; shape := shape o;
     transform :=
       {| app_position := app_position (transform o);
          app_rotation := app_rotation (transform o);
          local_position := local_position (transform o);
          local_rotation := local_rotation (transform o);
          local_scale := s |};
     material := material o; grabbable := grabbable o;
     subscriptions := subscriptions o; onClick := onClick o |}.

Definition object_of (e : Entities) (a : actor) : option ActorObj :=
  JSMap.get Nat.eqb a (objects e).

(** A write to a field of the object behind handle [a]. *)
Definition update_object (a : actor) (f : ActorObj -> ActorObj)
  (objs : list (actor * ActorObj)) : list (actor * ActorObj) :=
  map (fun ko => if Nat.eqb (fst ko) a then (fst ko, f (snd ko)) else ko) objs.

(** [Actor.Create...]: a new live actor with a fresh handle. *)
Definition create (o : ActorObj) (e : Entities) : actor * Entities :=
  (next_actor e,
   {| highlightedActor := highlightedActor e; highlightBoxes := highlightBoxes e;
      spawnedHanzi := spawnedHanzi e; prefabs := prefabs e;
      dimensions := dimensions e; numberInput_text := numberInput_text e;
      actors := actors e ++ [next_actor e];
      objects := objects e ++ [(next_actor e, o)];
      next_actor := S (next_actor e) |}).

Definition is_live (e : Entities) (a : actor) : bool :=
  existsb (Nat.eqb a) (actors e).

Definition is_child (objs : list (actor * ActorObj)) (parent a : actor) : bool :=
  match JSMap.get Nat.eqb a objs with
  | Some o =>
      match parentId o with
      | Some q => Nat.eqb q parent
      | None => false
      end
  | None => false
  end.

(** [actor.destroy()]: a live actor leaves the context together with its
    children (the visual model of a box has none); nothing happens for an
    actor that is not live.  The object itself stays reachable through
    the handles the application still holds. *)
Definition destroy (a : actor) (e : Entities) : Entities :=
  if is_live e a then
    with_actors
      (filter (fun b => negb (Nat.eqb b a) && negb (is_child (objects e) a b))
              (actors e)) e
  else e.

Definition subscribe (sub : string) (a : actor) (e : Entities) : Entities :=
  with_objects
    (update_object a (fun o => with_subscriptions (subscriptions o ++ [sub]) o)
                   (objects e)) e.

Definition drop_subscription (sub : string) (o : ActorObj) : ActorObj :=
  with_subscriptions (filter (fun s => negb (String.eqb s sub)) (subscriptions o)) o.

(** [actor.unsubscribe(sub)] filters the subscription out. *)
Definition unsubscribe (sub : string) (a : actor) (e : Entities) : Entities :=
  with_objects (update_object a (drop_subscription sub) (objects e)) e.

(* ------------------------------------------------------------------ *)
(** ** Spawning, selecting and deleting entities *)

Definition vec (x y z : number) : Vector3 := {| vx := x; vy := y; vz := z |}.
Definition zero3 : Vector3 := vec (of_Z 0) (of_Z 0) (of_Z 0).
Definition identity_rotation : Quaternion :=
  {| qx := of_Z 0; qy := of_Z 0; qz := of_Z 0; qw := of_Z 1 |}.

(** [loadGltf]: when the character is not cached, its model and its
    bounding box are fetched and cached; a failed fetch caches nothing.
    The fetch is taken together with the call, as if nothing else
    happened while the model is on its way. *)
Definition loadGltf (env : Env) (c : hanzi) (e : Entities) : Entities * option prefab :=
  let e :=
    if negb (JSMap.has JSString.eqb c (prefabs e)) then
      match remote_model env (charCodeAt0 c) with
      | Some (p, dim) =>
          with_caches (JSMap.set JSString.eqb c p (prefabs e))
                      (JSMap.set JSString.eqb c dim (dimensions e)) e
      | None => e
      end
    else e in
  (e, JSMap.get JSString.eqb c (prefabs e)).

Definition default_transform (env : Env) (dim : BoundingBoxDimensions) : Transform :=
  let pos_x :=
    num_add (num_add (menu_width env) (dec 5 100))
            (num_div (num_mul (width dim) HANZI_MODEL_SCALE) (of_Z 2)) in
  let pos_y := num_div (num_mul (num_neg (height dim)) HANZI_MODEL_SCALE) (of_Z 2) in
  {| app_position := vec pos_x pos_y (of_Z 0);
     app_rotation := identity_rotation;
     local_position := vec pos_x pos_y (of_Z 0);
     local_rotation := HANZI_MODEL_ROTATION;
     local_scale := vec HANZI_MODEL_SCALE HANZI_MODEL_SCALE HANZI_MODEL_SCALE |}.

(** [spawnItem(char, _transform, editor)], run to its end.  When the
    model cannot be loaded the attempt is abandoned before anything is
    created. *)
Definition spawnItem (env : Env) (c : option hanzi) (_transform : option Transform)
  (editor : bool) (e : Entities) : Entities :=
  match c with
  | None => e
  | Some c =>
      let '(e, prefab_) := loadGltf env c e in
      match JSMap.get JSString.eqb c (dimensions e) with
      | None => e
      | Some dim =>
          let transform_ :=
            match _transform with
            | Some t => t
            | None => default_transform env dim
            end in
          let '(box, e) :=
            create {| name := code_string c; parentId := None;
                      shape := BoxPrimitive (width dim) (height dim) (depth dim);
                      transform := transform_; material := invisibleMaterial;
                      grabbable := editor; subscriptions := []; onClick := None |} e in
          let e := if editor then subscribe "transform" box e else e in
          match prefab_ with
          | None => e
          | Some p =>
              let '(model, e) :=
                create {| name := []; parentId := Some box; shape := FromPrefab p;
                          transform :=
                            {| app_position := zero3;
                               app_rotation := identity_rotation;
                               local_position :=
                                 vec (vx (center dim)) (num_neg (vz (center dim))) (of_Z 0);
                               local_rotation := identity_rotation;
                               local_scale := vec (of_Z 1) (of_Z 1) (of_Z 1) |};
                          material := invisibleMaterial;
                          grabbable := editor; subscriptions := [];
                          onClick := None |} e in
              let e := with_highlightBoxes
                         (JSMap.set Nat.eqb model box (highlightBoxes e)) e in
              let e := with_spawnedHanzi
                         (JSMap.set Nat.eqb box c (spawnedHanzi e)) e in
              if editor
              then with_objects
                     (update_object box (with_onClick (Some model)) (objects e)) e
              else e
          end
      end
  end.

(** [updateHanziInfoPanel(char)]: the panel shows the card of the
    character, on its thumbnail. *)
Definition updateHanziInfoPanel (c : option hanzi) (st : State) : State :=
  match c with
  | None => st
  | Some c =>
      let code := code_string c in
      with_assets (fst (Assets.loadMaterial code (Assets.thumbnail_url code) (assets st)))
        (with_infoPanel (Some c) st)
  end.

Definition actor_eqb (a : option actor) (b : actor) : bool :=
  match a with Some x => Nat.eqb x b | None => false end.

(** The click handler that [spawnItem] gives an editable box; [box] and
    [model] are the two actors it closes over. *)
Definition box_onClick (env : Env) (user : User) (box model : actor) (st : State) : State :=
  if checkUserName user (OWNER_NAME env) then
    let e := entities st in
    if negb (actor_eqb (highlightedActor e) model) then
      let objs :=
        match highlightedActor e with
        | Some h =>
            match JSMap.get Nat.eqb h (highlightBoxes e) with
            | Some hb => Some (update_object hb (with_material invisibleMaterial) (objects e))
            | None => None
            end
        | None => Some (objects e)
        end in
      match objs with
      | None => st
      | Some objs =>
          let objs := update_object box (with_material boundingBoxMaterial) objs in
          let e := with_highlightedActor (Some model) (with_objects objs e) in
          updateHanziInfoPanel (JSMap.get Nat.eqb box (spawnedHanzi e))
                               (with_entities e st)
      end
    else
      with_entities
        (with_highlightedActor None
           (with_objects
              (update_object box (with_material invisibleMaterial) (objects e)) e))
        st
  else st.

(** A click on an actor reaches the handler of a live box that has one. *)
Definition click (env : Env) (user : User) (box : actor) (st : State) : State :=
  if is_live (entities st) box then
    match object_of (entities st) box with
    | Some o =>
        match onClick o with
        | Some model => box_onClick env user box model st
        | None => st
        end
    | None => st
    end
  else st.

(** [deleteItem(actor)].  [None] is the [TypeError] of calling
    [unsubscribe] on [undefined], raised before anything is changed. *)
Definition deleteItem (a : actor) (e : Entities) : option Entities :=
  match JSMap.get Nat.eqb a (highlightBoxes e) with
  | None => None
  | Some box =>
      let e := unsubscribe "transform" box e in
      let e := with_spawnedHanzi (JSMap.delete Nat.eqb box (spawnedHanzi e)) e in
      let e := destroy a e in
      Some (destroy box e)
  end.

Fixpoint forEach_deleteItem (ks : list actor) (e : Entities) : option Entities :=
  match ks with
  | [] => Some e
  | k :: ks' =>
      match deleteItem k e with
      | Some e' => forEach_deleteItem ks' e'
      | None => None
      end
  end.

(** [clearLevel()]: [deleteItem] for every key of [highlightBoxes], the
    models of entities deleted before included. *)
Definition clearLevel (e : Entities) : option Entities :=
  forEach_deleteItem (JSMap.keys (highlightBoxes e)) e.

(* ------------------------------------------------------------------ *)
(** ** Level files *)

Definition json_vector3 (v : Vector3) : Vector3 :=
  vec (json_number (vx v)) (json_number (vy v)) (json_number (vz v)).

Definition json_quaternion (q : Quaternion) : Quaternion :=
  {| qx := json_number (qx q); qy := json_number (qy q);
     qz := json_number (qz q); qw := json_number (qw q) |}.

Definition json_transform (t : Transform) : Transform :=
  {| app_position := json_vector3 (app_position t);
     app_rotation := json_quaternion (app_rotation t);
     local_position := json_vector3 (local_position t);
     local_rotation := json_quaternion (local_rotation t);
     local_scale := json_vector3 (local_scale t) |}.

(** What reading a level back gives for a level that was written with
    [JSON.stringify]. *)
Definition json_level (l : levelData) : levelData :=
  map (fun d => {| char := char d; entry_transform := json_transform (entry_transform d) |}) l.

(** The loop of [saveLevel]: one record per entry of [spawnedHanzi], in
    the order of the map, with the box's transform as it is now. *)
Definition level_of (e : Entities) : levelData :=
  flat_map
    (fun kv : actor * hanzi =>
       match object_of e (fst kv) with
       | Some o => [{| char := snd kv; entry_transform := transform o |}]
       | None => []
       end)
    (spawnedHanzi e).

Definition existsSync (path : jsstring) (st : State) : bool :=
  JSMap.has JSString.eqb path (files st).

(** [fs.writeFile], which either stores the document or fails. *)
Definition writeLevel (filePath : jsstring) (level : levelData) (user : User)
  (write_ok : bool) (st : State) : State :=
  if write_ok
  then prompt user "Saved"
         (with_files (JSMap.set JSString.eqb filePath (json_level level) (files st)) st)
  else prompt user "Failed" st.

Definition levels_dir : jsstring := js "./public/levels/".

Definition saveLevel_path (filename : jsstring) : jsstring :=
  levels_dir ++ Path.basename filename ++ js ".json".

(** [saveLevel(filename, user)]; [overwrite] is the user's answer to the
    question asked when the file exists. *)
Definition saveLevel (filename : jsstring) (user : User)
  (overwrite write_ok : bool) (st : State) : State :=
  let level := level_of (entities st) in
  let filePath := saveLevel_path filename in
  if existsSync filePath st then
    let st := prompt user "File already exists, overwrite?" st in
    if overwrite then writeLevel filePath level user write_ok st else st
  else writeLevel filePath level user write_ok st.

Definition loadLevel_relativePath (filename : jsstring) : jsstring :=
  js "levels/" ++ filename ++ js ".json".

Definition loadLevel_path (filename : jsstring) : jsstring :=
  js "./public/" ++ loadLevel_relativePath filename.

(** The spawn that [loadLevel] starts for an entry of the level. *)
Definition spawn_entry (env : Env) (editor : bool) (e : Entities) (d : LevelEntry)
  : Entities :=
  spawnItem env (Some (char d)) (Some (entry_transform d)) editor e.

(** The rest of a spawn that had to wait for its model: when the model
    has arrived [loadGltf] caches it, whatever the cache holds by then,
    and the spawn goes on as it does for a cached character; a failed
    fetch ends the spawn. *)
Definition spawn_arrived (env : Env) (editor : bool) (e : Entities) (d : LevelEntry)
  : Entities :=
  match remote_model env (charCodeAt0 (char d)) with
  | Some (p, dim) =>
      spawn_entry env editor
        (with_caches (JSMap.set JSString.eqb (char d) p (prefabs e))
                     (JSMap.set JSString.eqb (char d) dim (dimensions e)) e)
        d
  | None => e
  end.

(** What is left of a list when the entry at place [k] is taken out. *)
Fixpoint remove_nth {A : Type} (k : nat) (l : list A) : list A :=
  match l, k with
  | [], _ => []
  | _ :: l', 0 => l'
  | x :: l', S k' => x :: remove_nth k' l'
  end.

(** The order in which waiting spawns get their models is the network's:
    each number of [arrival] picks, among the spawns still waiting, the
    one that is served next; when [arrival] is used up the rest are
    served in the order they wait in. *)
Fixpoint served {A : Type} (arrival : list nat) (waiting : list A) : list A :=
  match arrival, waiting with
  | _, [] => []
  | [], _ => waiting
  | i :: arrival', x :: _ =>
      let k := i mod List.length waiting in
      nth k waiting x :: served arrival' (remove_nth k waiting)
  end.

(** [loadLevel(filename, user, editor)]; the document fetched from the
    server is the file under [public/].  The loop starts every spawn
    without waiting for it, so each entry tests the cache as it is when
    the level is loaded.  The spawns of cached characters then run to
    their end in the order of the file, before any model arrives; the
    others each fetch their model and are completed in the order
    [arrival] gives.  The load and the completion of its spawns are
    taken in one step. *)
Definition loadLevel (env : Env) (filename : jsstring) (user : User)
  (editor : bool) (arrival : list nat) (st : State) : State :=
  match JSMap.get JSString.eqb (loadLevel_path filename) (files st) with
  | None => prompt user "No such file" st
  | Some level =>
      let e := entities st in
      let cached (d : LevelEntry) := JSMap.has JSString.eqb (char d) (prefabs e) in
      let ready := filter cached level in
      let waiting := filter (fun d => negb (cached d)) level in
      with_entities
        (fold_left (spawn_arrived env editor) (served arrival waiting)
           (fold_left (spawn_entry env editor) ready e))
        st
  end.

(* ------------------------------------------------------------------ *)
(** ** The control strip and the number input of the dataset scenes *)

(** What the outside answers while a click is handled: the user's answer
    to the prompt, the answer to the overwrite question, whether the
    write succeeds, and the order in which the models fetched for a load
    arrive. *)
Record Reply := {
  dialog : Dialog; overwrite : bool; write_ok : bool; arrival : list nat
}.

Definition lift_entities (f : Entities -> option Entities) (st : State) : option State :=
  match f (entities st) with
  | Some e => Some (with_entities e st)
  | None => None
  end.

(** [getCharacters()[index]] *)
Definition character_at (st : State) (index : Z) : option hanzi :=
  if (index <? 0)%Z then None else nth_error (getCharacters st) (Z.to_nat index).

Definition deleteButton (st : State) : option State :=
  match highlightedActor (entities st) with
  | Some a => lift_entities (deleteItem a) st
  | None => Some st
  end.

(** Columns: 'Search', 'Goto', 'Prev', 'Next', 'Spawn', 'Delete', 'Save',
    'Load', 'Clear'.  A prompt and its continuation are taken in one step. *)
Definition commonHanziMenuControlStrip_onClick (env : Env) (col : Z) (user : User)
  (r : Reply) (st : State) : option State :=
  if negb (in_hanzi_scene st) then Some st
  else
    match col with
    | 0%Z =>
        let st := prompt user "Search Hanzi" st in
        if submitted (dialog r) then Some (onSearchSubmitted env (text (dialog r)) st)
        else Some st
    | 1%Z =>
        let st := prompt user "Goto page" st in
        if submitted (dialog r) then onGotoSubmitted (text (dialog r)) st else Some st
    | 2%Z => Some (prevPage st)
    | 3%Z => Some (nextPage st)
    | 4%Z =>
        Some (with_entities
                (spawnItem env (character_at st (getHighlightedIndex (pager st)))
                           None true (entities st)) st)
    | 5%Z => deleteButton st
    | 6%Z =>
        let st := prompt user "Save as:" st in
        if submitted (dialog r)
        then Some (saveLevel (text (dialog r)) user (overwrite r) (write_ok r) st)
        else Some st
    | 7%Z =>
        let st := prompt user "Load from:" st in
        if submitted (dialog r)
        then Some (loadLevel env (text (dialog r)) user true (arrival r) st)
        else Some st
    | 8%Z =>
        let st := prompt user "Clear level?" st in
        if submitted (dialog r) then lift_entities clearLevel st else Some st
    | _ => Some st
    end.

Definition map_scale (f : number -> number) (o : ActorObj) : ActorObj :=
  let s := local_scale (transform o) in
  with_local_scale (vec (f (vx s)) (f (vy s)) (f (vz s))) o.

(** The body shared by the three handlers of the number input: write the
    scale of the box of the highlighted actor, then show [scale.x] in
    display units.  [None] is the [TypeError] of reading [transform] from
    [undefined]. *)
Definition rescale (f : number -> number) (e : Entities) : option Entities :=
  match highlightedActor e with
  | None => None
  | Some a =>
      match JSMap.get Nat.eqb a (highlightBoxes e) with
      | None => None
      | Some box =>
          let e := with_objects (update_object box (map_scale f) (objects e)) e in
          match object_of e box with
          | Some o =>
              Some (updateText (num_div (vx (local_scale (transform o))) HANZI_MODEL_SCALE) e)
          | None => None
          end
      end
  end.

Definition numberInput_onIncrease (st : State) : option State :=
  if negb (in_hanzi_scene st) then Some st
  else
    match highlightedActor (entities st) with
    | Some _ => lift_entities (rescale (fun s => num_add s SCALE_STEP)) st
    | None => Some st
    end.

Definition numberInput_onDecrease (st : State) : option State :=
  if negb (in_hanzi_scene st) then Some st
  else
    match highlightedActor (entities st) with
    | Some _ => lift_entities (rescale (fun s => num_sub s SCALE_STEP)) st
    | None => Some st
    end.

(** The continuation of the "Change scale to" prompt, once submitted. *)
Definition onScaleSubmitted (input : jsstring) (st : State) : option State :=
  let int := num_mul (parseInt input) HANZI_MODEL_SCALE in
  if strict_neq int NaN
  then lift_entities (rescale (fun _ => int)) st
  else Some st.

Definition numberInput_onEdit (user : User) (d : Dialog) (st : State) : option State :=
  if negb (in_hanzi_scene st) then Some st
  else
    match highlightedActor (entities st) with
    | Some _ =>
        let st := prompt user "Change scale to" st in
        if submitted d then onScaleSubmitted (text d) st else Some st
    | None => Some st
    end.

(* ------------------------------------------------------------------ *)
(** ** Observations and well-formed states *)

(** The scale of the box behind a handle. *)
Definition box_scale (st : State) (box : actor) : option Vector3 :=
  option_map (fun o => local_scale (transform o)) (object_of (entities st) box).

(** A number that a level file gives back as it is: neither [NaN], nor
    an infinity, nor the negative zero. *)
Definition plain (a : number) : bool :=
  match a with
  | Num S754_nan | Num (S754_infinity _) | Num (S754_zero true) => false
  | _ => true
  end.

Definition plain_vector3 (v : Vector3) : bool :=
  plain (vx v) && plain (vy v) && plain (vz v).

Definition plain_quaternion (q : Quaternion) : bool :=
  plain (qx q) && plain (qy q) && plain (qz q) && plain (qw q).

(** Every component of the transform is such a number. *)
Definition plain_transform (t : Transform) : bool :=
  plain_vector3 (app_position t) && plain_quaternion (app_rotation t)
  && plain_vector3 (local_position t) && plain_quaternion (local_rotation t)
  && plain_vector3 (local_scale t).

Definition plain_level (l : levelData) : bool :=
  forallb (fun d => plain_transform (entry_transform d)) l.

(** What holds of the entities in every state the handlers produce:
    a recorded box is the box of some recorded model, the model and
    bounding box of a recorded character are cached, and handles in use
    are below the next fresh one. *)
Definition well_formed (e : Entities) : bool :=
  forallb
    (fun bc : actor * hanzi =>
       existsb
         (fun a => match JSMap.get Nat.eqb a (highlightBoxes e) with
                   | Some b => Nat.eqb b (fst bc)
                   | None => false
                   end)
         (JSMap.keys (highlightBoxes e))
       && JSMap.has JSString.eqb (snd bc) (prefabs e)
       && JSMap.has JSString.eqb (snd bc) (dimensions e)
       && Nat.ltb (fst bc) (next_actor e))
    (spawnedHanzi e)
  && forallb (fun k => Nat.ltb k (next_actor e)) (JSMap.keys (objects e)).

(** The handles in use are below the next one to be given out. *)
Definition fresh (e : Entities) : Prop :=
  (forall k, In k (JSMap.keys (objects e)) -> k < next_actor e) /\
  (forall k, In k (JSMap.keys (spawnedHanzi e)) -> k < next_actor e).

(** The same as a proposition, with the models of [highlightBoxes] below
    the next fresh handle too: the invariant of the entity manager. *)
Definition entities_invariant (e : Entities) : Prop :=
  (forall b c, In (b, c) (spawnedHanzi e) ->
     (exists a, JSMap.get Nat.eqb a (highlightBoxes e) = Some b) /\
     JSMap.has JSString.eqb c (prefabs e) = true /\
     JSMap.has JSString.eqb c (dimensions e) = true /\
     b < next_actor e) /\
  (forall k, In k (JSMap.keys (objects e)) -> k < next_actor e) /\
  (forall a, In a (JSMap.keys (highlightBoxes e)) -> a < next_actor e).

(** The same session under another owner name. *)
Definition with_owner (o : option jsstring) (env : Env) : Env :=
  {| OWNER_NAME := o; pinyinDatabase := pinyinDatabase env; sprite := sprite env;
     remote_model := remote_model env; menu_width := menu_width env |}.

(* ------------------------------------------------------------------ *)
(** ** Start-up, and runs of handlers *)

Definition initial_composer : Composer :=
  {| pinyinInfoText := [];
     pinyinInfoPanel_text := PINYIN_INFO_PLACE_HOLDER;
     pinyinMenu_highlighted := false;
     tone_highlighted := false;
     tone_coord_y := 0%N;
     sounds := [] |}.

Definition initial_entities : Entities :=
  {| highlightedActor := None; highlightBoxes := []; spawnedHanzi := [];
     prefabs := []; dimensions := []; numberInput_text := None;
     actors := []; objects := []; next_actor := 0 |}.

(** The state [init()] leaves: data loaded, the grid on page 1 of the
    characters, and the main menu as the scene.  [disk] is the content of
    the levels directory when the session starts. *)
Definition init (env : Env) (disk : list (jsstring * levelData)) : State :=
  let db := pinyinDatabase env in
  switchScene "main_menu"
    (updateCommonHanziMenu
       {| currentScene := "";
          enabled := [];
          composer := initial_composer;
          pager := {| characters := db_characters db; radicals := db_radicals db;
                      radicalPageNum := None; hanziPageNum := None;
                      curPageNum := 1; menu_coord := (0, 0)%Z; menu_cells := [] |};
          entities := initial_entities;
          hanziInfoPanel_char := None;
          files := disk;
          prompts := [];
          assets := Assets.empty |}).

(** Keys put one after the other. *)
Definition run_putc (env : Env) (cs : list jsstring) (k : Composer) : Composer :=
  fold_left (fun k c => putc env c k) cs k.

(** 'Backspace', 'Clear' and 'Enter' are commands; any other key is
    appended to the buffer. *)
Definition is_command (c : jsstring) : bool :=
  JSString.eqb c (js "Backspace") || JSString.eqb c (js "Clear")
  || JSString.eqb c (js "Enter").

(** The buffer is empty or a prefix of a syllable. *)
Definition valid_buffer (db : PinyinDatabase) (buffer : jsstring) : Prop :=
  buffer = [] \/ exists s, In s (syllables db) /\ is_prefix buffer s.

(** What the page operations of a dataset scene do, one after the other. *)
Inductive PageOp :=
| OpGoto (p : Z)
| OpPrev
| OpNext
| OpSearch (query : jsstring).

Definition page_op (env : Env) (op : PageOp) (st : State) : State :=
  match op with
  | OpGoto p => gotoPage p st
  | OpPrev => prevPage st
  | OpNext => nextPage st
  | OpSearch q => onSearchSubmitted env q st
  end.

Definition run_page_ops (env : Env) (ops : list PageOp) (st : State) : State :=
  fold_left (fun st op => page_op env op st) ops st.

(** The two datasets, with the scene that shows each, its row in the main
    menu, its working list and the page remembered for it. *)
Inductive Dataset := Radicals | Characters.

Definition other (d : Dataset) : Dataset :=
  match d with Radicals => Characters | Characters => Radicals end.

Definition scene_of (d : Dataset) : string :=
  match d with
  | Radicals => "radical_menu"
  | Characters => "common_hanzi_menu"
  end.

Definition row_of (d : Dataset) : Z :=
  match d with Radicals => 2 | Characters => 3 end.

Definition working_list (d : Dataset) (p : Pager) : list hanzi :=
  match d with Radicals => radicals p | Characters => characters p end.

Definition source_list (d : Dataset) (db : PinyinDatabase) : list hanzi :=
  match d with Radicals => db_radicals db | Characters => db_characters db end.

Definition remembered (d : Dataset) (p : Pager) : option Z :=
  match d with Radicals => radicalPageNum p | Characters => hanziPageNum p end.

(** A user grabs an editable box and moves it: the box being subscribed
    to transform updates, the SDK writes the new transform into it. *)
Definition with_transform (t : Transform) (o : ActorObj) : ActorObj :=
  {| name := name o; parentId := parentId o; shape := shape o;
     transform := t; material := material o; grabbable := grabbable o;
     subscriptions := subscriptions o; onClick := onClick o |}.

Definition box_moved (box : actor) (t : Transform) (st : State) : State :=
  let e := entities st in
  match object_of e box with
  | Some o =>
      if is_live e box && grabbable o
         && existsb (String.eqb "transform") (subscriptions o)
      then with_entities
             (with_objects (update_object box (with_transform t) (objects e)) e) st
      else st
  | None => st
  end.

(** One event handled: a click on a widget or on a spawned box, with the
    answers given to the prompts it raises, or a box moved by hand.  A
    handler that raises (or hands [NaN] to the grid) has no step. *)
Inductive step (env : Env) : State -> State -> Prop :=
| step_home u st :
    step env st (home_onClick env u st)
| step_mainMenu row st :
    step env st (mainMenu_onClick row st)
| step_key c st :
    currentScene st = "pinyin_menu"%string ->
    step env st (with_composer (putc env c (composer st)) st)
| step_pinyinControl col st :
    step env st (pinyinMenuControlStrip_onClick env col st)
| step_controlStrip col u r st st' :
    commonHanziMenuControlStrip_onClick env col u r st = Some st' ->
    step env st st'
| step_increase st st' :
    numberInput_onIncrease st = Some st' -> step env st st'
| step_decrease st st' :
    numberInput_onDecrease st = Some st' -> step env st st'
| step_edit u d st st' :
    numberInput_onEdit u d st = Some st' -> step env st st'
| step_click u box st :
    step env st (click env u box st)
| step_moved box t st :
    step env st (box_moved box t st).

(** The states a session can be in, started on a disk [disk]. *)
Inductive reachable (env : Env) (disk : list (jsstring * levelData)) : State -> Prop :=
| reachable_init : reachable env disk (init env disk)
| reachable_step st st' :
    reachable env disk st -> step env st st' -> reachable env disk st'.

(* ------------------------------------------------------------------ *)
(** ** A small session, for the examples *)

Module Example.

Definition zhong : hanzi := [20013%N].     (* U+4E2D *)
Definition wen : hanzi := [25991%N].       (* U+6587 *)
Definition yi : hanzi := [19968%N].        (* U+4E00 *)
Definition ren : hanzi := [20154%N].       (* U+4EBA *)

Definition db0 : PinyinDatabase :=
  {| db_characters := [zhong; wen; ren];
     db_radicals := [yi; ren];
     dictionary := fun c =>
       if JSString.eqb c zhong then
         {| pinyin := js "zhong"; stroke := js "4"; english := js "middle" |}
       else if JSString.eqb c wen then
         {| pinyin := js "wen"; stroke := js "4"; english := js "script" |}
       else if JSString.eqb c yi then
         {| pinyin := js "yi"; stroke := js "1"; english := js "one" |}
       else
         {| pinyin := js "ren"; stroke := js "2"; english := js "person" |};
     syllables := [js "a"; js "zhong"; js "zhang"; js "wen";
                   [108; u_umlaut]%N] |}.

Definition dim0 : BoundingBoxDimensions :=
  {| width := of_Z 1000; height := of_Z 1000; depth := of_Z 100;
     center := vec (of_Z 500) (of_Z 50) (of_Z 500) |}.

Definition env0 : Env :=
  {| OWNER_NAME := Some (js "alice");
     pinyinDatabase := db0;
     sprite := [(js "a1", (js "0", js "480"));
                (js "zhong1", (js "480", js "620"));
                (js "lv4", (js "1100", js "510"))];
     remote_model := fun code =>
       match code with
       | Some n => Some (n, dim0)
       | None => None
       end;
     menu_width := dec 167 100 |}.

Definition alice : User := {| user_id := 1; user_name := js "alice" |}.
Definition bob : User := {| user_id := 2; user_name := js "bob" |}.

Definition no_reply : Reply :=
  {| dialog := {| submitted := false; text := [] |};
     overwrite := false; write_ok := true; arrival := [] |}.

Definition answer (s : jsstring) : Reply :=
  {| dialog := {| submitted := true; text := s |};
     overwrite := false; write_ok := true; arrival := [] |}.

Definition or_stay (st : State) (r : option State) : State :=
  match r with Some st' => st' | None => st end.

(** The owner opens the 'Common' dataset and spawns the first character. *)
Definition st_common : State := mainMenu_onClick 3 (init env0 []).

Definition st_spawned : State :=
  or_stay st_common
    (commonHanziMenuControlStrip_onClick env0 4 alice no_reply st_common).

(** She then clicks the spawned box (actor 0, its model being actor 1). *)
Definition st_selected : State := click env0 alice 0 st_spawned.

(** She spawns the character once more (box 2, model 3) and makes the
    selected entity one step larger. *)
Definition st_two : State :=
  let st := or_stay st_selected
              (commonHanziMenuControlStrip_onClick env0 4 alice no_reply st_selected) in
  or_stay st (numberInput_onIncrease st).

(** The same, with an (empty) level "lvl1" already on disk. *)
Definition st_two_lvl1_on_disk : State :=
  with_files [(js "./public/levels/lvl1.json", [])] st_two.

(** The selected entity after an answer to the scale prompt. *)
Definition st_scaled (input : jsstring) : State :=
  or_stay st_selected
    (numberInput_onEdit alice {| submitted := true; text := input |} st_selected).

(** The digit 1 followed by 309 zeros. *)
Definition huge : jsstring := 49%N :: repeat 48%N 309.

(** The level that comes back when [st] is saved as "lvl1", cleared and
    loaded again. *)
Definition round_trip (st : State) : option levelData :=
  let saved := saveLevel (js "lvl1") alice false true st in
  option_map
    (fun cleared =>
       level_of (entities (loadLevel env0 (js "lvl1") alice true []
                                     (with_entities cleared saved))))
    (clearLevel (entities saved)).

(** The scales of the entries of a level. *)
Definition scales (l : levelData) : list Vector3 :=
  map (fun d => local_scale (entry_transform d)) l.

(** The composer after the keys "zh". *)
Definition k_zh : Composer := run_putc env0 [js "zh"] initial_composer.

(** The composer holding the syllable "a", no tone chosen. *)
Definition k_a : Composer := run_putc env0 [js "a"] initial_composer.

(** A database with 200 characters (four pages) and 70 radicals (two). *)
Definition db1 : PinyinDatabase :=
  {| db_characters := map (fun n => [19968 + N.of_nat n]%N) (seq 0 200);
     db_radicals := map (fun n => [12032 + N.of_nat n]%N) (seq 0 70);
     dictionary := fun c =>
       if N.even (hd 0%N c)
       then {| pinyin := js "ma"; stroke := js "3"; english := js "even" |}
       else {| pinyin := js "shi"; stroke := js "5"; english := js "odd" |};
     syllables := [js "ma"; js "shi"] |}.

Definition env1 : Env :=
  {| OWNER_NAME := Some (js "alice");
     pinyinDatabase := db1;
     sprite := [];
     remote_model := fun _ => None;
     menu_width := dec 167 100 |}.

(** The owner opens the 'Common' dataset and goes to page 3. *)
Definition st_page3 : State := gotoPage 3 (mainMenu_onClick 3 (init env1 [])).

End Example.

(* ------------------------------------------------------------------ *)
(** ** The rows of the Pinyin keyboard *)

Module Grid.

(** [height(arr, width)]: the number of rows that [arr] fills.  The
    width is positive at every call (the keyboard has 12 columns). *)
Definition height (arr : list jsstring) (width : nat) : nat :=
  List.length arr / width
  + (if (List.length arr mod width =? 0)%nat then 0 else 1).

(** [breakDown(arr, width)]: full rows first, then the rest of [arr]
    padded with empty strings.  When the loop ends its variable [i] is
    [h-1], or [0] when [arr] fills no row. *)
Definition breakDown (arr : list jsstring) (width : nat) : list (list jsstring) :=
  let h := height arr width in
  let i := h - 1 in
  map (fun i => slice (Z.of_nat (i * width)) (Z.of_nat ((i + 1) * width)) arr)
      (seq 0 (h - 1))
  ++ [slice (Z.of_nat (i * width)) (Z.of_nat (List.length arr)) arr
      ++ repeat [] (h * width - List.length arr)].

Definition PINYIN_MENU_COLS : nat := 12.

(** [createPinyinMenu]: the row list [rl] that the grid shows and the
    datum list [dl] that the click handler indexes. *)
Definition rl (initials finals wholes : list jsstring) : list (list jsstring) :=
  breakDown initials PINYIN_MENU_COLS
  ++ breakDown finals PINYIN_MENU_COLS
  ++ breakDown wholes PINYIN_MENU_COLS.

Definition dl (initials finals wholes : list jsstring) : list jsstring :=
  List.concat (rl initials finals wholes).

(** A group of keys followed by the empty cells that fill its last row. *)
Definition padded (arr : list jsstring) (width : nat) : list jsstring :=
  arr ++ repeat [] (height arr width * width - List.length arr).

End Grid.

(* ------------------------------------------------------------------ *)
(** ** Pages of a dataset *)

(** [getCommonHanziPageData()] with the grid on page [p]. *)
Definition page_data (p : Z) (st : State) : list hanzi :=
  getCommonHanziPageData (with_pager (with_curPageNum p (pager st)) st).

(* ------------------------------------------------------------------ *)
(** ** Scenes and their widgets *)

(** The widgets of a scene, as [switchScene] finds them. *)
Definition widgets_of (scene : string) : list Widget :=
  match List.find (fun e : string * list Widget => String.eqb (fst e) scene) scenes with
  | Some e => snd e
  | None => []
  end.

(** What the last [enable()] or [disable()] left a widget in; [None] when
    neither was called on it. *)
Definition is_enabled (st : State) (w : Widget) : option bool :=
  JSMap.get Widget_eqb w (enabled st).

(* ------------------------------------------------------------------ *)
(** ** More of what the entity manager keeps *)

(** The same session with another remote model store. *)
Definition with_remote (r : option N -> option (prefab * BoundingBoxDimensions))
  (env : Env) : Env :=
  {| OWNER_NAME := OWNER_NAME env; pinyinDatabase := pinyinDatabase env;
     sprite := sprite env; remote_model := r; menu_width := menu_width env |}.

(** The remote store has the model of the character of a level entry. *)
Definition can_fetch (env : Env) (d : LevelEntry) : bool :=
  match remote_model env (charCodeAt0 (char d)) with
  | Some _ => true
  | None => false
  end.

(** The model of [c] is cached, or the remote store has it. *)
Definition available (env : Env) (e : Entities) (c : hanzi) : Prop :=
  JSMap.has JSString.eqb c (prefabs e) = true
  \/ remote_model env (charCodeAt0 c) <> None.

(** The click handler of a box closes over the model recorded for it; the
    selected actor is a recorded model; the boxes are below the next
    fresh handle; the box that shows the bounding-box material is the box
    of the selected actor; and a character has a cached model exactly
    when it has cached dimensions. *)
Definition selection_invariant (e : Entities) : Prop :=
  (forall box o model,
     object_of e box = Some o -> onClick o = Some model ->
     JSMap.get Nat.eqb model (highlightBoxes e) = Some box) /\
  (forall a, highlightedActor e = Some a -> In a (JSMap.keys (highlightBoxes e))) /\
  (forall a box, JSMap.get Nat.eqb a (highlightBoxes e) = Some box -> box < next_actor e) /\
  (forall box o,
     object_of e box = Some o ->
     (material o = boundingBoxMaterial <->
      exists a, highlightedActor e = Some a
                /\ JSMap.get Nat.eqb a (highlightBoxes e) = Some box)) /\
  (forall c, JSMap.has JSString.eqb c (prefabs e)
             = JSMap.has JSString.eqb c (dimensions e)).

(* ------------------------------------------------------------------ *)
(** ** Handled events, by what they do *)

(** What one handled event does to the state: nothing, a change of scene,
    a key in the composer, a prompt and its continuation, a page
    operation, or an operation of the entity manager. *)
Inductive outcome (env : Env) (st : State) : State -> Prop :=
| out_same : outcome env st st
| out_home : outcome env st (switchScene "main_menu" st)
| out_leave s :
    currentScene st = "main_menu"%string ->
    s = "pinyin_menu"%string \/ s = "phonetics_table"%string ->
    outcome env st (switchScene s st)
| out_enter d :
    currentScene st = "main_menu"%string ->
    outcome env st (mainMenu_onClick (row_of d) st)
| out_key c :
    currentScene st = "pinyin_menu"%string ->
    outcome env st (with_composer (putc env c (composer st)) st)
| out_prompt u t :
    in_hanzi_scene st = true -> outcome env st (prompt u t st)
| out_search u t q :
    in_hanzi_scene st = true ->
    outcome env st (onSearchSubmitted env q (prompt u t st))
| out_goto u t z :
    in_hanzi_scene st = true -> outcome env st (gotoPage z (prompt u t st))
| out_prev : in_hanzi_scene st = true -> outcome env st (prevPage st)
| out_next : in_hanzi_scene st = true -> outcome env st (nextPage st)
| out_spawn c :
    in_hanzi_scene st = true ->
    outcome env st (with_entities (spawnItem env c None true (entities st)) st)
| out_delete a e' :
    in_hanzi_scene st = true ->
    highlightedActor (entities st) = Some a ->
    deleteItem a (entities st) = Some e' ->
    outcome env st (with_entities e' st)
| out_save u t X ow ok :
    in_hanzi_scene st = true ->
    outcome env st (saveLevel X u ow ok (prompt u t st))
| out_load u t X ar :
    in_hanzi_scene st = true ->
    outcome env st (loadLevel env X u true ar (prompt u t st))
| out_clear u t e' :
    in_hanzi_scene st = true ->
    clearLevel (entities st) = Some e' ->
    outcome env st (with_entities e' (prompt u t st))
| out_rescale f a e' :
    in_hanzi_scene st = true ->
    highlightedActor (entities st) = Some a ->
    rescale f (entities st) = Some e' ->
    outcome env st (with_entities e' st)
| out_rescale_prompt u t f a e' :
    in_hanzi_scene st = true ->
    highlightedActor (entities st) = Some a ->
    rescale f (entities st) = Some e' ->
    outcome env st (with_entities e' (prompt u t st))
| out_select u box o model :
    is_live (entities st) box = true ->
    object_of (entities st) box = Some o ->
    onClick o = Some model ->
    checkUserName u (OWNER_NAME env) = true ->
    outcome env st (box_onClick env u box model st)
| out_moved box t o :
    object_of (entities st) box = Some o ->
    is_live (entities st) box = true ->
    grabbable o = true ->
    outcome env st
      (with_entities
         (with_objects
            (update_object box (with_transform t) (objects (entities st)))
            (entities st)) st).

(* ------------------------------------------------------------------ *)
(** ** The two actors of a spawned entity *)

(** The box as [spawnItem] leaves it: an editable box is subscribed to
    transform updates and has the click handler closing over [model]. *)
Definition spawned_box (env : Env) (c : hanzi) (_transform : option Transform)
  (editor : bool) (dim : BoundingBoxDimensions) (model : actor) : ActorObj :=
  {| name := code_string c; parentId := None;
     shape := BoxPrimitive (width dim) (height dim) (depth dim);
     transform :=
       match _transform with
       | Some t => t
       | None => default_transform env dim
       end;
     material := invisibleMaterial;
     grabbable := editor;
     subscriptions := if editor then ["transform"%string] else [];
     onClick := if editor then Some model else None |}.

(** The visual model, a child of the box. *)
Definition spawned_model (p : prefab) (editor : bool) (dim : BoundingBoxDimensions)
  (box : actor) : ActorObj :=
  {| name := []; parentId := Some box; shape := FromPrefab p;
     transform :=
       {| app_position := zero3;
          app_rotation := identity_rotation;
          local_position := vec (vx (center dim)) (num_neg (vz (center dim))) (of_Z 0);
          local_rotation := identity_rotation;
          local_scale := vec (of_Z 1) (of_Z 1) (of_Z 1) |};
     material := invisibleMaterial;
     grabbable := editor; subscriptions := [];
     onClick := None |}.

(** The entity of model [a] and box [box] has been deleted: both actors
    are gone, the box is no longer recorded, and no object under the
    box's handle is subscribed to transform updates. *)
Definition deleted (e : Entities) (a box : actor) : Prop :=
  is_live e a = false /\
  is_live e box = false /\
  JSMap.get Nat.eqb box (spawnedHanzi e) = None /\
  forall o, In (box, o) (objects e) -> drop_subscription "transform" o = o.

(** The thumbnail of [name] is loaded: its material is [m], and its
    texture is there too. *)
Definition material_cached (a : Assets.t) (name : jsstring) (m : nat) : Prop :=
  JSMap.get JSString.eqb (js "material_" ++ name) (Assets.materials a) = Some m /\
  JSMap.has JSString.eqb (js "texture_" ++ name) (Assets.textures a) = true.
(* ================================================================== *)
(** * Properties *)

(* ------------------------------------------------------------------ *)
(** ** Facts about strings *)

Module JSStringFacts.

Lemma eqb_spec a b : reflect (a = b) (eqb a b).
Proof.
  revert b; induction a as [|x a IH]; intros [|y b]; simpl;
    try (constructor; congruence).
  destruct (N.eqb_spec x y) as [->|Hxy]; simpl.
  - destruct (IH b) as [->|Hab]; constructor; congruence.
  - constructor; congruence.
Qed.

Lemma eqb_eq a b : eqb a b = true <-> a = b.
Proof. destruct (eqb_spec a b); split; congruence. Qed.

Lemma eqb_refl a : eqb a a = true.
Proof. apply eqb_eq; reflexivity. Qed.

Lemma startsWith_spec p s : startsWith p s = true <-> is_prefix p s.
Proof.
  revert s; induction p as [|x p IH]; intros s; simpl.
  - split; [intros _; exists s; reflexivity | reflexivity].
  - destruct s as [|y s].
    + split; [discriminate | intros [r Hr]; discriminate].
    + rewrite andb_true_iff, N.eqb_eq, IH. split.
      * intros [-> [r ->]]. exists r; reflexivity.
      * intros [r Hr]. injection Hr as -> ->. split; [reflexivity | exists r; reflexivity].
Qed.

Lemma includes_spec s q : includes s q = true <-> is_substring q s.
Proof.
  induction s as [|y s IH].
  - simpl. rewrite orb_false_r, startsWith_spec. split.
    + intros [r Hr]. exists [], r. exact Hr.
    + intros [l [r Hr]]. destruct l; [exists r; exact Hr | discriminate].
  - cbn [includes]. rewrite orb_true_iff, startsWith_spec, IH. split.
    + intros [[r Hr] | [l [r Hr]]].
      * exists [], r. exact Hr.
      * exists (y :: l), r. simpl. rewrite Hr. reflexivity.
    + intros [l [r Hr]]. destruct l as [|z l].
      * left. exists r. exact Hr.
      * right. injection Hr as _ Hr. exists l, r. exact Hr.
Qed.

Lemma array_includes_spec arr s : array_includes arr s = true <-> In s arr.
Proof.
  unfold array_includes. rewrite existsb_exists. split.
  - intros [x [Hin Heq]]. apply eqb_eq in Heq. subst. exact Hin.
  - intros Hin. exists s. split; [exact Hin | apply eqb_refl].
Qed.

Lemma is_prefix_removelast p s :
  is_prefix p s -> is_prefix (removelast p) s.
Proof.
  intros [r ->]. destruct p as [|x p].
  - exists r. reflexivity.
  - exists (last (x :: p) 0%N :: r).
    rewrite (@app_removelast_last _ (x :: p) 0%N) at 1 by discriminate.
    rewrite <- app_assoc. reflexivity.
Qed.

End JSStringFacts.
Import JSStringFacts.

(* ------------------------------------------------------------------ *)
(** ** Facts about numbers *)

Module JSNumberFacts.

Lemma strict_neq_NaN_r a : strict_neq a NaN = true.
Proof. destruct a as [|[]]; reflexivity. Qed.

(** The constants of the application and two products, as doubles:
    0.0008, 0.000025, 150 * 0.0008 = 0.12000000000000001 and
    13 * 0.0008 / 0.0008 = 13.000000000000002. *)
Example double_examples :
  HANZI_MODEL_SCALE = Num (S754_finite false 7378697629483821 (-63)) /\
  SCALE_STEP = Num (S754_finite false 7378697629483821 (-68)) /\
  num_mul (of_Z 150) HANZI_MODEL_SCALE = Num (S754_finite false 8646911284551353 (-56)) /\
  num_div (num_mul (of_Z 13) HANZI_MODEL_SCALE) HANZI_MODEL_SCALE
  = Num (S754_finite false 7318349394477057 (-49)) /\
  of_Z 13 = Num (S754_finite false 7318349394477056 (-49)).
Proof. vm_compute. repeat split. Qed.

Example parseInt_examples :
  parseInt_Z (js "150") = Some 150%Z /\
  parseInt_Z (js "  -12px") = Some (-12)%Z /\
  parseInt_Z (js "0x1F") = Some 31%Z /\
  parseInt_Z (js "abc") = None /\
  parseInt_Z (js "") = None /\
  parseInt_Z (js "1.9") = Some 1%Z.
Proof. repeat split; reflexivity. Qed.

End JSNumberFacts.
Import JSNumberFacts.

(* ------------------------------------------------------------------ *)
(** ** Facts about [path.basename] *)

Module PathFacts.
Import Path.

Lemma until_slash_no_slash r : ~ In slash (until_slash r).
Proof.
  induction r as [|c r IH]; simpl; [tauto|].
  destruct (N.eqb_spec c slash) as [->|Hne]; simpl; [tauto|].
  intros [Heq | Hin]; [congruence | tauto].
Qed.

Lemma basename_no_slash p : ~ In slash (basename p).
Proof.
  unfold basename. rewrite <- in_rev. apply until_slash_no_slash.
Qed.

Lemma until_slash_id r : ~ In slash r -> until_slash r = r.
Proof.
  induction r as [|c r IH]; simpl; [reflexivity|].
  intros Hn. destruct (N.eqb_spec c slash) as [->|Hne]; [tauto|].
  rewrite IH; [reflexivity | tauto].
Qed.

Lemma drop_slashes_id r : ~ In slash r -> drop_slashes r = r.
Proof.
  destruct r as [|c r]; simpl; [reflexivity|].
  intros Hn. destruct (N.eqb_spec c slash) as [->|Hne]; [tauto | reflexivity].
Qed.

Lemma basename_id p : ~ In slash p -> basename p = p.
Proof.
  intros Hn. unfold basename.
  assert (Hr : ~ In slash (rev p)) by (rewrite <- in_rev; exact Hn).
  rewrite drop_slashes_id, until_slash_id by (try rewrite drop_slashes_id; assumption).
  apply rev_involutive.
Qed.

Example basename_examples :
  basename (js "level1") = js "level1" /\
  basename (js "a/b") = js "b" /\
  basename (js "a/b/") = js "b" /\
  basename (js "../secret") = js "secret" /\
  basename (js "/") = [] /\
  basename (js "..") = js "..".
Proof. repeat split; reflexivity. Qed.

End PathFacts.

(* ------------------------------------------------------------------ *)
(** ** Facts about maps *)

Module JSMapFacts.
Import JSMap.
Section Facts.

Variables K V : Type.
Variable keqb : K -> K -> bool.
Hypothesis keqb_spec : forall a b, reflect (a = b) (keqb a b).

Local Abbreviation get := (@JSMap.get K V keqb).
Local Abbreviation set := (@JSMap.set K V keqb).
Local Abbreviation delete := (@JSMap.delete K V keqb).
Local Abbreviation keys := (@JSMap.keys K V).

Lemma get_delete_same k m : get k (delete k m) = None.
Proof.
  induction m as [|[k' v'] m IH]; simpl; [reflexivity|].
  destruct (keqb k k') eqn:E; [exact IH | simpl; rewrite E; exact IH].
Qed.

Lemma delete_absent k m : get k m = None -> delete k m = m.
Proof.
  induction m as [|[k' v'] m IH]; simpl; [reflexivity|].
  destruct (keqb k k'); [discriminate | intros H; rewrite IH; auto].
Qed.

Lemma delete_idem k m : delete k (delete k m) = delete k m.
Proof. apply delete_absent, get_delete_same. Qed.

Lemma get_None_keys k m : get k m = None <-> ~ In k (keys m).
Proof.
  induction m as [|[k' v'] m IH]; simpl; [tauto|].
  destruct (keqb_spec k k') as [->|Hne].
  - split; [discriminate | tauto].
  - rewrite IH. split; [intros H [E|I]; [congruence | tauto] | tauto].
Qed.

Lemma keys_delete_In k k0 m : In k0 (keys (delete k m)) <-> In k0 (keys m) /\ k0 <> k.
Proof.
  induction m as [|[k' v'] m IH]; simpl; [tauto|].
  destruct (keqb_spec k k') as [->|Hne]; simpl; rewrite IH.
  - split; [tauto | intros [[E|I] N]; [congruence | tauto]].
  - split; [intros [E|[I N]]; [subst; split; [tauto | congruence] | tauto] | tauto].
Qed.

Lemma set_fresh k v m : get k m = None -> set k v m = m ++ [(k, v)].
Proof.
  induction m as [|[k' v'] m IH]; simpl; [reflexivity|].
  destruct (keqb k k'); [discriminate | intros H; rewrite IH; auto].
Qed.

Lemma get_set_same k v m : get k (set k v m) = Some v.
Proof.
  induction m as [|[k' v'] m IH]; simpl.
  - destruct (keqb_spec k k); [reflexivity | congruence].
  - destruct (keqb k k') eqn:E; simpl; rewrite E; [reflexivity | exact IH].
Qed.

Lemma keys_In_get k m : In k (keys m) -> exists v, get k m = Some v.
Proof.
  intros Hin. destruct (get k m) as [v|] eqn:E; [exists v; reflexivity|].
  apply get_None_keys in E. contradiction.
Qed.

Lemma has_get k m : JSMap.has keqb k m = true -> exists v, get k m = Some v.
Proof.
  unfold JSMap.has. destruct (get k m) as [v|]; [exists v; reflexivity | discriminate].
Qed.

Lemma get_app_old k m m' v : get k m = Some v -> get k (m ++ m') = Some v.
Proof.
  induction m as [|[k' v'] m IH]; simpl; [discriminate|].
  destruct (keqb k k'); [tauto | exact IH].
Qed.

Lemma get_app_new k m m' : ~ In k (keys m) -> get k (m ++ m') = get k m'.
Proof.
  induction m as [|[k' v'] m IH]; simpl; [reflexivity|].
  intros Hn. destruct (keqb_spec k k') as [->|Hne]; [tauto|].
  apply IH. tauto.
Qed.

Lemma set_In k v m kv : In kv (set k v m) -> In kv m \/ kv = (k, v).
Proof.
  induction m as [|[k' v'] m IH]; simpl.
  - intros [H|[]]; right; symmetry; exact H.
  - destruct (keqb_spec k k') as [->|Hne]; simpl.
    + intros [H|H]; [right; symmetry; exact H | left; right; exact H].
    + intros [H|H]; [left; left; exact H|].
      destruct (IH H) as [H'|H']; [left; right; exact H' | right; exact H'].
Qed.

Lemma keys_set_In k v m k0 : In k0 (keys (set k v m)) -> In k0 (keys m) \/ k0 = k.
Proof.
  unfold JSMap.keys. intros H. apply in_map_iff in H as [[k1 v1] [<- Hin]].
  apply set_In in Hin as [Hin | [= -> ->]]; [left | right; reflexivity].
  apply in_map_iff. exists (k1, v1). split; [reflexivity | exact Hin].
Qed.

Lemma get_set_other k v m k0 : k0 <> k -> get k0 (set k v m) = get k0 m.
Proof.
  intros Hne. induction m as [|[k' v'] m IH]; simpl.
  - destruct (keqb_spec k0 k); [contradiction | reflexivity].
  - destruct (keqb_spec k k') as [->|Hkk']; simpl.
    + destruct (keqb_spec k0 k'); [contradiction | reflexivity].
    + destruct (keqb k0 k'); [reflexivity | exact IH].
Qed.

Lemma has_set_mono k v m k0 :
  JSMap.has keqb k0 m = true -> JSMap.has keqb k0 (set k v m) = true.
Proof.
  unfold JSMap.has. destruct (keqb_spec k0 k) as [->|Hne].
  - rewrite get_set_same. reflexivity.
  - rewrite get_set_other by exact Hne. tauto.
Qed.

Lemma delete_In k m kv : In kv (delete k m) -> In kv m.
Proof.
  induction m as [|[k' v'] m IH]; simpl; [tauto|].
  destruct (keqb k k'); simpl; [right; apply IH; assumption|].
  intros [H|H]; [left; exact H | right; apply IH, H].
Qed.

End Facts.
End JSMapFacts.

(* ------------------------------------------------------------------ *)
(** ** Lists: filters, and the order of arrival *)

Lemma filter_all {A : Type} (f : A -> bool) (l : list A) :
  (forall x, In x l -> f x = true) -> filter f l = l.
Proof.
  induction l as [|x l IH]; intros H; [reflexivity|].
  cbn [filter]. rewrite (H x (or_introl eq_refl)), IH; [reflexivity|].
  intros y Hy. apply H. right. exact Hy.
Qed.

Lemma filter_none {A : Type} (f : A -> bool) (l : list A) :
  (forall x, In x l -> f x = true) -> filter (fun x => negb (f x)) l = [].
Proof.
  induction l as [|x l IH]; intros H; [reflexivity|].
  cbn [filter]. rewrite (H x (or_introl eq_refl)). cbn [negb]. apply IH.
  intros y Hy. apply H. right. exact Hy.
Qed.

Lemma served_nil {A : Type} (arrival : list nat) : served arrival (@nil A) = [].
Proof. destruct arrival; reflexivity. Qed.

Lemma served_one {A : Type} (arrival : list nat) (x : A) : served arrival [x] = [x].
Proof.
  destruct arrival as [|i arrival]; [reflexivity|].
  cbn [served List.length]. rewrite Nat.mod_1_r. cbn [nth remove_nth].
  rewrite served_nil. reflexivity.
Qed.

(** The order of arrival only rearranges the spawns that wait. *)
Lemma served_Permutation {A : Type} (arrival : list nat) :
  forall waiting : list A, Permutation (served arrival waiting) waiting.
Proof.
  assert (Hrm : forall (l : list A) k x, k < List.length l ->
            Permutation (nth k l x :: remove_nth k l) l).
  { induction l as [|y l IH]; intros k x Hk; [cbn in Hk; lia|].
    destruct k as [|k]; cbn [nth remove_nth]; [apply Permutation_refl|].
    eapply perm_trans; [apply perm_swap|]. apply perm_skip, IH.
    cbn in Hk. lia. }
  induction arrival as [|i arrival IH]; intros waiting.
  - destruct waiting; apply Permutation_refl.
  - destruct waiting as [|x w]; [apply Permutation_refl|].
    cbn [served].
    set (k := i mod List.length (x :: w)).
    eapply perm_trans; [apply perm_skip, IH|].
    apply Hrm. subst k. apply Nat.mod_upper_bound. discriminate.
Qed.

(* ------------------------------------------------------------------ *)
(** ** Level file names *)

Lemma saveLevel_path_inside_levels (filename : jsstring) :
  Path.directly_inside levels_dir (saveLevel_path filename).
Proof.
  exists (Path.basename filename ++ js ".json"). split; [reflexivity|].
  rewrite in_app_iff. intros [H | H].
  - exact (PathFacts.basename_no_slash filename H).
  - simpl in H. unfold Path.slash in H.
    repeat (destruct H as [H | H]; [discriminate|]). exact H.
Qed.

Lemma loadLevel_path_verbatim (filename : jsstring) :
  loadLevel_path filename = levels_dir ++ filename ++ js ".json".
Proof. reflexivity. Qed.

(** C2: [saveLevel] resolves every name to a file directly inside the
    levels directory, but [loadLevel] uses the name as given: for the name
    "../secret" it looks at "./public/levels/../secret.json", which is not
    an entry of the levels directory, and spawns what that file holds. *)
Theorem loadLevel_does_not_take_basename :
  saveLevel_path (js "../secret") = js "./public/levels/secret.json" /\
  loadLevel_path (js "../secret") = js "./public/levels/../secret.json" /\
  ~ Path.directly_inside levels_dir (loadLevel_path (js "../secret")) /\
  let outside := [{| char := Example.zhong;
                     entry_transform := default_transform Example.env0 Example.dim0 |}] in
  let st := init Example.env0 [(js "./public/levels/../secret.json", outside)] in
  forall arrival,
    level_of (entities (loadLevel Example.env0 (js "../secret") Example.alice true
                                  arrival st))
    = outside.
Proof.
  split; [reflexivity|]. split; [reflexivity|]. split.
  - intros [nm [Heq Hno]].
    change (loadLevel_path (js "../secret"))
      with (levels_dir ++ js "../secret.json") in Heq.
    apply app_inv_head in Heq. subst nm.
    apply Hno. vm_compute. tauto.
  - intros outside st arrival. unfold loadLevel.
    replace (JSMap.get JSString.eqb (loadLevel_path (js "../secret")) (files st))
      with (Some outside) by (vm_compute; reflexivity).
    replace (filter (fun d => negb (JSMap.has JSString.eqb (char d)
                                      (prefabs (entities st)))) outside)
      with outside by (vm_compute; reflexivity).
    unfold outside at 1. rewrite served_one. vm_compute. reflexivity.
Qed.

(* ------------------------------------------------------------------ *)
(** ** The Pinyin composer *)

Section ComposerFacts.

Variable env : Env.
Let db := pinyinDatabase env.

Lemma find_spec (t : jsstring) :
  find db t = true <-> exists s, In s (syllables db) /\ is_prefix t s.
Proof.
  unfold find. rewrite existsb_exists. split.
  - intros [s [Hin Hs]]. exists s. split; [exact Hin | apply startsWith_spec, Hs].
  - intros [s [Hin Hs]]. exists s. split; [exact Hin | apply startsWith_spec, Hs].
Qed.

Lemma truthy_spec (s : jsstring) : truthy s = true <-> s <> [].
Proof. destruct s; simpl; split; congruence. Qed.

(** The buffer that a call of [putc] leaves. *)
Lemma putc_buffer (c : jsstring) (k : Composer) :
  pinyinInfoText (putc env c k) =
  if JSString.eqb c (js "Backspace") then slice_0_m1 (pinyinInfoText k)
  else if JSString.eqb c (js "Clear") then []
  else if JSString.eqb c (js "Enter") then []
  else if find db (pinyinInfoText k ++ c) then pinyinInfoText k ++ c else [].
Proof.
  unfold putc. fold db.
  destruct (JSString.eqb c (js "Backspace")); [reflexivity|].
  destruct (JSString.eqb c (js "Clear")); [reflexivity|].
  destruct (JSString.eqb c (js "Enter")).
  - destruct (truthy (pinyinInfoText k) && _); reflexivity.
  - cbn [with_text pinyinInfoText].
    destruct (find db (pinyinInfoText k ++ c)); reflexivity.
Qed.

(** A rejected key shows the error message. *)
Lemma putc_rejected (c : jsstring) (k : Composer) :
  is_command c = false ->
  find db (pinyinInfoText k ++ c) = false ->
  pinyinInfoText (putc env c k) = [] /\
  pinyinInfoPanel_text (putc env c k) = PINYIN_INFO_ERROR_MESSAGE.
Proof.
  unfold is_command. intros Hc Hf.
  apply orb_false_iff in Hc as [Hc He]. apply orb_false_iff in Hc as [Hb Hc].
  unfold putc. fold db. rewrite Hb, Hc, He.
  cbn [with_text pinyinInfoText]. rewrite Hf. split; reflexivity.
Qed.

(** [putc] never reads what the panel shows. *)
Lemma putc_ignores_panel (c t : jsstring) (k : Composer) :
  putc env c (updatePinyinInfoPanel t k) = putc env c k.
Proof.
  destruct k as [tx pn hl th ty sn].
  unfold putc, updatePinyinInfoPanel. fold db. cbn [pinyinInfoText tone_highlighted tone_coord_y].
  destruct (JSString.eqb c (js "Backspace")); [reflexivity|].
  destruct (JSString.eqb c (js "Clear")); [reflexivity|].
  destruct (JSString.eqb c (js "Enter")).
  - destruct (truthy tx && array_includes (syllables db) tx); [|reflexivity].
    unfold playSound.
    destruct (JSMap.get _ _ _) as [[s0 s1]|]; reflexivity.
  - cbn [with_text pinyinInfoText].
    destruct (find db (tx ++ c)); reflexivity.
Qed.

Lemma putc_valid (c : jsstring) (k : Composer) :
  valid_buffer db (pinyinInfoText k) -> valid_buffer db (pinyinInfoText (putc env c k)).
Proof.
  intros Hv. rewrite putc_buffer.
  destruct (JSString.eqb c (js "Backspace")).
  - destruct Hv as [-> | [s [Hin Hp]]]; [left; reflexivity|].
    right. exists s. split; [exact Hin | apply is_prefix_removelast, Hp].
  - destruct (JSString.eqb c (js "Clear")); [left; reflexivity|].
    destruct (JSString.eqb c (js "Enter")); [left; reflexivity|].
    destruct (find db (pinyinInfoText k ++ c)) eqn:Hf; [|left; reflexivity].
    right. apply find_spec, Hf.
Qed.

Lemma run_putc_valid (cs : list jsstring) (k : Composer) :
  valid_buffer db (pinyinInfoText k) ->
  valid_buffer db (pinyinInfoText (run_putc env cs k)).
Proof.
  revert k. induction cs as [|c cs IH]; intros k Hv; [exact Hv|].
  apply (IH (putc env c k)), putc_valid, Hv.
Qed.

Lemma playSound_sounds key k :
  sounds (playSound env key k) =
  sounds k ++
  match JSMap.get JSString.eqb key (sprite env) with
  | Some (s0, s1) =>
      [{| sound_time := num_div (parseInt s0) (of_Z 1000); stop_after := parseInt s1 |}]
  | None => []
  end.
Proof.
  unfold playSound. destruct (JSMap.get _ _ _) as [[s0 s1]|]; simpl;
    [reflexivity | rewrite app_nil_r; reflexivity].
Qed.

(** The Enter branch of [putc]. *)
Lemma putc_Enter (k : Composer) :
  putc env (js "Enter") k =
  let buffer := pinyinInfoText k in
  let key :=
    replace u_umlaut letter_v buffer
    ++ (if tone_highlighted k then toString_N (tone_coord_y k + 1) else []) in
  if truthy buffer && array_includes (syllables db) buffer
  then updatePinyinInfoPanel PINYIN_INFO_PLACE_HOLDER
         (release_highlight (with_text [] (playSound env key k)))
  else updatePinyinInfoPanel PINYIN_INFO_ERROR_MESSAGE
         (release_highlight (with_text [] k)).
Proof.
  unfold putc. fold db.
  change (JSString.eqb (js "Enter") (js "Backspace")) with false.
  change (JSString.eqb (js "Enter") (js "Clear")) with false.
  change (JSString.eqb (js "Enter") (js "Enter")) with true.
  cbv iota zeta.
  destruct (truthy (pinyinInfoText k) && array_includes (syllables db) (pinyinInfoText k));
    reflexivity.
Qed.

End ComposerFacts.

(** C3: whatever keys are put, one at a time, the buffer is at every
    step empty or a prefix of a syllable; and a key that is appended and
    leaves no syllable with the new buffer as a prefix empties the buffer
    and shows the error message, which the next key is handled without. *)
Theorem putc_keeps_a_syllable_prefix
  (env : Env) (cs : list jsstring) (n : nat) (c : jsstring) :
  let db := pinyinDatabase env in
  let k := run_putc env (firstn n cs) initial_composer in
  valid_buffer db (pinyinInfoText k) /\
  (is_command c = false ->
   ~ (exists s, In s (syllables db) /\ is_prefix (pinyinInfoText k ++ c) s) ->
   pinyinInfoText (putc env c k) = [] /\
   pinyinInfoPanel_text (putc env c k) = PINYIN_INFO_ERROR_MESSAGE /\
   forall c2,
     putc env c2 (putc env c k) =
     putc env c2 (updatePinyinInfoPanel PINYIN_INFO_PLACE_HOLDER (putc env c k))).
Proof.
  intros db k. split.
  - apply run_putc_valid. left; reflexivity.
  - intros Hc Hno.
    assert (Hf : find db (pinyinInfoText k ++ c) = false).
    { destruct (find db (pinyinInfoText k ++ c)) eqn:E; [|reflexivity].
      exfalso. apply Hno. apply find_spec, E. }
    destruct (putc_rejected env c k Hc Hf) as [H1 H2].
    repeat split; [exact H1 | exact H2 |].
    intros c2. symmetry. apply putc_ignores_panel.
Qed.

(** With the buffer "zh", the key "q" is rejected. *)
Lemma putc_keeps_a_syllable_prefix_witness :
  valid_buffer Example.db0 (pinyinInfoText Example.k_zh) /\
  pinyinInfoText (putc Example.env0 (js "q") Example.k_zh) = [] /\
  pinyinInfoPanel_text (putc Example.env0 (js "q") Example.k_zh)
  = PINYIN_INFO_ERROR_MESSAGE.
Proof.
  destruct (putc_keeps_a_syllable_prefix Example.env0 [js "zh"] 1 (js "q"))
    as [Hv Hr].
  split; [exact Hv|].
  destruct Hr as (H1 & H2 & _).
  - reflexivity.
  - intros [s [Hin [r Hr]]]. simpl in Hin.
    repeat (destruct Hin as [<- | Hin]; [discriminate Hr|]). exact Hin.
  - split; [exact H1 | exact H2].
Defined.

(** C4, as the claim has it, fails: the buffer "a" is a syllable of the
    database, yet Enter starts no sound, the sprite having no segment
    under "a". *)
Lemma enter_exact_match_without_playback :
  pinyinInfoText Example.k_a = js "a" /\
  In (pinyinInfoText Example.k_a) (syllables Example.db0) /\
  sounds (putc Example.env0 (js "Enter") Example.k_a) = sounds Example.k_a.
Proof.
  split; [reflexivity|]. split; [left; reflexivity | reflexivity].
Qed.

Ltac enter_cases Hone :=
  repeat match goal with
         | H : _ /\ _ |- _ => destruct H
         | H : exists s, ?l = ?l ++ [s] |- _ =>
             destruct H as [? H]; destruct (Hone _ _ H)
         end;
  solve [ tauto | discriminate | eexists; reflexivity
        | left; reflexivity | right; eexists; reflexivity ].

(** C4, amended: Enter takes its success branch (no error is shown)
    exactly when the buffer is not empty and equals a syllable of the
    database; a sound starts exactly when, besides, the sprite has a
    segment under the buffer with its u-umlaut written v and the tone
    digit appended; and the buffer is empty after every Enter. *)
Theorem enter_commits_iff_exact_match (env : Env) (k : Composer) :
  let db := pinyinDatabase env in
  let buffer := pinyinInfoText k in
  let key :=
    replace u_umlaut letter_v buffer
    ++ (if tone_highlighted k then toString_N (tone_coord_y k + 1) else []) in
  let k' := putc env (js "Enter") k in
  pinyinInfoText k' = [] /\
  (pinyinInfoPanel_text k' = PINYIN_INFO_PLACE_HOLDER
   <-> buffer <> [] /\ In buffer (syllables db)) /\
  (pinyinInfoPanel_text k' = PINYIN_INFO_ERROR_MESSAGE
   <-> ~ (buffer <> [] /\ In buffer (syllables db))) /\
  ((exists s, sounds k' = sounds k ++ [s])
   <-> buffer <> [] /\ In buffer (syllables db)
       /\ JSMap.has JSString.eqb key (sprite env) = true) /\
  (sounds k' = sounds k \/ exists s, sounds k' = sounds k ++ [s]).
Proof.
  intros db buffer key k'.
  assert (Hcond : truthy buffer && array_includes (syllables db) buffer = true
                  <-> buffer <> [] /\ In buffer (syllables db)).
  { rewrite andb_true_iff, truthy_spec, array_includes_spec. tauto. }
  assert (Hone : forall (l : list Sound) s, l <> l ++ [s]).
  { intros l s Hs. apply (f_equal (@List.length _)) in Hs.
    rewrite length_app in Hs. simpl in Hs. lia. }
  subst k'. rewrite putc_Enter. cbv zeta. fold buffer. fold db. fold key.
  destruct (truthy buffer && array_includes (syllables db) buffer) eqn:E.
  - assert (HE : buffer <> [] /\ In buffer (syllables db)) by (apply Hcond; reflexivity).
    cbn [updatePinyinInfoPanel release_highlight with_text pinyinInfoText
         pinyinInfoPanel_text sounds].
    rewrite playSound_sounds. unfold JSMap.has.
    destruct (JSMap.get JSString.eqb key (sprite env)) as [[s0 s1]|];
      [|rewrite app_nil_r]; repeat split; intros; enter_cases Hone.
  - assert (HE : ~ (buffer <> [] /\ In buffer (syllables db))).
    { intros H. apply Hcond in H. discriminate. }
    cbn [updatePinyinInfoPanel release_highlight with_text pinyinInfoText
         pinyinInfoPanel_text sounds].
    repeat split; intros; enter_cases Hone.
Qed.

(* ------------------------------------------------------------------ *)
(** ** Scenes and pages *)

Lemma switchScene_known (s : string) (st : State) :
  existsb (String.eqb s) (map fst scenes) = true ->
  currentScene (switchScene s st) = s /\
  pager (switchScene s st) = pager st /\
  entities (switchScene s st) = entities st /\
  composer (switchScene s st) = composer st /\
  files (switchScene s st) = files st /\
  prompts (switchScene s st) = prompts st.
Proof.
  intros Hs. unfold switchScene.
  destruct (String.eqb_spec (currentScene st) s) as [<-|Hne].
  - repeat split; reflexivity.
  - rewrite Hs, andb_false_r.
    destruct (disable_others s (enabled st)) as [en tv].
    repeat split; reflexivity.
Qed.

Lemma home_onClick_owner (env : Env) (u : User) (st : State) :
  checkUserName u (OWNER_NAME env) = true ->
  currentScene (home_onClick env u st) = "main_menu"%string /\
  pager (home_onClick env u st) = pager st.
Proof.
  intros Hu. unfold home_onClick. rewrite Hu.
  destruct (switchScene_known "main_menu" st eq_refl) as (H1 & H2 & _).
  split; assumption.
Qed.

Lemma getCharacters_scene (d : Dataset) (st : State) :
  currentScene st = scene_of d -> getCharacters st = working_list d (pager st).
Proof. unfold getCharacters. intros ->. destruct d; reflexivity. Qed.

Lemma setPageNum_in_range (p n : Z) :
  (1 <= p <= totalPages n)%Z -> setPageNum p n = p.
Proof. unfold setPageNum. lia. Qed.

(** Entering dataset [d] from the main menu: the page of the grid is
    stored for the other dataset, and the page remembered for [d], if
    any, is taken, clamped to the pages [d] has. *)
Lemma mainMenu_enter (d : Dataset) (st : State) :
  currentScene st = "main_menu"%string ->
  let st' := mainMenu_onClick (row_of d) st in
  currentScene st' = scene_of d /\
  working_list Radicals (pager st') = working_list Radicals (pager st) /\
  working_list Characters (pager st') = working_list Characters (pager st) /\
  remembered (other d) (pager st') = Some (curPageNum (pager st)) /\
  remembered d (pager st') = remembered d (pager st) /\
  curPageNum (pager st') =
    match remembered d (pager st) with
    | Some p => setPageNum p (Z.of_nat (List.length (working_list d (pager st))))
    | None => curPageNum (pager st)
    end.
Proof.
  intros Hm. unfold mainMenu_onClick. rewrite Hm. cbn [String.eqb Ascii.eqb Bool.eqb negb].
  destruct d; cbn [row_of scene_of other remembered working_list].
  - destruct (switchScene_known "radical_menu" st eq_refl) as (H1 & H2 & _).
    set (s1 := switchScene "radical_menu" st) in *.
    unfold updateCommonHanziMenu, total, getCharacters.
    cbn [with_pager pager currentScene with_hanziPageNum radicalPageNum
         with_curPageNum with_cells curPageNum radicals characters hanziPageNum].
    rewrite H2, H1. rewrite String.eqb_refl.
    destruct (radicalPageNum (pager st)) as [p|] eqn:E;
      cbn [with_assets with_pager pager currentScene with_hanziPageNum radicalPageNum
           with_curPageNum with_cells curPageNum radicals characters hanziPageNum];
      rewrite ?H1, ?E; repeat split; reflexivity.
  - destruct (switchScene_known "common_hanzi_menu" st eq_refl) as (H1 & H2 & _).
    set (s1 := switchScene "common_hanzi_menu" st) in *.
    unfold updateCommonHanziMenu, total, getCharacters.
    cbn [with_pager pager currentScene with_radicalPageNum radicalPageNum
         with_curPageNum with_cells curPageNum radicals characters hanziPageNum].
    rewrite H2, H1.
    change (("common_hanzi_menu" =? "radical_menu")%string) with false. cbv iota.
    destruct (hanziPageNum (pager st)) as [p|] eqn:E;
      cbn [with_assets with_pager pager currentScene with_radicalPageNum radicalPageNum
           with_curPageNum with_cells curPageNum radicals characters hanziPageNum];
      rewrite ?H1, ?E; repeat split; reflexivity.
Qed.

Lemma other_involutive (d : Dataset) : other (other d) = d.
Proof. destruct d; reflexivity. Qed.

Lemma scene_of_radical (d : Dataset) :
  String.eqb (scene_of d) "radical_menu" = match d with Radicals => true | Characters => false end.
Proof. destruct d; reflexivity. Qed.

Lemma scene_of_common (d : Dataset) :
  String.eqb (scene_of d) "common_hanzi_menu" = match d with Radicals => false | Characters => true end.
Proof. destruct d; reflexivity. Qed.

(** What a submitted search does in the scene of dataset [d]. *)
Lemma onSearchSubmitted_in_scene (env : Env) (d : Dataset) (query : jsstring) (st : State) :
  currentScene st = scene_of d ->
  let db := pinyinDatabase env in
  let st' := onSearchSubmitted env query st in
  working_list d (pager st') =
    match query with
    | [] => source_list d db
    | _ :: _ => filter (fun c => includes (pinyin (dictionary db c)) query) (source_list d db)
    end /\
  curPageNum (pager st') = 1%Z /\
  currentScene st' = scene_of d /\
  working_list (other d) (pager st') = working_list (other d) (pager st) /\
  radicalPageNum (pager st') = radicalPageNum (pager st) /\
  hanziPageNum (pager st') = hanziPageNum (pager st).
Proof.
  intros Hs. unfold onSearchSubmitted, searchHanzi, updateCommonHanziMenu.
  rewrite Hs, scene_of_common.
  destruct d, query; cbn; rewrite ?Hs; repeat split; reflexivity.
Qed.

(** The page operations of a dataset scene leave the scene, the other
    dataset's working list and both remembered pages alone. *)
Lemma page_op_frame (env : Env) (d : Dataset) (op : PageOp) (st : State) :
  currentScene st = scene_of d ->
  let st' := page_op env op st in
  currentScene st' = scene_of d /\
  working_list (other d) (pager st') = working_list (other d) (pager st) /\
  radicalPageNum (pager st') = radicalPageNum (pager st) /\
  hanziPageNum (pager st') = hanziPageNum (pager st).
Proof.
  intros Hs. destruct op as [p| | |q]; cbn [page_op].
  - unfold gotoPage, updateCommonHanziMenu. destruct d; cbn; rewrite ?Hs; repeat split; reflexivity.
  - unfold prevPage, updateCommonHanziMenu. destruct d; cbn; rewrite ?Hs; repeat split; reflexivity.
  - unfold nextPage, updateCommonHanziMenu. destruct d; cbn; rewrite ?Hs; repeat split; reflexivity.
  - destruct (onSearchSubmitted_in_scene env d q st Hs) as (_ & _ & H1 & H2 & H3 & H4).
    repeat split; assumption.
Qed.

Lemma run_page_ops_frame (env : Env) (d : Dataset) (ops : list PageOp) (st : State) :
  currentScene st = scene_of d ->
  let st' := run_page_ops env ops st in
  currentScene st' = scene_of d /\
  working_list (other d) (pager st') = working_list (other d) (pager st) /\
  radicalPageNum (pager st') = radicalPageNum (pager st) /\
  hanziPageNum (pager st') = hanziPageNum (pager st).
Proof.
  revert st. induction ops as [|op ops IH]; intros st Hs; cbv zeta.
  - repeat split; [exact Hs | reflexivity ..].
  - destruct (page_op_frame env d op st Hs) as (H1 & H2 & H3 & H4).
    destruct (IH (page_op env op st) H1) as (K1 & K2 & K3 & K4).
    change (run_page_ops env (op :: ops) st)
      with (run_page_ops env ops (page_op env op st)).
    repeat split; [exact K1 | congruence ..].
Qed.

Lemma remembered_frame (d : Dataset) (p q : Pager) :
  radicalPageNum p = radicalPageNum q ->
  hanziPageNum p = hanziPageNum q ->
  remembered d p = remembered d q.
Proof. destruct d; cbn; congruence. Qed.

(** C6, amended: from dataset A on page p, the owner goes home, opens the
    other dataset B once, pages and searches there at will, goes home
    and opens A again: A is back on page p.  While B is on show the page
    remembered for A stays p whatever is done to B's page and list; it
    is opening a dataset from the main menu that writes the page
    remembered for the other one. *)
Theorem page_restored_after_other_dataset
  (env : Env) (u : User) (A : Dataset) (ops : list PageOp) (p : Z) (st : State) :
  checkUserName u (OWNER_NAME env) = true ->
  currentScene st = scene_of A ->
  curPageNum (pager st) = p ->
  (1 <= p <= totalPages (total st))%Z ->
  let B := other A in
  let at_B := mainMenu_onClick (row_of B) (home_onClick env u st) in
  let left_B := run_page_ops env ops at_B in
  let back := mainMenu_onClick (row_of A) (home_onClick env u left_B) in
  currentScene at_B = scene_of B /\
  currentScene left_B = scene_of B /\
  remembered A (pager left_B) = Some p /\
  currentScene back = scene_of A /\
  curPageNum (pager back) = p /\
  remembered B (pager back) = Some (curPageNum (pager left_B)).
Proof.
  intros Hu Hs Hp Hr B at_B left_B back.
  destruct (home_onClick_owner env u st Hu) as [Hm1 Hp1].
  destruct (mainMenu_enter B (home_onClick env u st) Hm1)
    as (E1 & E2 & E3 & E4 & _ & _).
  fold at_B in E1, E2, E3, E4. rewrite Hp1 in E2, E3, E4.
  unfold B in E4 at 1. rewrite other_involutive, Hp in E4.
  destruct (run_page_ops_frame env B ops at_B E1) as (F1 & F2 & F3 & F4).
  fold left_B in F1, F2, F3, F4.
  unfold B in F2 at 1 2. rewrite other_involutive in F2.
  assert (Hrem : remembered A (pager left_B) = Some p).
  { rewrite (remembered_frame A _ _ F3 F4). exact E4. }
  assert (Hlist : working_list A (pager left_B) = working_list A (pager st)).
  { rewrite F2. destruct A; [exact E2 | exact E3]. }
  destruct (home_onClick_owner env u left_B Hu) as [Hm2 Hp2].
  destruct (mainMenu_enter A (home_onClick env u left_B) Hm2)
    as (G1 & _ & _ & G4 & _ & G6).
  fold back in G1, G4, G6. rewrite Hp2 in G4, G6.
  rewrite Hrem, Hlist in G6.
  unfold total in Hr. rewrite (getCharacters_scene A st Hs) in Hr.
  rewrite setPageNum_in_range in G6 by exact Hr.
  repeat split; assumption.
Qed.

(** The owner is on page 3 of the characters, opens the radicals, goes to
    the next page, searches and goes to a page there, and comes back. *)
Lemma page_restored_after_other_dataset_witness :
  let ops := [OpNext; OpSearch (js "m"); OpGoto 2] in
  curPageNum
    (pager
       (mainMenu_onClick 3
          (home_onClick Example.env1 Example.alice
             (run_page_ops Example.env1 ops
                (mainMenu_onClick 2
                   (home_onClick Example.env1 Example.alice Example.st_page3))))))
  = 3%Z.
Proof.
  intros ops.
  destruct (@page_restored_after_other_dataset Example.env1 Example.alice
              Characters ops 3 Example.st_page3)
    as (_ & _ & _ & _ & H & _).
  - reflexivity.
  - reflexivity.
  - reflexivity.
  - vm_compute. split; discriminate.
  - exact H.
Defined.

(** C6, as the claim has it, fails: the two remembered pages are not
    independent.  The owner is on page 3 of the characters, goes home,
    opens the radicals and goes to page 2 there; she goes home and opens
    the radicals once more, which stores page 2 as the page remembered
    for the characters; back in the characters she is on page 2, not on
    page 3.  No search was made. *)
Lemma page_lost_when_other_dataset_is_reopened :
  let home := home_onClick Example.env1 Example.alice in
  let at_B := gotoPage 2 (mainMenu_onClick (row_of Radicals) (home Example.st_page3)) in
  let again_B := mainMenu_onClick (row_of Radicals) (home at_B) in
  let back := mainMenu_onClick (row_of Characters) (home again_B) in
  currentScene Example.st_page3 = scene_of Characters /\
  curPageNum (pager Example.st_page3) = 3%Z /\
  totalPages (total Example.st_page3) = 4%Z /\
  currentScene at_B = scene_of Radicals /\
  remembered Characters (pager at_B) = Some 3%Z /\
  currentScene again_B = scene_of Radicals /\
  remembered Characters (pager again_B) = Some 2%Z /\
  currentScene back = scene_of Characters /\
  working_list Characters (pager back) = working_list Characters (pager Example.st_page3) /\
  curPageNum (pager back) = 2%Z.
Proof. vm_compute. repeat split. Qed.

(** C7: a submitted search, in the scene of dataset [d], makes [d]'s
    working list the whole source list for the empty query, and for any
    other query the source entries whose pinyin reading has the query as a
    substring (code units compared as they are, at any offset); the page
    goes to 1; the other dataset's working list and both remembered pages
    stay as they were. *)
Theorem search_replaces_active_working_list
  (env : Env) (d : Dataset) (query : jsstring) (st : State) :
  currentScene st = scene_of d ->
  let db := pinyinDatabase env in
  let kept := filter (fun c => includes (pinyin (dictionary db c)) query) (source_list d db) in
  let st' := onSearchSubmitted env query st in
  getCharacters st' = working_list d (pager st') /\
  working_list d (pager st') =
    match query with [] => source_list d db | _ :: _ => kept end /\
  (forall c, In c kept <->
             In c (source_list d db) /\ is_substring query (pinyin (dictionary db c))) /\
  curPageNum (pager st') = 1%Z /\
  working_list (other d) (pager st') = working_list (other d) (pager st) /\
  remembered (other d) (pager st') = remembered (other d) (pager st) /\
  remembered d (pager st') = remembered d (pager st).
Proof.
  intros Hs db kept st'.
  destruct (onSearchSubmitted_in_scene env d query st Hs) as (H1 & H2 & H3 & H4 & H5 & H6).
  fold st' in H1, H2, H3, H4, H5, H6. fold db in H1.
  split; [apply getCharacters_scene, H3|].
  split; [exact H1|].
  split.
  { intros c. unfold kept. rewrite filter_In, includes_spec. tauto. }
  split; [exact H2|].
  split; [exact H4|].
  split; apply remembered_frame; assumption.
Qed.

(** Searching "en" among the characters keeps the two read "wen" and "ren". *)
Lemma search_replaces_active_working_list_witness :
  getCharacters (onSearchSubmitted Example.env0 (js "en") Example.st_common)
  = [Example.wen; Example.ren] /\
  curPageNum (pager (onSearchSubmitted Example.env0 (js "en") Example.st_common)) = 1%Z.
Proof.
  destruct (@search_replaces_active_working_list Example.env0 Characters (js "en")
              Example.st_common eq_refl)
    as (H1 & H2 & _ & H3 & _).
  split; [|exact H3].
  rewrite H1, H2. reflexivity.
Defined.

(* ------------------------------------------------------------------ *)
(** ** Numeric prompts *)

Lemma goto_guard_never_rejects (input : jsstring) :
  strict_neq (parseInt input) NaN = true.
Proof. apply strict_neq_NaN_r. Qed.

Lemma scale_guard_never_rejects (input : jsstring) :
  strict_neq (num_mul (parseInt input) HANZI_MODEL_SCALE) NaN = true.
Proof. apply strict_neq_NaN_r. Qed.

(** C8: the input "abc" is not a number, yet with an entity selected the
    scale prompt writes [NaN] into the three axes of its box (and shows
    it), and the goto prompt goes on to call [setPageNum] with [NaN]: the
    tests [int !== NaN] and [p !== NaN] hold for every value. *)
Theorem non_numeric_scale_input_is_written :
  parseInt (js "abc") = NaN /\
  box_scale Example.st_selected 0 =
    Some (vec HANZI_MODEL_SCALE HANZI_MODEL_SCALE HANZI_MODEL_SCALE) /\
  (exists st',
     onScaleSubmitted (js "abc") Example.st_selected = Some st' /\
     box_scale st' 0 = Some (vec NaN NaN NaN) /\
     numberInput_text (entities st') = Some NaN) /\
  strict_neq (parseInt (js "abc")) NaN = true /\
  onGotoSubmitted (js "abc") Example.st_selected = None.
Proof.
  split; [vm_compute; reflexivity|]. split; [vm_compute; reflexivity|]. split.
  - destruct (onScaleSubmitted (js "abc") Example.st_selected) as [st'|] eqn:E;
      [|vm_compute in E; discriminate E].
    exists st'. split; [reflexivity|].
    assert (E' : Some st' = onScaleSubmitted (js "abc") Example.st_selected)
      by (symmetry; exact E).
    clear E. split.
    + change (box_scale st' 0) with
        (match Some st' with Some s => box_scale s 0 | None => None end).
      rewrite E'. vm_compute. reflexivity.
    + change (numberInput_text (entities st')) with
        (match Some st' with Some s => numberInput_text (entities s) | None => None end).
      rewrite E'. vm_compute. reflexivity.
  - split; vm_compute; reflexivity.
Qed.

(* ------------------------------------------------------------------ *)
(** ** Actor objects and [destroy] *)

Lemma with_objects_id (e : Entities) : with_objects (objects e) e = e.
Proof. destruct e; reflexivity. Qed.

Lemma with_spawnedHanzi_id (e : Entities) : with_spawnedHanzi (spawnedHanzi e) e = e.
Proof. destruct e; reflexivity. Qed.

Lemma filter_idem {A : Type} (p : A -> bool) (l : list A) :
  filter p (filter p l) = filter p l.
Proof.
  induction l as [|x l IH]; simpl; [reflexivity|].
  destruct (p x) eqn:E; simpl; rewrite ?E, IH; reflexivity.
Qed.

Lemma update_object_idem a (f : ActorObj -> ActorObj) objs :
  (forall o, f (f o) = f o) ->
  update_object a f (update_object a f objs) = update_object a f objs.
Proof.
  intros Hf. unfold update_object. rewrite map_map. apply map_ext.
  intros [k o]. cbn. destruct (Nat.eqb k a) eqn:E; cbn; rewrite ?E, ?Hf; reflexivity.
Qed.

Lemma update_object_keys a (f : ActorObj -> ActorObj) objs :
  JSMap.keys (update_object a f objs) = JSMap.keys objs.
Proof.
  unfold update_object, JSMap.keys. rewrite map_map. apply map_ext.
  intros [k o]. cbn. destruct (Nat.eqb k a); reflexivity.
Qed.

Lemma get_update_object a b (f : ActorObj -> ActorObj) objs :
  JSMap.get Nat.eqb b (update_object a f objs) =
  option_map (fun o => if Nat.eqb b a then f o else o) (JSMap.get Nat.eqb b objs).
Proof.
  induction objs as [|[k o] objs IH]; cbn; [reflexivity|].
  destruct (Nat.eqb k a) eqn:Eka; cbn; destruct (Nat.eqb_spec b k) as [->|Hbk]; cbn.
  - rewrite Eka. reflexivity.
  - exact IH.
  - rewrite Eka. reflexivity.
  - exact IH.
Qed.

Lemma drop_subscription_idem sub o :
  drop_subscription sub (drop_subscription sub o) = drop_subscription sub o.
Proof.
  destruct o. unfold drop_subscription. cbn. rewrite filter_idem. reflexivity.
Qed.

Lemma drop_subscription_gone sub o : ~ In sub (subscriptions (drop_subscription sub o)).
Proof.
  destruct o. cbn. rewrite filter_In. intros [_ H].
  rewrite String.eqb_refl in H. discriminate.
Qed.

Lemma destroy_fields (x : actor) (e : Entities) :
  highlightedActor (destroy x e) = highlightedActor e /\
  highlightBoxes (destroy x e) = highlightBoxes e /\
  spawnedHanzi (destroy x e) = spawnedHanzi e /\
  prefabs (destroy x e) = prefabs e /\
  dimensions (destroy x e) = dimensions e /\
  numberInput_text (destroy x e) = numberInput_text e /\
  objects (destroy x e) = objects e /\
  next_actor (destroy x e) = next_actor e.
Proof. unfold destroy. destruct (is_live e x); repeat split; reflexivity. Qed.

Lemma destroy_not_live (x : actor) (e : Entities) : is_live (destroy x e) x = false.
Proof.
  unfold destroy. destruct (is_live e x) eqn:L; [|exact L].
  unfold is_live. cbn. clear L.
  induction (actors e) as [|b l IH]; cbn; [reflexivity|].
  destruct (Nat.eqb_spec b x) as [->|Hne]; cbn; [exact IH|].
  destruct (is_child (objects e) x b); cbn; [exact IH|].
  destruct (Nat.eqb_spec x b) as [->|_]; [congruence | exact IH].
Qed.

Lemma destroy_stays_dead (x y : actor) (e : Entities) :
  is_live e y = false -> is_live (destroy x e) y = false.
Proof.
  unfold destroy. destruct (is_live e x); [|tauto].
  unfold is_live. cbn.
  induction (actors e) as [|b l IH]; cbn; [reflexivity|].
  intros H. apply orb_false_iff in H as [Hb Hl].
  destruct (negb (Nat.eqb b x) && negb (is_child (objects e) x b)); cbn;
    [rewrite Hb|]; auto.
Qed.

Lemma destroy_dead (x : actor) (e : Entities) : is_live e x = false -> destroy x e = e.
Proof. unfold destroy. intros ->. reflexivity. Qed.

(** What [deleteItem] does to the entity of a recorded model. *)
Lemma deleteItem_effect (a box : actor) (e : Entities) :
  JSMap.get Nat.eqb a (highlightBoxes e) = Some box ->
  exists e1,
    deleteItem a e = Some e1 /\
    highlightedActor e1 = highlightedActor e /\
    highlightBoxes e1 = highlightBoxes e /\
    spawnedHanzi e1 = JSMap.delete Nat.eqb box (spawnedHanzi e) /\
    prefabs e1 = prefabs e /\
    dimensions e1 = dimensions e /\
    objects e1 = update_object box (drop_subscription "transform") (objects e) /\
    next_actor e1 = next_actor e /\
    is_live e1 a = false /\
    is_live e1 box = false.
Proof.
  intros Hget. unfold deleteItem. rewrite Hget. eexists. split; [reflexivity|].
  set (e0 := with_spawnedHanzi _ (unsubscribe "transform" box e)).
  destruct (destroy_fields a e0) as (A1 & A2 & A3 & A4 & A5 & _ & A7 & A8).
  destruct (destroy_fields box (destroy a e0)) as (B1 & B2 & B3 & B4 & B5 & _ & B7 & B8).
  rewrite B1, B2, B3, B4, B5, B7, B8, A1, A2, A3, A4, A5, A7, A8.
  repeat split; try reflexivity.
  - apply destroy_stays_dead, destroy_not_live.
  - apply destroy_not_live.
Qed.

Lemma deleteItem_again (a box : actor) (e : Entities) :
  JSMap.get Nat.eqb a (highlightBoxes e) = Some box ->
  update_object box (drop_subscription "transform") (objects e) = objects e ->
  JSMap.delete Nat.eqb box (spawnedHanzi e) = spawnedHanzi e ->
  is_live e a = false ->
  is_live e box = false ->
  deleteItem a e = Some e.
Proof.
  intros Hget Hobj Hsh La Lb. unfold deleteItem. rewrite Hget.
  unfold unsubscribe.
  rewrite Hobj, with_objects_id, Hsh, with_spawnedHanzi_id.
  rewrite (destroy_dead a e La), (destroy_dead box e Lb). reflexivity.
Qed.

(** For an actor that was never the model of an entity [deleteItem]
    raises; the handlers never pass it one (the selected actor and the
    keys of [highlightBoxes] are models of entities). *)
Lemma deleteItem_unknown_actor (a : actor) (e : Entities) :
  JSMap.get Nat.eqb a (highlightBoxes e) = None -> deleteItem a e = None.
Proof. intros H. unfold deleteItem. rewrite H. reflexivity. Qed.

(** C9: deleting a spawned entity takes its box out of [spawnedHanzi],
    ends the box's subscription to transform updates and destroys the
    visual model and the box; deleting it once more succeeds and changes
    nothing. *)
Theorem deleteItem_is_idempotent (a box : actor) (e : Entities) :
  JSMap.get Nat.eqb a (highlightBoxes e) = Some box ->
  exists e1,
    deleteItem a e = Some e1 /\
    JSMap.get Nat.eqb box (spawnedHanzi e1) = None /\
    (forall o, object_of e1 box = Some o -> ~ In "transform"%string (subscriptions o)) /\
    is_live e1 a = false /\
    is_live e1 box = false /\
    deleteItem a e1 = Some e1.
Proof.
  intros Hget.
  destruct (deleteItem_effect a e Hget)
    as (e1 & Hd & _ & Hhb & Hsh & _ & _ & Hobj & _ & La & Lb).
  exists e1. split; [exact Hd|].
  split; [rewrite Hsh; apply JSMapFacts.get_delete_same|].
  split.
  { intros o. unfold object_of. rewrite Hobj, get_update_object.
    destruct (JSMap.get Nat.eqb box (objects e)) as [o0|]; cbn; [|discriminate].
    rewrite Nat.eqb_refl. intros [= <-]. apply drop_subscription_gone. }
  split; [exact La|]. split; [exact Lb|].
  apply deleteItem_again with (box := box).
  - rewrite Hhb. exact Hget.
  - rewrite Hobj. apply update_object_idem, drop_subscription_idem.
  - rewrite Hsh. apply JSMapFacts.delete_idem.
  - exact La.
  - exact Lb.
Qed.

(** The entity spawned and selected in the example session. *)
Lemma deleteItem_is_idempotent_witness :
  exists e1,
    deleteItem 1 (entities Example.st_selected) = Some e1 /\
    JSMap.get Nat.eqb 0 (spawnedHanzi e1) = None /\
    is_live e1 1 = false /\
    is_live e1 0 = false /\
    deleteItem 1 e1 = Some e1.
Proof.
  destruct (@deleteItem_is_idempotent 1 0 (entities Example.st_selected) eq_refl)
    as (e1 & H1 & H2 & _ & H3 & H4 & H5).
  exists e1. repeat split; assumption.
Defined.

(* ------------------------------------------------------------------ *)
(** ** Selection, deletion and scale *)

Lemma in_hanzi_scene_with_entities (e : Entities) (st : State) :
  in_hanzi_scene (with_entities e st) = in_hanzi_scene st.
Proof. reflexivity. Qed.

(** Rescaling writes the box of the highlighted actor and shows its x. *)
Lemma rescale_effect (f : number -> number) (a box : actor) (o : ActorObj) (e : Entities) :
  highlightedActor e = Some a ->
  JSMap.get Nat.eqb a (highlightBoxes e) = Some box ->
  object_of e box = Some o ->
  exists e',
    rescale f e = Some e' /\
    object_of e' box = Some (map_scale f o) /\
    numberInput_text e' = Some (num_div (f (vx (local_scale (transform o)))) HANZI_MODEL_SCALE) /\
    highlightedActor e' = Some a /\
    actors e' = actors e.
Proof.
  intros Hh Hb Ho. unfold rescale. rewrite Hh, Hb.
  unfold object_of in *. cbn [with_objects objects].
  rewrite get_update_object, Ho. cbn [option_map]. rewrite Nat.eqb_refl.
  eexists. split; [reflexivity|].
  cbn [updateText objects numberInput_text highlightedActor actors with_objects].
  rewrite get_update_object, Ho. cbn [option_map]. rewrite Nat.eqb_refl.
  destruct o as [nm pa sh tr ma gr su oc]. destruct tr. repeat split; assumption.
Qed.

(** What a submitted scale does: whatever [parseInt] made of the input,
    times [HANZI_MODEL_SCALE], goes into the three axes of the selected
    box, [NaN] too. *)
Lemma onScaleSubmitted_writes (input : jsstring) (a box : actor) (o : ActorObj)
  (st : State) :
  highlightedActor (entities st) = Some a ->
  JSMap.get Nat.eqb a (highlightBoxes (entities st)) = Some box ->
  object_of (entities st) box = Some o ->
  let int := num_mul (parseInt input) HANZI_MODEL_SCALE in
  exists st',
    onScaleSubmitted input st = Some st' /\
    box_scale st' box = Some (vec int int int).
Proof.
  intros Hh Hb Ho int.
  destruct (@rescale_effect (fun _ => int) a box o (entities st) Hh Hb Ho)
    as (e' & Hr & Hobj & _).
  exists (with_entities e' st). unfold onScaleSubmitted. fold int.
  rewrite strict_neq_NaN_r. unfold lift_entities. rewrite Hr.
  split; [reflexivity|].
  unfold box_scale. cbn [entities with_entities]. rewrite Hobj.
  destruct o as [nm pa sh tr ma gr su oc]. reflexivity.
Qed.

(** C10: when the selected entity is deleted with the 'Delete' button,
    [highlightedActor] and the entity's entry in [highlightBoxes] stay as
    they were; so the next 'Delete' calls [deleteItem] with the destroyed
    model again, and the next scale step is written into the destroyed
    box and shown. *)
Theorem delete_leaves_the_selection
  (env : Env) (user : User) (r : Reply) (a box : actor) (o : ActorObj) (st : State) :
  in_hanzi_scene st = true ->
  highlightedActor (entities st) = Some a ->
  JSMap.get Nat.eqb a (highlightBoxes (entities st)) = Some box ->
  object_of (entities st) box = Some o ->
  exists st1,
    commonHanziMenuControlStrip_onClick env 5 user r st = Some st1 /\
    is_live (entities st1) a = false /\
    is_live (entities st1) box = false /\
    highlightedActor (entities st1) = Some a /\
    highlightBoxes (entities st1) = highlightBoxes (entities st) /\
    commonHanziMenuControlStrip_onClick env 5 user r st1
      = lift_entities (deleteItem a) st1 /\
    exists st2,
      numberInput_onIncrease st1 = Some st2 /\
      object_of (entities st2) box
        = Some (map_scale (fun s => num_add s SCALE_STEP)
                          (drop_subscription "transform" o)) /\
      numberInput_text (entities st2)
        = Some (num_div (num_add (vx (local_scale (transform o))) SCALE_STEP)
                        HANZI_MODEL_SCALE).
Proof.
  intros Hsc Hh Hb Ho.
  destruct (deleteItem_effect a (entities st) Hb)
    as (e1 & Hd & Hh1 & Hhb & _ & _ & _ & Hobj & _ & La & Lb).
  exists (with_entities e1 st).
  assert (Hclick : commonHanziMenuControlStrip_onClick env 5 user r st
                   = Some (with_entities e1 st)).
  { unfold commonHanziMenuControlStrip_onClick, deleteButton, lift_entities.
    rewrite Hsc, Hh, Hd. reflexivity. }
  assert (Ho1 : object_of e1 box = Some (drop_subscription "transform" o)).
  { unfold object_of in *. rewrite Hobj, get_update_object, Ho. cbn.
    rewrite Nat.eqb_refl. reflexivity. }
  split; [exact Hclick|].
  cbn [entities with_entities].
  split; [exact La|]. split; [exact Lb|].
  split; [rewrite Hh1; exact Hh|]. split; [exact Hhb|].
  split.
  { unfold commonHanziMenuControlStrip_onClick, deleteButton.
    rewrite in_hanzi_scene_with_entities, Hsc. cbn [entities with_entities negb].
    rewrite Hh1, Hh. reflexivity. }
  destruct (@rescale_effect (fun s => num_add s SCALE_STEP) a box
              (drop_subscription "transform" o) e1)
    as (e2 & Hr & Hobj2 & Htxt & _).
  { rewrite Hh1; exact Hh. }
  { rewrite Hhb; exact Hb. }
  { exact Ho1. }
  exists (with_entities e2 (with_entities e1 st)).
  unfold numberInput_onIncrease, lift_entities.
  rewrite in_hanzi_scene_with_entities, Hsc. cbn [entities with_entities negb].
  rewrite Hh1, Hh, Hr. split; [reflexivity|].
  split; [exact Hobj2|].
  rewrite Htxt. destruct o as [nm pa sh tr ma gr su oc]. reflexivity.
Qed.

(** In the example session the selected entity is deleted; the next scale
    step turns the scale 0.0008 of its destroyed box into 0.000825. *)
Lemma delete_leaves_the_selection_witness :
  exists st1 st2,
    commonHanziMenuControlStrip_onClick Example.env0 5 Example.alice
      Example.no_reply Example.st_selected = Some st1 /\
    is_live (entities st1) 0 = false /\
    highlightedActor (entities st1) = Some 1 /\
    numberInput_onIncrease st1 = Some st2 /\
    let s := Num (S754_finite false 7609281930405190 (-63)) in   (* 0.000825 *)
    box_scale st2 0 = Some (vec s s s).
Proof.
  destruct (JSMap.get Nat.eqb 0 (objects (entities Example.st_selected)))
    as [o|] eqn:Ho; [|vm_compute in Ho; discriminate Ho].
  destruct (@delete_leaves_the_selection Example.env0 Example.alice Example.no_reply
              1 0 o Example.st_selected)
    as (st1 & H1 & _ & H2 & H3 & _ & _ & st2 & H4 & H5 & _).
  - vm_compute. reflexivity.
  - vm_compute. reflexivity.
  - vm_compute. reflexivity.
  - exact Ho.
  - exists st1, st2. repeat split; try assumption.
    unfold box_scale. rewrite H5. cbn [option_map]. f_equal.
    vm_compute in Ho. injection Ho as <-. vm_compute. reflexivity.
Defined.

(* ------------------------------------------------------------------ *)
(** ** Authorization *)

(** C1, as the claim has it, fails: bob is not the owner, yet his click on
    'Delete' deletes the selected entity. *)
Lemma non_owner_delete_is_carried_out :
  checkUserName Example.bob (OWNER_NAME Example.env0) = false /\
  spawnedHanzi (entities Example.st_selected) = [(0, Example.zhong)] /\
  actors (entities Example.st_selected) = [0; 1] /\
  exists st',
    commonHanziMenuControlStrip_onClick Example.env0 5 Example.bob
      Example.no_reply Example.st_selected = Some st' /\
    spawnedHanzi (entities st') = [] /\
    actors (entities st') = [].
Proof.
  split; [vm_compute; reflexivity|]. split; [vm_compute; reflexivity|].
  split; [vm_compute; reflexivity|].
  destruct (commonHanziMenuControlStrip_onClick Example.env0 5 Example.bob
              Example.no_reply Example.st_selected) as [st'|] eqn:E;
    [|vm_compute in E; discriminate E].
  exists st'. split; [reflexivity|].
  vm_compute in E. injection E as <-. split; vm_compute; reflexivity.
Qed.

(** The handlers of the control strip and of the number input never
    look at the owner's name. *)
Lemma control_strip_ignores_owner (env : Env) (o : option jsstring)
  (col : Z) (user : User) (r : Reply) (st : State) :
  commonHanziMenuControlStrip_onClick (with_owner o env) col user r st
  = commonHanziMenuControlStrip_onClick env col user r st.
Proof. reflexivity. Qed.

(** C1, amended: for a user who is not the owner, the home button and a
    click on a spawned entity are ignored: the state, the prompts sent
    included, is what it was. *)
Theorem non_owner_home_and_selection_ignored (env : Env) (user : User) (st : State) :
  checkUserName user (OWNER_NAME env) = false ->
  home_onClick env user st = st /\
  (forall box, click env user box st = st) /\
  (forall box model, box_onClick env user box model st = st).
Proof.
  intros Hu. split; [|split].
  - unfold home_onClick. rewrite Hu. reflexivity.
  - intros box. unfold click, box_onClick. rewrite Hu.
    destruct (is_live (entities st) box); [|reflexivity].
    destruct (object_of (entities st) box) as [o|]; [|reflexivity].
    destruct (onClick o); reflexivity.
  - intros box model. unfold box_onClick. rewrite Hu. reflexivity.
Qed.

(** bob clicks the home button and the spawned box to no effect. *)
Lemma non_owner_home_and_selection_ignored_witness :
  home_onClick Example.env0 Example.bob Example.st_spawned = Example.st_spawned /\
  click Example.env0 Example.bob 0 Example.st_spawned = Example.st_spawned.
Proof.
  destruct (@non_owner_home_and_selection_ignored Example.env0 Example.bob
              Example.st_spawned eq_refl) as (H1 & H2 & _).
  split; [exact H1 | exact (H2 0)].
Defined.

(* ------------------------------------------------------------------ *)
(** ** Levels: save, clear, load *)

Lemma json_number_plain (a : number) : plain a = true -> json_number a = a.
Proof. destruct a as [|[[|]| | |]]; try reflexivity; discriminate. Qed.

(** These are the only numbers that come back as they are. *)
Lemma json_number_fixed (a : number) : json_number a = a -> plain a = true.
Proof. destruct a as [|[[|]| | |]]; try reflexivity; discriminate. Qed.

Lemma json_vector3_plain (v : Vector3) : plain_vector3 v = true -> json_vector3 v = v.
Proof.
  destruct v as [x y z]. unfold plain_vector3, json_vector3, vec. cbn.
  intros H. apply andb_true_iff in H as [H Hz]. apply andb_true_iff in H as [Hx Hy].
  rewrite !json_number_plain by assumption. reflexivity.
Qed.

Lemma json_quaternion_plain (q : Quaternion) :
  plain_quaternion q = true -> json_quaternion q = q.
Proof.
  destruct q as [x y z w]. unfold plain_quaternion, json_quaternion. cbn.
  intros H. apply andb_true_iff in H as [H Hw]. apply andb_true_iff in H as [H Hz].
  apply andb_true_iff in H as [Hx Hy].
  rewrite !json_number_plain by assumption. reflexivity.
Qed.

Lemma json_transform_plain (t : Transform) :
  plain_transform t = true -> json_transform t = t.
Proof.
  destruct t as [ap ar lp lr ls]. unfold plain_transform, json_transform. cbn.
  intros H. apply andb_true_iff in H as [H H5]. apply andb_true_iff in H as [H H4].
  apply andb_true_iff in H as [H H3]. apply andb_true_iff in H as [H1 H2].
  rewrite !json_vector3_plain, !json_quaternion_plain by assumption. reflexivity.
Qed.

(** A level without [NaN] is read back as it was written. *)
Lemma json_level_plain (l : levelData) : plain_level l = true -> json_level l = l.
Proof.
  induction l as [|[c t] l IH]; [reflexivity|].
  intros H. cbn [plain_level forallb entry_transform] in H.
  apply andb_true_iff in H as [Ht Hl].
  unfold json_level in *. cbn [map char entry_transform].
  rewrite IH by exact Hl. rewrite json_transform_plain by exact Ht. reflexivity.
Qed.

(** A level with a [NaN] scale is not: the scale comes back as [null]. *)
Lemma json_level_NaN_scale (c : hanzi) (t : Transform) :
  local_scale t = vec NaN NaN NaN ->
  map (fun d => local_scale (entry_transform d))
      (json_level [{| char := c; entry_transform := t |}])
  = [vec Null Null Null].
Proof. intros H. cbn. rewrite H. reflexivity. Qed.

Lemma loadLevel_path_plain_name (X : jsstring) :
  ~ In Path.slash X -> loadLevel_path X = saveLevel_path X.
Proof.
  intros H. unfold saveLevel_path. rewrite (PathFacts.basename_id X H). reflexivity.
Qed.

(** When the write is made, the file holds the level. *)
Lemma saveLevel_written (X : jsstring) (user : User) (ow : bool) (st : State) :
  (existsSync (saveLevel_path X) st = true -> ow = true) ->
  let saved := saveLevel X user ow true st in
  entities saved = entities st /\
  JSMap.get JSString.eqb (saveLevel_path X) (files saved)
  = Some (json_level (level_of (entities st))).
Proof.
  intros How. unfold saveLevel, writeLevel.
  destruct (existsSync (saveLevel_path X) st) eqn:E.
  - rewrite (How eq_refl). cbn. split; [reflexivity|].
    apply JSMapFacts.get_set_same, JSStringFacts.eqb_spec.
  - cbn. split; [reflexivity|].
    apply JSMapFacts.get_set_same, JSStringFacts.eqb_spec.
Qed.

Lemma well_formed_spec (e : Entities) :
  well_formed e = true ->
  (forall b c, In (b, c) (spawnedHanzi e) ->
     (exists a, In a (JSMap.keys (highlightBoxes e))
                /\ JSMap.get Nat.eqb a (highlightBoxes e) = Some b) /\
     JSMap.has JSString.eqb c (prefabs e) = true /\
     JSMap.has JSString.eqb c (dimensions e) = true /\
     b < next_actor e) /\
  (forall k, In k (JSMap.keys (objects e)) -> k < next_actor e).
Proof.
  unfold well_formed. intros H. apply andb_true_iff in H as [Hs Ho].
  rewrite forallb_forall in Hs, Ho. split.
  - intros b c Hin. specialize (Hs _ Hin). cbn [fst snd] in Hs.
    apply andb_true_iff in Hs as [Hs H4]. apply andb_true_iff in Hs as [Hs H3].
    apply andb_true_iff in Hs as [H1 H2].
    repeat split; try assumption; [|apply Nat.ltb_lt, H4].
    apply existsb_exists in H1 as [a [Ha Hg]]. exists a. split; [exact Ha|].
    destruct (JSMap.get Nat.eqb a (highlightBoxes e)) as [b'|]; [|discriminate].
    apply Nat.eqb_eq in Hg. subst. reflexivity.
  - intros k Hk. apply Nat.ltb_lt, Ho, Hk.
Qed.

Lemma forEach_deleteItem_effect (ks : list actor) :
  forall e : Entities,
  (forall k, In k ks -> exists b, JSMap.get Nat.eqb k (highlightBoxes e) = Some b) ->
  exists e',
    forEach_deleteItem ks e = Some e' /\
    highlightBoxes e' = highlightBoxes e /\
    prefabs e' = prefabs e /\
    dimensions e' = dimensions e /\
    next_actor e' = next_actor e /\
    JSMap.keys (objects e') = JSMap.keys (objects e) /\
    (forall b, In b (JSMap.keys (spawnedHanzi e')) <->
               In b (JSMap.keys (spawnedHanzi e)) /\
               forall k, In k ks -> JSMap.get Nat.eqb k (highlightBoxes e) <> Some b).
Proof.
  induction ks as [|k ks IH]; intros e Hks.
  - exists e. repeat split; try reflexivity; tauto.
  - destruct (Hks k (or_introl eq_refl)) as [b0 Hb0].
    destruct (deleteItem_effect k e Hb0)
      as (e1 & Hd & _ & Hhb & Hsh & Hp & Hdm & Hobj & Hn & _ & _).
    destruct (IH e1) as (e' & Hf & Khb & Kp & Kd & Kn & Kobj & Ksh).
    { intros k' Hk'. rewrite Hhb. apply Hks. right; exact Hk'. }
    exists e'. cbn [forEach_deleteItem]. rewrite Hd.
    split; [exact Hf|].
    split; [congruence|]. split; [congruence|]. split; [congruence|].
    split; [congruence|].
    split; [rewrite Kobj, Hobj; apply update_object_keys|].
    intros b. rewrite Ksh, Hsh, Hhb.
    rewrite (@JSMapFacts.keys_delete_In _ _ Nat.eqb Nat.eqb_spec).
    split.
    + intros [[Hin Hne] Hall]. split; [exact Hin|].
      intros k' [<-|Hk']; [rewrite Hb0; congruence | apply Hall, Hk'].
    + intros [Hin Hall]. split; [split; [exact Hin|] |].
      * intros ->. apply (Hall k (or_introl eq_refl)). exact Hb0.
      * intros k' Hk'. apply Hall. right; exact Hk'.
Qed.

(** [clearLevel] always completes, and leaves no entity recorded. *)
Lemma clearLevel_effect (e : Entities) :
  well_formed e = true ->
  exists e',
    clearLevel e = Some e' /\
    spawnedHanzi e' = [] /\
    prefabs e' = prefabs e /\
    dimensions e' = dimensions e /\
    next_actor e' = next_actor e /\
    JSMap.keys (objects e') = JSMap.keys (objects e).
Proof.
  intros Hwf. destruct (well_formed_spec e Hwf) as [Hsh _].
  destruct (forEach_deleteItem_effect (JSMap.keys (highlightBoxes e)) e)
    as (e' & Hf & _ & Hp & Hd & Hn & Hobj & Hk).
  { intros k Hk. apply (@JSMapFacts.keys_In_get _ _ Nat.eqb Nat.eqb_spec), Hk. }
  exists e'. split; [exact Hf|]. repeat split; try assumption.
  destruct (spawnedHanzi e') as [|[b c] l] eqn:E; [reflexivity|].
  exfalso. destruct (proj1 (Hk b)) as [Hin Hall]; [left; reflexivity|].
  apply in_map_iff in Hin as [[b' c'] [Hb Hin]]. cbn in Hb. subst b'.
  destruct (Hsh b c' Hin) as [[a [Ha Hg]] _].
  exact (Hall a Ha Hg).
Qed.

Lemma update_object_other a (f : ActorObj -> ActorObj) objs :
  ~ In a (JSMap.keys objs) -> update_object a f objs = objs.
Proof.
  unfold update_object, JSMap.keys.
  induction objs as [|[k o] objs IH]; [reflexivity|].
  intros Hn. simpl in Hn. cbn [map fst snd].
  destruct (Nat.eqb_spec k a) as [->|Hne]; [tauto|].
  rewrite IH by tauto. reflexivity.
Qed.

Lemma update_object_app a (f : ActorObj -> ActorObj) objs objs' :
  update_object a f (objs ++ objs') = update_object a f objs ++ update_object a f objs'.
Proof. apply map_app. Qed.

(** Spawning a character whose model is cached, with a transform given:
    two fresh actors, the box recorded last in [spawnedHanzi] with the
    given transform. *)
Lemma spawnItem_cached (env : Env) (c : hanzi) (t : Transform) (ed : bool)
  (e : Entities) (p : prefab) (dim : BoundingBoxDimensions) :
  JSMap.get JSString.eqb c (prefabs e) = Some p ->
  JSMap.get JSString.eqb c (dimensions e) = Some dim ->
  ~ In (next_actor e) (JSMap.keys (objects e)) ->
  let e' := spawnItem env (Some c) (Some t) ed e in
  spawnedHanzi e' = JSMap.set Nat.eqb (next_actor e) c (spawnedHanzi e) /\
  prefabs e' = prefabs e /\
  dimensions e' = dimensions e /\
  next_actor e' = S (S (next_actor e)) /\
  exists ob om,
    objects e' = objects e ++ [(next_actor e, ob); (S (next_actor e), om)] /\
    transform ob = t.
Proof.
  intros Hp Hd Hfresh e'. subst e'.
  unfold spawnItem, loadGltf, JSMap.has. rewrite Hp. cbn [negb]. rewrite Hd, Hp.
  destruct ed; cbn -[update_object JSMap.set Nat.eqb];
    (split; [reflexivity|]); (split; [reflexivity|]); (split; [reflexivity|]);
    (split; [reflexivity|]).
  - rewrite !update_object_app. repeat (rewrite update_object_other by (rewrite ?update_object_keys; exact Hfresh)).
    cbn [update_object map fst snd]. rewrite !Nat.eqb_refl.
    assert (Hne : Nat.eqb (S (next_actor e)) (next_actor e) = false)
      by (apply Nat.eqb_neq; lia).
    rewrite !Hne. rewrite <- app_assoc. cbn [app].
    eexists. eexists. split; reflexivity.
  - rewrite <- app_assoc. cbn [app].
    eexists. eexists. split; reflexivity.
Qed.

(** The level of a state that has one more box, recorded last. *)
Lemma level_of_one_more (e e' : Entities) (b : actor) (c : hanzi) (ob om : ActorObj) :
  spawnedHanzi e' = spawnedHanzi e ++ [(b, c)] ->
  objects e' = objects e ++ [(b, ob); (S b, om)] ->
  (forall k, In k (JSMap.keys (objects e)) -> k < b) ->
  (forall k, In k (JSMap.keys (spawnedHanzi e)) -> k < b) ->
  level_of e' = level_of e ++ [{| char := c; entry_transform := transform ob |}].
Proof.
  intros Hsh Hobj Ho Hs. unfold level_of, object_of. rewrite Hsh, Hobj.
  rewrite flat_map_app. f_equal.
  - assert (Hsub : forall kv, In kv (spawnedHanzi e) -> fst kv < b).
    { intros kv Hin. apply Hs. apply in_map. exact Hin. }
    clear Hsh Hs. revert Hsub.
    induction (spawnedHanzi e) as [|[k c'] l IH]; intros Hsub; [reflexivity|].
    cbn [flat_map fst snd]. rewrite IH by (intros; apply Hsub; right; assumption).
    f_equal.
    specialize (Hsub (k, c') (or_introl eq_refl)). cbn in Hsub.
    destruct (JSMap.get Nat.eqb k (objects e)) as [o|] eqn:E.
    + erewrite JSMapFacts.get_app_old by exact E. reflexivity.
    + rewrite (@JSMapFacts.get_app_new _ _ Nat.eqb Nat.eqb_spec).
      * cbn. destruct (Nat.eqb_spec k b); [lia|].
        destruct (Nat.eqb_spec k (S b)); [lia | reflexivity].
      * apply (@JSMapFacts.get_None_keys _ _ Nat.eqb Nat.eqb_spec), E.
  - cbn [flat_map fst snd app].
    rewrite (@JSMapFacts.get_app_new _ _ Nat.eqb Nat.eqb_spec).
    + cbn. rewrite Nat.eqb_refl. reflexivity.
    + intros Hin. specialize (Ho b Hin). lia.
Qed.

(** Replaying a level whose characters are cached records its entries,
    in order, after those already there. *)
Lemma replay_level (env : Env) (ed : bool) (l : levelData) :
  forall e : Entities,
  fresh e ->
  (forall d, In d l ->
     JSMap.has JSString.eqb (char d) (prefabs e) = true /\
     JSMap.has JSString.eqb (char d) (dimensions e) = true) ->
  level_of (fold_left (spawn_entry env ed) l e) = level_of e ++ l.
Proof.
  induction l as [|[c t] l IH]; intros e [Fo Fs] Hc.
  - cbn. rewrite app_nil_r. reflexivity.
  - cbn [fold_left].
    change (spawn_entry env ed e {| char := c; entry_transform := t |})
      with (spawnItem env (Some c) (Some t) ed e).
    destruct (Hc _ (or_introl eq_refl)) as [Hp Hd]. cbn [char] in Hp, Hd.
    apply JSMapFacts.has_get in Hp as [p Hp]. apply JSMapFacts.has_get in Hd as [dim Hd].
    assert (Hfresh : ~ In (next_actor e) (JSMap.keys (objects e))).
    { intros Hin. specialize (Fo _ Hin). lia. }
    destruct (@spawnItem_cached env c t ed e p dim Hp Hd Hfresh)
      as (Hsh & Hpf & Hdm & Hn & ob & om & Hobj & Ht).
    set (e' := spawnItem env (Some c) (Some t) ed e) in *.
    assert (Hsh' : spawnedHanzi e' = spawnedHanzi e ++ [(next_actor e, c)]).
    { rewrite Hsh. apply JSMapFacts.set_fresh.
      apply (@JSMapFacts.get_None_keys _ _ Nat.eqb Nat.eqb_spec).
      intros Hin. specialize (Fs _ Hin). lia. }
    rewrite IH.
    + rewrite (@level_of_one_more e e' _ _ _ _ Hsh' Hobj Fo Fs), Ht, <- app_assoc.
      reflexivity.
    + split; intros k Hk.
      * rewrite Hobj in Hk. unfold JSMap.keys in Hk. rewrite map_app in Hk.
        apply in_app_iff in Hk as [Hk | Hk]; [specialize (Fo _ Hk); lia|].
        cbn in Hk. lia.
      * rewrite Hsh' in Hk. unfold JSMap.keys in Hk. rewrite map_app in Hk.
        apply in_app_iff in Hk as [Hk | Hk]; [specialize (Fs _ Hk); lia|].
        cbn in Hk. lia.
    + intros d Hin. rewrite Hpf, Hdm. apply Hc. right; exact Hin.
Qed.

(** When every character of the level is cached, no spawn waits: the
    entries are spawned one after the other, in the order of the file. *)
Lemma loadLevel_cached (env : Env) (X : jsstring) (u : User) (ed : bool)
  (arrival : list nat) (st : State) (level : levelData) :
  JSMap.get JSString.eqb (loadLevel_path X) (files st) = Some level ->
  (forall d, In d level ->
             JSMap.has JSString.eqb (char d) (prefabs (entities st)) = true) ->
  loadLevel env X u ed arrival st
  = with_entities (fold_left (spawn_entry env ed) level (entities st)) st.
Proof.
  intros Hf Hc. unfold loadLevel. rewrite Hf.
  rewrite (filter_all _ _ Hc).
  rewrite (filter_none (fun d => JSMap.has JSString.eqb (char d) (prefabs (entities st)))
                       _ Hc).
  rewrite served_nil. reflexivity.
Qed.

(** C5, as the claim has it, fails.  The selected entity is given a scale
    that JSON cannot write: the answer "abc" to the scale prompt makes
    it [NaN], the digit 1 followed by 309 zeros makes it [Infinity].
    No level "lvl1" is on disk, so the save is made; after the clear,
    what is loaded is an entity whose scale is [null] on the three axes,
    not the entity that was saved. *)
Lemma round_trip_loses_a_scale_that_is_not_finite :
  (forall input, In input [js "abc"; Example.huge] ->
     let st := Example.st_scaled input in
     let saved := saveLevel (js "lvl1") Example.alice false true st in
     existsSync (saveLevel_path (js "lvl1")) st = false /\
     existsSync (saveLevel_path (js "lvl1")) saved = true /\
     List.length (level_of (entities st)) = 1 /\
     option_map Example.scales (Example.round_trip st) = Some [vec Null Null Null] /\
     forall loaded, Example.round_trip st = Some loaded ->
                    ~ Permutation loaded (level_of (entities st))) /\
  parseInt (js "abc") = NaN /\
  Example.scales (level_of (entities (Example.st_scaled (js "abc"))))
  = [vec NaN NaN NaN] /\
  parseInt Example.huge = Infinity /\
  Example.scales (level_of (entities (Example.st_scaled Example.huge)))
  = [vec Infinity Infinity Infinity].
Proof.
  split; [|vm_compute; repeat split; reflexivity].
  intros input Hin st saved.
  assert (Hno : forall l1 l2 : levelData,
            Example.scales l1 <> Example.scales l2 ->
            List.length l2 = 1 -> ~ Permutation l1 l2).
  { intros l1 l2 Hne Hlen Hp.
    destruct l2 as [|d2 [|? ?]]; try discriminate Hlen.
    apply Permutation_sym, Permutation_length_1_inv in Hp. subst l1.
    apply Hne. reflexivity. }
  destruct Hin as [<-|[<-|[]]]; subst st saved.
  - split; [vm_compute; reflexivity|]. split; [vm_compute; reflexivity|].
    split; [vm_compute; reflexivity|]. split; [vm_compute; reflexivity|].
    intros loaded Hl. apply Hno; [|vm_compute; reflexivity].
    assert (Hs : option_map Example.scales (Example.round_trip (Example.st_scaled (js "abc")))
                 = Some [vec Null Null Null]) by (vm_compute; reflexivity).
    rewrite Hl in Hs. injection Hs as ->. vm_compute. discriminate.
  - split; [vm_compute; reflexivity|]. split; [vm_compute; reflexivity|].
    split; [vm_compute; reflexivity|]. split; [vm_compute; reflexivity|].
    intros loaded Hl. apply Hno; [|vm_compute; reflexivity].
    assert (Hs : option_map Example.scales (Example.round_trip (Example.st_scaled Example.huge))
                 = Some [vec Null Null Null]) by (vm_compute; reflexivity).
    rewrite Hl in Hs. injection Hs as ->. vm_compute. discriminate.
Qed.

(** When a level "lvl1" is on disk and the user answers no to the
    overwrite question, nothing is written, and what is loaded back is
    the old level. *)
Lemma round_trip_fails_when_overwrite_is_declined :
  let st := Example.st_two_lvl1_on_disk in
  let saved := saveLevel (js "lvl1") Example.alice false true st in
  List.length (level_of (entities st)) = 2 /\
  files saved = files st /\
  option_map
    (fun cleared =>
       level_of
         (entities (loadLevel Example.env0 (js "lvl1") Example.alice true []
                      (with_entities cleared saved))))
    (clearLevel (entities saved))
  = Some [].
Proof.
  split; [vm_compute; reflexivity|]. split; vm_compute; reflexivity.
Qed.

(** C5, amended: for a level name X without a directory part, when
    [saveLevel(X)] makes its write (there is no level X yet or the
    overwrite is confirmed, and the write succeeds) and every number of
    the transforms is one that JSON gives back as it is (neither [NaN],
    nor an infinity, nor the negative zero), then [clearLevel()] leaves
    no entity and [loadLevel(X)] brings back the same (character,
    transform) pairs, in the same order, whatever the order of arrival
    of the models. *)
Theorem save_clear_load_round_trip
  (env : Env) (X : jsstring) (user : User) (ow editor : bool) (arrival : list nat)
  (st : State) :
  ~ In Path.slash X ->
  (existsSync (saveLevel_path X) st = true -> ow = true) ->
  well_formed (entities st) = true ->
  plain_level (level_of (entities st)) = true ->
  let saved := saveLevel X user ow true st in
  exists cleared,
    clearLevel (entities saved) = Some cleared /\
    level_of cleared = [] /\
    let loaded := loadLevel env X user editor arrival (with_entities cleared saved) in
    level_of (entities loaded) = level_of (entities st) /\
    Permutation (level_of (entities loaded)) (level_of (entities st)).
Proof.
  intros HX How Hwf Hplain saved.
  destruct (@saveLevel_written X user ow st How) as [Hent Hfile].
  fold saved in Hent, Hfile.
  rewrite (json_level_plain _ Hplain) in Hfile.
  destruct (well_formed_spec _ Hwf) as [Hsh Hobj].
  destruct (clearLevel_effect _ Hwf) as (cleared & Hc & Hnone & Hp & Hd & Hn & Hk).
  exists cleared. rewrite Hent. split; [exact Hc|].
  assert (Hempty : level_of cleared = []).
  { unfold level_of. rewrite Hnone. reflexivity. }
  split; [exact Hempty|].
  assert (Hcached : forall d, In d (level_of (entities st)) ->
            JSMap.has JSString.eqb (char d) (prefabs cleared) = true /\
            JSMap.has JSString.eqb (char d) (dimensions cleared) = true).
  { intros d Hin. rewrite Hp, Hd.
    unfold level_of in Hin. apply in_flat_map in Hin as [[b c] [Hbc Hin]].
    cbn [fst snd] in Hin.
    destruct (object_of (entities st) b) as [o|]; [|destruct Hin].
    destruct Hin as [<- | []]. cbn [char].
    destruct (Hsh b c Hbc) as (_ & H1 & H2 & _). split; assumption. }
  assert (Heq : level_of (entities (loadLevel env X user editor arrival
                                      (with_entities cleared saved)))
                = level_of (entities st)).
  { rewrite (@loadLevel_cached env X user editor arrival (with_entities cleared saved)
               (level_of (entities st))).
    - cbn [entities with_entities]. rewrite replay_level.
      + rewrite Hempty. reflexivity.
      + split; intros k Hin.
        * rewrite Hk in Hin. rewrite Hn. apply Hobj, Hin.
        * rewrite Hnone in Hin. destruct Hin.
      + exact Hcached.
    - rewrite (loadLevel_path_plain_name X HX). exact Hfile.
    - intros d Hin. cbn [entities with_entities]. apply (Hcached d Hin). }
  cbv zeta. split; [exact Heq | rewrite Heq; apply Permutation_refl].
Qed.

(** Two entities, one of them rescaled, saved as "lvl1" on an empty disk. *)
Lemma save_clear_load_round_trip_witness :
  let st := Example.st_two in
  let saved := saveLevel (js "lvl1") Example.alice false true st in
  List.length (level_of (entities st)) = 2 /\
  exists cleared,
    clearLevel (entities saved) = Some cleared /\
    level_of
      (entities (loadLevel Example.env0 (js "lvl1") Example.alice true []
                   (with_entities cleared saved)))
    = level_of (entities st).
Proof.
  intros st saved. split; [vm_compute; reflexivity|].
  destruct (@save_clear_load_round_trip Example.env0 (js "lvl1") Example.alice
              false true [] Example.st_two)
    as (cleared & Hc & _ & Heq & _).
  - vm_compute. intros H. repeat (destruct H as [H | H]; [discriminate H|]). exact H.
  - intros H. vm_compute in H. discriminate H.
  - vm_compute. reflexivity.
  - vm_compute. reflexivity.
  - exists cleared. split; [exact Hc | exact Heq].
Defined.

(* ------------------------------------------------------------------ *)
(** ** The invariant of the entity manager *)

Lemma invariant_initial : entities_invariant initial_entities.
Proof. repeat split; intros; cbn in *; contradiction. Qed.

(** Only the recorded boxes and models, the caches, the handles of the
    objects and the next handle matter. *)
Lemma invariant_frame (e e' : Entities) :
  spawnedHanzi e' = spawnedHanzi e ->
  highlightBoxes e' = highlightBoxes e ->
  prefabs e' = prefabs e ->
  dimensions e' = dimensions e ->
  JSMap.keys (objects e') = JSMap.keys (objects e) ->
  next_actor e' = next_actor e ->
  entities_invariant e -> entities_invariant e'.
Proof.
  unfold entities_invariant. intros -> -> -> -> -> ->. tauto.
Qed.

Lemma invariant_well_formed (e : Entities) :
  entities_invariant e -> well_formed e = true.
Proof.
  intros (Hs & Ho & _). unfold well_formed. apply andb_true_iff. split.
  - apply forallb_forall. intros [b c] Hin. cbn [fst snd].
    destruct (Hs b c Hin) as ([a Ha] & H2 & H3 & H4).
    rewrite H2, H3, (proj2 (Nat.ltb_lt _ _) H4), !andb_true_r.
    apply existsb_exists. exists a. split.
    + destruct (in_dec Nat.eq_dec a (JSMap.keys (highlightBoxes e))) as [Hin'|Hn];
        [exact Hin'|].
      apply (@JSMapFacts.get_None_keys _ _ Nat.eqb Nat.eqb_spec) in Hn. congruence.
    + rewrite Ha. apply Nat.eqb_refl.
  - apply forallb_forall. intros k Hk. apply Nat.ltb_lt, Ho, Hk.
Qed.

(** A new actor that is recorded nowhere. *)
Lemma invariant_one_more_object (e e' : Entities) :
  spawnedHanzi e' = spawnedHanzi e ->
  highlightBoxes e' = highlightBoxes e ->
  prefabs e' = prefabs e ->
  dimensions e' = dimensions e ->
  JSMap.keys (objects e') = JSMap.keys (objects e) ++ [next_actor e] ->
  next_actor e' = S (next_actor e) ->
  entities_invariant e -> entities_invariant e'.
Proof.
  unfold entities_invariant. intros -> -> -> -> -> -> (Hs & Ho & Hh).
  split; [|split].
  - intros b c Hin. destruct (Hs b c Hin) as (H1 & H2 & H3 & H4).
    repeat split; try assumption. lia.
  - intros k Hk. apply in_app_iff in Hk as [Hk | [<- | []]]; [specialize (Ho k Hk)|]; lia.
  - intros a Ha. specialize (Hh a Ha). lia.
Qed.

(** A box and its model, recorded for a cached character. *)
Lemma invariant_one_more_entity (e e' : Entities) (c : hanzi) :
  JSMap.has JSString.eqb c (prefabs e) = true ->
  JSMap.has JSString.eqb c (dimensions e) = true ->
  spawnedHanzi e' = JSMap.set Nat.eqb (next_actor e) c (spawnedHanzi e) ->
  highlightBoxes e' = JSMap.set Nat.eqb (S (next_actor e)) (next_actor e) (highlightBoxes e) ->
  prefabs e' = prefabs e ->
  dimensions e' = dimensions e ->
  JSMap.keys (objects e') = JSMap.keys (objects e) ++ [next_actor e; S (next_actor e)] ->
  next_actor e' = S (S (next_actor e)) ->
  entities_invariant e -> entities_invariant e'.
Proof.
  unfold entities_invariant. intros Hp Hd -> -> -> -> -> -> (Hs & Ho & Hh).
  split; [|split].
  - intros b c' Hin.
    apply (@JSMapFacts.set_In _ _ Nat.eqb Nat.eqb_spec) in Hin as [Hin | [= -> ->]].
    + destruct (Hs b c' Hin) as ([a Ha] & H2 & H3 & H4).
      repeat split; try assumption; [|lia].
      exists a. rewrite (@JSMapFacts.get_set_other _ _ Nat.eqb Nat.eqb_spec); [exact Ha|].
      intros ->.
      assert (Hin' : In (S (next_actor e)) (JSMap.keys (highlightBoxes e))).
      { destruct (in_dec Nat.eq_dec (S (next_actor e)) (JSMap.keys (highlightBoxes e)))
          as [Hi|Hn]; [exact Hi|].
        apply (@JSMapFacts.get_None_keys _ _ Nat.eqb Nat.eqb_spec) in Hn. congruence. }
      specialize (Hh _ Hin'). lia.
    + repeat split; try assumption; [|lia].
      exists (S (next_actor e)).
      apply (@JSMapFacts.get_set_same _ _ Nat.eqb Nat.eqb_spec).
  - intros k Hk.
    apply in_app_iff in Hk as [Hk | [<- | [<- | []]]]; [specialize (Ho k Hk)| |]; lia.
  - intros a Ha.
    apply (@JSMapFacts.keys_set_In _ _ Nat.eqb Nat.eqb_spec) in Ha as [Ha | ->];
      [specialize (Hh a Ha)|]; lia.
Qed.

(** The caches only grow. *)
Lemma invariant_caches_grow (e e' : Entities) :
  spawnedHanzi e' = spawnedHanzi e ->
  highlightBoxes e' = highlightBoxes e ->
  (forall c, JSMap.has JSString.eqb c (prefabs e) = true ->
             JSMap.has JSString.eqb c (prefabs e') = true) ->
  (forall c, JSMap.has JSString.eqb c (dimensions e) = true ->
             JSMap.has JSString.eqb c (dimensions e') = true) ->
  JSMap.keys (objects e') = JSMap.keys (objects e) ->
  next_actor e' = next_actor e ->
  entities_invariant e -> entities_invariant e'.
Proof.
  unfold entities_invariant. intros -> -> Hp Hd -> -> (Hs & Ho & Hh).
  split; [|split]; [|exact Ho | exact Hh].
  intros b c Hin. destruct (Hs b c Hin) as (H1 & H2 & H3 & H4).
  repeat split; auto.
Qed.

Lemma loadGltf_invariant (env : Env) (c : hanzi) (e : Entities) :
  entities_invariant e ->
  entities_invariant (fst (loadGltf env c e)) /\
  snd (loadGltf env c e) = JSMap.get JSString.eqb c (prefabs (fst (loadGltf env c e))) /\
  next_actor (fst (loadGltf env c e)) = next_actor e.
Proof.
  intros Hinv. unfold loadGltf. cbn [fst snd].
  destruct (negb (JSMap.has JSString.eqb c (prefabs e)));
    [|split; [exact Hinv | split; reflexivity]].
  destruct (remote_model env (charCodeAt0 c)) as [[p dim]|];
    [|split; [exact Hinv | split; reflexivity]].
  split; [|split; reflexivity].
  apply (@invariant_caches_grow e); try reflexivity; try assumption.
  - intros c0. apply JSMapFacts.has_set_mono, JSStringFacts.eqb_spec.
  - intros c0. apply JSMapFacts.has_set_mono, JSStringFacts.eqb_spec.
Qed.

Lemma keys_app {K V : Type} (m m' : list (K * V)) :
  JSMap.keys (m ++ m') = JSMap.keys m ++ JSMap.keys m'.
Proof. apply map_app. Qed.

(** [spawnItem] keeps the invariant, whatever it is given and whether or
    not the model can be loaded. *)
Lemma spawnItem_invariant (env : Env) (c : option hanzi) (t : option Transform)
  (ed : bool) (e : Entities) :
  entities_invariant e -> entities_invariant (spawnItem env c t ed e).
Proof.
  intros Hinv. unfold spawnItem. destruct c as [c|]; [|exact Hinv].
  destruct (loadGltf_invariant env c Hinv) as (Hinv1 & Hpf & Hnext).
  destruct (loadGltf env c e) as [e1 pf]. cbn [fst snd] in Hinv1, Hpf, Hnext.
  destruct (JSMap.get JSString.eqb c (dimensions e1)) as [dim|] eqn:D; [|exact Hinv1].
  assert (Hd : JSMap.has JSString.eqb c (dimensions e1) = true)
    by (unfold JSMap.has; rewrite D; reflexivity).
  destruct pf as [p|].
  - assert (Hp : JSMap.has JSString.eqb c (prefabs e1) = true)
      by (unfold JSMap.has; rewrite <- Hpf; reflexivity).
    destruct ed; cbn -[update_object JSMap.set JSMap.keys];
      apply (@invariant_one_more_entity e1 _ c Hp Hd); try reflexivity; try exact Hinv1;
      cbn -[update_object JSMap.set JSMap.keys];
      rewrite ?update_object_keys, ?keys_app, ?update_object_keys, ?keys_app,
        <- ?app_assoc; reflexivity.
  - destruct ed; cbn -[update_object JSMap.set JSMap.keys];
      apply (@invariant_one_more_object e1); try reflexivity; try exact Hinv1;
      cbn -[update_object JSMap.set JSMap.keys];
      rewrite ?update_object_keys, ?keys_app; reflexivity.
Qed.

Lemma deleteItem_invariant (a : actor) (e e' : Entities) :
  deleteItem a e = Some e' -> entities_invariant e -> entities_invariant e'.
Proof.
  intros Hd (Hs & Ho & Hh).
  destruct (JSMap.get Nat.eqb a (highlightBoxes e)) as [box|] eqn:G;
    [|unfold deleteItem in Hd; rewrite G in Hd; discriminate Hd].
  destruct (deleteItem_effect a e G)
    as (e1 & Hd1 & _ & Hhb & Hsh & Hp & Hdm & Hobj & Hn & _ & _).
  rewrite Hd in Hd1. injection Hd1 as <-.
  unfold entities_invariant. rewrite Hhb, Hsh, Hp, Hdm, Hobj, Hn, update_object_keys.
  split; [|split]; [|exact Ho | exact Hh].
  intros b c Hin. apply Hs. apply JSMapFacts.delete_In in Hin. exact Hin.
Qed.

Lemma forEach_deleteItem_invariant (ks : list actor) :
  forall e e', forEach_deleteItem ks e = Some e' ->
               entities_invariant e -> entities_invariant e'.
Proof.
  induction ks as [|k ks IH]; intros e e' Hf Hinv; cbn in Hf.
  - injection Hf as <-. exact Hinv.
  - destruct (deleteItem k e) as [e1|] eqn:D; [|discriminate Hf].
    apply (IH e1 e' Hf). eapply deleteItem_invariant; eassumption.
Qed.

Lemma rescale_invariant (f : number -> number) (e e' : Entities) :
  rescale f e = Some e' -> entities_invariant e -> entities_invariant e'.
Proof.
  unfold rescale. intros Hr.
  destruct (highlightedActor e) as [a|]; [|discriminate Hr].
  destruct (JSMap.get Nat.eqb a (highlightBoxes e)) as [box|]; [|discriminate Hr].
  destruct (object_of _ box) as [o|]; [|discriminate Hr].
  injection Hr as <-.
  apply invariant_frame; try reflexivity.
  cbn [objects updateText with_objects]. apply update_object_keys.
Qed.

Lemma replay_invariant (env : Env) (ed : bool) (l : levelData) :
  forall e, entities_invariant e ->
  entities_invariant (fold_left (spawn_entry env ed) l e).
Proof.
  induction l as [|d l IH]; intros e Hinv; [exact Hinv|].
  cbn [fold_left]. apply IH, spawnItem_invariant, Hinv.
Qed.

Lemma spawn_arrived_invariant (env : Env) (ed : bool) (e : Entities) (d : LevelEntry) :
  entities_invariant e -> entities_invariant (spawn_arrived env ed e d).
Proof.
  intros Hinv. unfold spawn_arrived.
  destruct (remote_model env (charCodeAt0 (char d))) as [[p dim]|]; [|exact Hinv].
  apply spawnItem_invariant.
  apply (@invariant_caches_grow e); try reflexivity; try assumption.
  - intros c0. apply JSMapFacts.has_set_mono, JSStringFacts.eqb_spec.
  - intros c0. apply JSMapFacts.has_set_mono, JSStringFacts.eqb_spec.
Qed.

Lemma arrivals_invariant (env : Env) (ed : bool) (l : levelData) :
  forall e, entities_invariant e ->
  entities_invariant (fold_left (spawn_arrived env ed) l e).
Proof.
  induction l as [|d l IH]; intros e Hinv; [exact Hinv|].
  cbn [fold_left]. apply IH, spawn_arrived_invariant, Hinv.
Qed.

Lemma switchScene_entities (s : string) (st : State) :
  entities (switchScene s st) = entities st.
Proof.
  unfold switchScene. destruct (String.eqb (currentScene st) s); [reflexivity|].
  destruct (disable_others _ (enabled st)) as [en tv]. reflexivity.
Qed.

Lemma mainMenu_entities (row : Z) (st : State) :
  entities (mainMenu_onClick row st) = entities st.
Proof.
  unfold mainMenu_onClick.
  destruct (negb (String.eqb (currentScene st) "main_menu")); [reflexivity|].
  destruct row as [|p|p]; [apply switchScene_entities | | reflexivity].
  destruct p as [[p|p|]|[p|p|]|];
    try reflexivity; try apply switchScene_entities.
  - destruct (hanziPageNum _); cbn; apply switchScene_entities.
  - destruct (radicalPageNum _); cbn; apply switchScene_entities.
Qed.

Lemma pinyinControl_entities (env : Env) (col : Z) (st : State) :
  entities (pinyinMenuControlStrip_onClick env col st) = entities st.
Proof.
  unfold pinyinMenuControlStrip_onClick.
  destruct (negb (String.eqb (currentScene st) "pinyin_menu")); [reflexivity|].
  destruct col as [|p|p]; [reflexivity | | reflexivity].
  destruct p as [[p|p|]|[p|p|]|]; try reflexivity. apply switchScene_entities.
Qed.

Lemma onSearchSubmitted_entities (env : Env) (q : jsstring) (st : State) :
  entities (onSearchSubmitted env q st) = entities st.
Proof.
  unfold onSearchSubmitted, searchHanzi.
  destruct (String.eqb (currentScene st) "common_hanzi_menu"), q; reflexivity.
Qed.

Lemma saveLevel_entities (X : jsstring) (u : User) (ow ok : bool) (st : State) :
  entities (saveLevel X u ow ok st) = entities st.
Proof.
  unfold saveLevel, writeLevel.
  destruct (existsSync _ st), ow, ok; reflexivity.
Qed.

Lemma loadLevel_invariant (env : Env) (X : jsstring) (u : User) (ed : bool)
  (arrival : list nat) (st : State) :
  entities_invariant (entities st) ->
  entities_invariant (entities (loadLevel env X u ed arrival st)).
Proof.
  intros Hinv. unfold loadLevel.
  destruct (JSMap.get JSString.eqb _ (files st)) as [l|]; [|exact Hinv].
  cbn [entities with_entities]. apply arrivals_invariant, replay_invariant, Hinv.
Qed.

Lemma lift_entities_invariant (f : Entities -> option Entities) (st st' : State) :
  (forall e e', f e = Some e' -> entities_invariant e -> entities_invariant e') ->
  lift_entities f st = Some st' ->
  entities_invariant (entities st) -> entities_invariant (entities st').
Proof.
  intros Hf Hl Hinv. unfold lift_entities in Hl.
  destruct (f (entities st)) as [e'|] eqn:E; [|discriminate Hl].
  injection Hl as <-. cbn [entities with_entities]. eapply Hf; eassumption.
Qed.

Ltac control_strip_case H Hinv r st :=
  solve
    [ injection H as <-; exact Hinv
    | injection H as <-; cbn [entities with_entities];
      apply spawnItem_invariant, Hinv
    | destruct (submitted (dialog r)); injection H as <-;
      [apply loadLevel_invariant|]; exact Hinv
    | destruct (submitted (dialog r)); injection H as <-;
      [rewrite saveLevel_entities|]; exact Hinv
    | unfold deleteButton in H;
      destruct (highlightedActor (entities st)) as [a|];
      [|injection H as <-; exact Hinv];
      eapply lift_entities_invariant; [|exact H | exact Hinv];
      intros e e'; apply deleteItem_invariant
    | destruct (submitted (dialog r)); [|injection H as <-; exact Hinv];
      eapply lift_entities_invariant; [|exact H | exact Hinv];
      intros e e'; unfold clearLevel; apply forEach_deleteItem_invariant
    | destruct (submitted (dialog r)); [|injection H as <-; exact Hinv];
      unfold onGotoSubmitted in H;
      destruct (strict_neq _ NaN); [|injection H as <-; exact Hinv];
      destruct (parseInt_Z _); [|discriminate H];
      injection H as <-; exact Hinv ].

Lemma controlStrip_invariant (env : Env) (col : Z) (u : User) (r : Reply)
  (st st' : State) :
  commonHanziMenuControlStrip_onClick env col u r st = Some st' ->
  entities_invariant (entities st) -> entities_invariant (entities st').
Proof.
  unfold commonHanziMenuControlStrip_onClick. intros H Hinv.
  destruct (negb (in_hanzi_scene st)); [injection H as <-; exact Hinv|].
  destruct col as [|p|p];
    [| |injection H as <-; exact Hinv].
  { destruct (submitted (dialog r)); injection H as <-;
      [rewrite onSearchSubmitted_entities|]; exact Hinv. }
  destruct p as [[[p|p|]|[p|p|]|]|[[p|p|]|[p|p|]|]|];
    try control_strip_case H Hinv r st.
  destruct p as [p|p|]; control_strip_case H Hinv r st.
Qed.

Lemma box_onClick_invariant (env : Env) (u : User) (box model : actor) (st : State) :
  entities_invariant (entities st) ->
  entities_invariant (entities (box_onClick env u box model st)).
Proof.
  intros Hinv. unfold box_onClick.
  destruct (checkUserName u (OWNER_NAME env)); [|exact Hinv].
  destruct (negb (actor_eqb (highlightedActor (entities st)) model)).
  - destruct (highlightedActor (entities st)) as [h|].
    + destruct (JSMap.get Nat.eqb h (highlightBoxes (entities st))) as [hb|];
        [|exact Hinv].
      unfold updateHanziInfoPanel.
      destruct (JSMap.get Nat.eqb box _); cbn [with_assets entities with_entities with_infoPanel];
        (eapply invariant_frame; [..|exact Hinv]); try reflexivity;
        cbn [objects with_highlightedActor with_objects];
        rewrite !update_object_keys; reflexivity.
    + unfold updateHanziInfoPanel.
      destruct (JSMap.get Nat.eqb box _); cbn [with_assets entities with_entities with_infoPanel];
        (eapply invariant_frame; [..|exact Hinv]); try reflexivity;
        cbn [objects with_highlightedActor with_objects];
        rewrite !update_object_keys; reflexivity.
  - cbn [entities with_entities].
    eapply invariant_frame; [..|exact Hinv]; try reflexivity.
    cbn [objects with_highlightedActor with_objects]. apply update_object_keys.
Qed.

(** Every step keeps the invariant. *)
Lemma step_invariant (env : Env) (st st' : State) :
  step env st st' ->
  entities_invariant (entities st) -> entities_invariant (entities st').
Proof.
  intros Hstep Hinv. destruct Hstep.
  - unfold home_onClick. destruct (checkUserName _ _); [|exact Hinv].
    rewrite switchScene_entities. exact Hinv.
  - rewrite mainMenu_entities. exact Hinv.
  - exact Hinv.
  - rewrite pinyinControl_entities. exact Hinv.
  - eapply controlStrip_invariant; eassumption.
  - unfold numberInput_onIncrease in H.
    destruct (negb (in_hanzi_scene st)); [injection H as <-; exact Hinv|].
    destruct (highlightedActor (entities st)); [|injection H as <-; exact Hinv].
    eapply lift_entities_invariant; [|exact H | exact Hinv].
    intros e e'. apply rescale_invariant.
  - unfold numberInput_onDecrease in H.
    destruct (negb (in_hanzi_scene st)); [injection H as <-; exact Hinv|].
    destruct (highlightedActor (entities st)); [|injection H as <-; exact Hinv].
    eapply lift_entities_invariant; [|exact H | exact Hinv].
    intros e e'. apply rescale_invariant.
  - unfold numberInput_onEdit in H.
    destruct (negb (in_hanzi_scene st)); [injection H as <-; exact Hinv|].
    destruct (highlightedActor (entities st)); [|injection H as <-; exact Hinv].
    destruct (submitted d); [|injection H as <-; exact Hinv].
    unfold onScaleSubmitted in H.
    destruct (strict_neq _ NaN); [|injection H as <-; exact Hinv].
    eapply lift_entities_invariant; [|exact H | exact Hinv].
    intros e e'. apply rescale_invariant.
  - unfold click. destruct (is_live _ box); [|exact Hinv].
    destruct (object_of _ box) as [o|]; [|exact Hinv].
    destruct (onClick o); [|exact Hinv].
    apply box_onClick_invariant, Hinv.
  - unfold box_moved. destruct (object_of _ box) as [o|]; [|exact Hinv].
    destruct (_ && _); [|exact Hinv].
    cbn [entities with_entities].
    eapply invariant_frame; [..|exact Hinv]; try reflexivity.
    cbn [objects with_objects]. apply update_object_keys.
Qed.

Lemma init_entities (env : Env) (disk : list (jsstring * levelData)) :
  entities (init env disk) = initial_entities.
Proof. unfold init. rewrite switchScene_entities. reflexivity. Qed.

(** In every state a session can be in, the entities are well formed. *)
Theorem reachable_well_formed
  (env : Env) (disk : list (jsstring * levelData)) (st : State) :
  reachable env disk st -> well_formed (entities st) = true.
Proof.
  intros Hr. apply invariant_well_formed.
  induction Hr as [|st st' _ IH Hstep].
  - rewrite init_entities. apply invariant_initial.
  - apply (step_invariant Hstep IH).
Qed.

(* ------------------------------------------------------------------ *)
(** ** The keyboard grid *)

Lemma slice_nat {A : Type} (a b : nat) (l : list A) :
  slice (Z.of_nat a) (Z.of_nat b) l = firstn (b - a) (skipn a l).
Proof.
  unfold slice.
  assert (Ha : (Z.of_nat a <? 0)%Z = false) by (apply Z.ltb_ge; lia).
  assert (Hb : (Z.of_nat b <? 0)%Z = false) by (apply Z.ltb_ge; lia).
  rewrite Ha, Hb.
  set (len := List.length l).
  replace (Z.to_nat (Z.min (Z.of_nat b) (Z.of_nat len)
                     - Z.min (Z.of_nat a) (Z.of_nat len)))
    with (Nat.min b len - Nat.min a len) by lia.
  replace (Z.to_nat (Z.min (Z.of_nat a) (Z.of_nat len))) with (Nat.min a len) by lia.
  destruct (Nat.le_gt_cases a len) as [Hle|Hgt].
  - rewrite (Nat.min_l a len) by exact Hle.
    destruct (Nat.le_gt_cases b len) as [Hb'|Hb'].
    + rewrite Nat.min_l by exact Hb'. reflexivity.
    + rewrite Nat.min_r by lia.
      rewrite !firstn_all2; [reflexivity | |]; rewrite length_skipn; subst len; lia.
  - rewrite (Nat.min_r a len) by lia.
    rewrite !skipn_all2 by (subst len; lia).
    rewrite !firstn_nil. reflexivity.
Qed.

Lemma firstn_plus {A : Type} (a b : nat) (l : list A) :
  firstn (a + b) l = firstn a l ++ firstn b (skipn a l).
Proof.
  revert l. induction a as [|a IH]; intros [|x l]; cbn;
    rewrite ?firstn_nil; try reflexivity.
  f_equal. apply IH.
Qed.

Lemma concat_rows {A : Type} (w n : nat) (l : list A) :
  List.concat (map (fun i => firstn w (skipn (i * w) l)) (seq 0 n)) = firstn (n * w) l.
Proof.
  induction n as [|n IH]; [reflexivity|].
  rewrite seq_S, map_app, concat_app, IH. cbn [map List.concat Nat.add].
  rewrite app_nil_r, <- firstn_plus. f_equal. lia.
Qed.

Lemma height_bounds (arr : list jsstring) (w : nat) :
  0 < w ->
  List.length arr <= Grid.height arr w * w /\
  Grid.height arr w * w - List.length arr < w /\
  (arr <> [] -> 0 < Grid.height arr w
                /\ (Grid.height arr w - 1) * w < List.length arr) /\
  (arr = [] -> Grid.height arr w = 0).
Proof.
  intros Hw. unfold Grid.height.
  pose proof (Nat.div_mod_eq (List.length arr) w) as Hdm.
  pose proof (Nat.mod_upper_bound (List.length arr) w ltac:(lia)) as Hlt.
  assert (Hlen : arr <> [] -> 0 < List.length arr)
    by (destruct arr; [congruence | cbn; lia]).
  assert (Hnil : arr = [] -> List.length arr = 0) by (intros ->; reflexivity).
  destruct (Nat.eqb_spec (List.length arr mod w) 0) as [E|E];
    repeat split; intros; try specialize (Hlen ltac:(assumption));
    try specialize (Hnil ltac:(assumption)); nia.
Qed.

Lemma breakDown_rows_eq (arr : list jsstring) (w : nat) :
  Grid.breakDown arr w =
  map (fun i => firstn w (skipn (i * w) arr)) (seq 0 (Grid.height arr w - 1))
  ++ [skipn ((Grid.height arr w - 1) * w) arr
      ++ repeat [] (Grid.height arr w * w - List.length arr)].
Proof.
  unfold Grid.breakDown. cbv zeta. f_equal.
  - apply map_ext. intros i. rewrite slice_nat. f_equal. lia.
  - f_equal. f_equal. rewrite slice_nat.
    apply firstn_all2. rewrite length_skipn. lia.
Qed.

Lemma concat_breakDown (arr : list jsstring) (w : nat) :
  0 < w -> List.concat (Grid.breakDown arr w) = Grid.padded arr w.
Proof.
  intros Hw. rewrite breakDown_rows_eq, concat_app, concat_rows.
  cbn [List.concat]. rewrite app_nil_r, app_assoc, firstn_skipn. reflexivity.
Qed.

Lemma breakDown_nil (w : nat) : 0 < w -> Grid.breakDown [] w = [[]].
Proof.
  intros Hw. rewrite breakDown_rows_eq.
  destruct (height_bounds [] Hw) as (_ & _ & _ & H0). rewrite (H0 eq_refl).
  cbn. rewrite ?skipn_nil. reflexivity.
Qed.

Lemma breakDown_shape (arr : list jsstring) (w : nat) :
  0 < w -> arr <> [] ->
  List.length (Grid.breakDown arr w) = Grid.height arr w /\
  Forall (fun r => List.length r = w) (Grid.breakDown arr w).
Proof.
  intros Hw Hne. rewrite breakDown_rows_eq.
  destruct (height_bounds arr Hw) as (Hle & Hpad & Hpos & _).
  destruct (Hpos Hne) as [Hh Hlast]. split.
  - rewrite length_app, length_map, length_seq. cbn. lia.
  - apply Forall_app. split.
    + apply Forall_forall. intros r Hr. apply in_map_iff in Hr.
      destruct Hr as (i & <- & Hi). apply in_seq in Hi.
      rewrite length_firstn, length_skipn. nia.
    + constructor; [|constructor].
      rewrite length_app, length_skipn, repeat_length. nia.
Qed.

Lemma padded_length (arr : list jsstring) (w : nat) :
  0 < w -> List.length (Grid.padded arr w) = Grid.height arr w * w.
Proof.
  intros Hw. unfold Grid.padded. rewrite length_app, repeat_length.
  destruct (height_bounds arr Hw) as (Hle & _). lia.
Qed.

(** X1 (breakDown, height): for a positive width the rows put end to end
    are the keys in their order followed by fewer than [width] empty
    cells; a non-empty list gives [height] rows of [width] cells each,
    the empty list one row without cells. *)
Theorem breakDown_fills_rows (arr : list jsstring) (w : nat) :
  0 < w ->
  let rows := Grid.breakDown arr w in
  List.concat rows = arr ++ repeat [] (Grid.height arr w * w - List.length arr) /\
  Grid.height arr w * w - List.length arr < w /\
  (arr <> [] ->
   List.length rows = Grid.height arr w /\
   Forall (fun r => List.length r = w) rows) /\
  (arr = [] -> rows = [[]]).
Proof.
  intros Hw rows. subst rows. split; [|split; [|split]].
  - apply (concat_breakDown arr Hw).
  - apply (height_bounds arr Hw).
  - intros Hne. apply (breakDown_shape Hw Hne).
  - intros ->. apply (breakDown_nil Hw).
Qed.

Lemma breakDown_fills_rows_witness :
  let arr := [js "b"; js "p"; js "m"; js "f"; js "d"] in
  List.concat (Grid.breakDown arr 3) = arr ++ [[]] /\
  List.length (Grid.breakDown arr 3) = 2.
Proof.
  cbv zeta.
  destruct (@breakDown_fills_rows [js "b"; js "p"; js "m"; js "f"; js "d"] 3 ltac:(lia))
    as (Hc & _ & Hs & _).
  split.
  - exact Hc.
  - exact (proj1 (Hs ltac:(discriminate))).
Defined.

Lemma nth_error_rows {A : Type} (w : nat) (rows : list (list A)) :
  Forall (fun r => List.length r = w) rows ->
  forall r c, c < w ->
  nth_error (List.concat rows) (r * w + c) =
  match nth_error rows r with
  | Some row => nth_error row c
  | None => None
  end.
Proof.
  induction 1 as [|row rows Hrow _ IH]; intros r c Hc.
  - cbn [List.concat]. rewrite !nth_error_nil. reflexivity.
  - destruct r as [|r]; cbn [List.concat nth_error].
    + cbn [Nat.mul Nat.add]. apply nth_error_app1. lia.
    + rewrite nth_error_app2 by (cbn; lia).
      replace (S r * w + c - List.length row) with (r * w + c) by (cbn; lia).
      apply IH, Hc.
Qed.

(** X2 (createPinyinMenu): with no group empty, every row of the keyboard
    has 12 cells, the cell in row [r] and column [c] of [rl] is the entry
    of [dl] at the row-major index [12 r + c], each group starts on a row
    of its own, and [dl] is the three groups in order, each followed by
    the empty cells that fill its last row. *)
Theorem keyboard_layout (initials finals wholes : list jsstring) :
  initials <> [] -> finals <> [] -> wholes <> [] ->
  let rl := Grid.rl initials finals wholes in
  let dl := Grid.dl initials finals wholes in
  let hi := Grid.height initials 12 in
  let hf := Grid.height finals 12 in
  Forall (fun r => List.length r = 12) rl /\
  (forall r c, c < 12 ->
     nth_error dl (r * 12 + c) =
     match nth_error rl r with Some row => nth_error row c | None => None end) /\
  dl = Grid.padded initials 12 ++ Grid.padded finals 12 ++ Grid.padded wholes 12 /\
  (forall i, i < List.length initials -> nth_error dl i = nth_error initials i) /\
  (forall i, i < List.length finals ->
     nth_error dl (hi * 12 + i) = nth_error finals i) /\
  (forall i, i < List.length wholes ->
     nth_error dl ((hi + hf) * 12 + i) = nth_error wholes i).
Proof.
  intros Hi Hf Hw rl dl hi hf.
  assert (H12 : 0 < 12) by lia.
  assert (Hrows : Forall (fun r => List.length r = 12) rl).
  { subst rl. unfold Grid.rl, Grid.PINYIN_MENU_COLS.
    apply Forall_app; split; [|apply Forall_app; split];
      apply (breakDown_shape H12); assumption. }
  assert (Hdl : dl = Grid.padded initials 12 ++ Grid.padded finals 12
                     ++ Grid.padded wholes 12).
  { subst dl. unfold Grid.dl, Grid.rl, Grid.PINYIN_MENU_COLS.
    rewrite !concat_app, !(concat_breakDown _ H12). reflexivity. }
  pose proof (padded_length initials H12) as Li.
  pose proof (padded_length finals H12) as Lf.
  fold hi in Li. fold hf in Lf.
  split; [|split; [|split; [|split; [|split]]]].
  - exact Hrows.
  - intros r c Hc. subst dl. unfold Grid.dl. apply (nth_error_rows Hrows), Hc.
  - exact Hdl.
  - intros i Hlt. rewrite Hdl. unfold Grid.padded at 1.
    rewrite <- !app_assoc. apply nth_error_app1, Hlt.
  - intros i Hlt. rewrite Hdl.
    rewrite nth_error_app2 by lia.
    replace (hi * 12 + i - List.length (Grid.padded initials 12)) with i by lia.
    unfold Grid.padded at 1. rewrite <- !app_assoc. apply nth_error_app1, Hlt.
  - intros i Hlt. rewrite Hdl.
    rewrite nth_error_app2 by lia.
    rewrite nth_error_app2 by lia.
    replace ((hi + hf) * 12 + i - List.length (Grid.padded initials 12)
             - List.length (Grid.padded finals 12)) with i by lia.
    unfold Grid.padded. apply nth_error_app1, Hlt.
Qed.

Lemma keyboard_layout_witness :
  let initials := map (fun n => [N.of_nat n]) (seq 98 13) in
  let finals := [js "a"; js "o"] in
  let wholes := [js "zhi"] in
  nth_error (Grid.dl initials finals wholes) 24 = Some (js "a") /\
  nth_error (Grid.dl initials finals wholes) 36 = Some (js "zhi").
Proof.
  cbv zeta.
  destruct (@keyboard_layout (map (fun n => [N.of_nat n]) (seq 98 13))
              [js "a"; js "o"] [js "zhi"]
              ltac:(discriminate) ltac:(discriminate) ltac:(discriminate))
    as (_ & _ & _ & _ & Hf & Hw).
  split.
  - exact (Hf 0 ltac:(cbn; lia)).
  - exact (Hw 0 ltac:(cbn; lia)).
Defined.

(* ------------------------------------------------------------------ *)
(** ** Every step is one of the outcomes *)

Ltac handler_cases H :=
  try unfold onGotoSubmitted, onScaleSubmitted, deleteButton, lift_entities in H;
  repeat match type of H with
         | context [if ?b then _ else _] => destruct b eqn:?
         | context [match ?x with Some _ => _ | None => _ end] => destruct x eqn:?
         end;
  try discriminate H; injection H as <-;
  cbn [entities prompt] in *.

Ltac outcome_case :=
  first
    [ apply out_same
    | eapply out_prompt; eassumption
    | eapply out_search; eassumption
    | eapply out_goto; eassumption
    | eapply out_prev; eassumption
    | eapply out_next; eassumption
    | eapply out_spawn; eassumption
    | eapply out_delete; eassumption
    | eapply out_save; eassumption
    | eapply out_load; eassumption
    | eapply out_clear; eassumption
    | eapply out_rescale; eassumption
    | eapply out_rescale_prompt; eassumption ].

Lemma controlStrip_outcome (env : Env) (col : Z) (u : User) (r : Reply)
  (st st' : State) :
  commonHanziMenuControlStrip_onClick env col u r st = Some st' ->
  outcome env st st'.
Proof.
  unfold commonHanziMenuControlStrip_onClick. intros H.
  destruct (in_hanzi_scene st) eqn:Hs; cbn [negb] in H;
    [|injection H as <-; apply out_same].
  destruct col as [|p|p]; try (handler_cases H; outcome_case).
  do 5 try (destruct p as [p|p|]; try (handler_cases H; outcome_case)).
Qed.

Lemma numberInput_outcome (env : Env) (u : User) (d : Dialog) (st st' : State) :
  numberInput_onIncrease st = Some st'
  \/ numberInput_onDecrease st = Some st'
  \/ numberInput_onEdit u d st = Some st' ->
  outcome env st st'.
Proof.
  unfold numberInput_onIncrease, numberInput_onDecrease, numberInput_onEdit.
  intros [H|[H|H]];
    (destruct (in_hanzi_scene st) eqn:Hs; cbn [negb] in H;
     [|injection H as <-; apply out_same]);
    handler_cases H; outcome_case.
Qed.

Lemma mainMenu_outcome (env : Env) (row : Z) (st : State) :
  outcome env st (mainMenu_onClick row st).
Proof.
  destruct (String.eqb_spec (currentScene st) "main_menu") as [Hm|Hne].
  2: { unfold mainMenu_onClick.
       rewrite (proj2 (String.eqb_neq _ _) Hne). apply out_same. }
  assert (Hcase : forall s, s = "pinyin_menu"%string \/ s = "phonetics_table"%string ->
                            outcome env st (switchScene s st))
    by (intros s Hs'; apply out_leave; assumption).
  assert (Hsame : forall row', mainMenu_onClick row' st = st -> outcome env st (mainMenu_onClick row' st))
    by (intros row' ->; apply out_same).
  pose proof (@out_enter env st Radicals Hm) as Hr.
  pose proof (@out_enter env st Characters Hm) as Hc.
  destruct row as [|p|p];
    try solve [ exact Hr | exact Hc
              | apply Hsame; unfold mainMenu_onClick; rewrite Hm; reflexivity
              | unfold mainMenu_onClick; rewrite Hm; apply Hcase; auto ].
  do 3 try (destruct p as [p|p|];
            try solve [ exact Hr | exact Hc
                      | apply Hsame; unfold mainMenu_onClick; rewrite Hm; reflexivity
                      | unfold mainMenu_onClick; rewrite Hm; apply Hcase; auto ]).
Qed.

Lemma pinyinControl_outcome (env : Env) (col : Z) (st : State) :
  outcome env st (pinyinMenuControlStrip_onClick env col st).
Proof.
  unfold pinyinMenuControlStrip_onClick.
  destruct (String.eqb_spec (currentScene st) "pinyin_menu") as [Hm|Hne];
    cbn [negb]; [|apply out_same].
  destruct col as [|p|p];
    try solve [ apply out_same | apply out_home | apply out_key; exact Hm ].
  do 3 try (destruct p as [p|p|];
            try solve [ apply out_same | apply out_home | apply out_key; exact Hm ]).
Qed.

Lemma step_outcome (env : Env) (st st' : State) :
  step env st st' -> outcome env st st'.
Proof.
  intros Hstep. destruct Hstep.
  - unfold home_onClick. destruct (checkUserName _ _); [apply out_home | apply out_same].
  - apply mainMenu_outcome.
  - apply out_key. assumption.
  - apply pinyinControl_outcome.
  - eapply controlStrip_outcome; eassumption.
  - eapply (numberInput_outcome env {| user_id := 0; user_name := [] |}
              {| submitted := false; text := [] |}). left. eassumption.
  - eapply (numberInput_outcome env {| user_id := 0; user_name := [] |}
              {| submitted := false; text := [] |}). right; left. eassumption.
  - eapply numberInput_outcome. right; right. eassumption.
  - unfold click.
    destruct (is_live _ box) eqn:Hl; [|apply out_same].
    destruct (object_of _ box) as [o|] eqn:Ho; [|apply out_same].
    destruct (onClick o) as [model|] eqn:Hc; [|apply out_same].
    destruct (checkUserName u (OWNER_NAME env)) eqn:Hu.
    + eapply out_select; eassumption.
    + unfold box_onClick. rewrite Hu. apply out_same.
  - unfold box_moved.
    destruct (object_of _ box) as [o|] eqn:Ho; [|apply out_same].
    destruct (is_live _ box) eqn:Hl; [|apply out_same].
    destruct (grabbable o) eqn:Hg; [|apply out_same].
    cbn [andb]. destruct (existsb _ _); [|apply out_same].
    eapply out_moved; eassumption.
Qed.

(* ------------------------------------------------------------------ *)
(** ** Scenes and what is enabled *)

Lemma Widget_eqb_spec (a b : Widget) : reflect (a = b) (Widget_eqb a b).
Proof. destruct a, b; constructor; congruence. Qed.

Lemma switchScene_same (s : string) (st : State) :
  currentScene st = s -> switchScene s st = st.
Proof. intros <-. unfold switchScene. rewrite String.eqb_refl. reflexivity. Qed.

Lemma switchScene_enabled (s : string) (st : State) (w : Widget) :
  In s (map fst scenes) ->
  currentScene st <> s ->
  is_enabled (switchScene s st) w = Some (existsb (Widget_eqb w) (widgets_of s)).
Proof.
  intros Hin Hne. unfold switchScene, is_enabled.
  rewrite (proj2 (String.eqb_neq _ _) Hne).
  assert (Hk : existsb (String.eqb s) (map fst scenes) = true)
    by (apply existsb_exists; exists s; split; [exact Hin | apply String.eqb_refl]).
  rewrite Hk, andb_false_r.
  cbn in Hin.
  destruct Hin as [<-|[<-|[<-|[<-|[<-|[]]]]]]; destruct w; cbn;
    unfold set_enabled;
    repeat first
      [ rewrite (@JSMapFacts.get_set_same _ _ Widget_eqb Widget_eqb_spec)
      | rewrite (@JSMapFacts.get_set_other _ _ Widget_eqb Widget_eqb_spec)
          by discriminate ];
    reflexivity.
Qed.

Lemma switchScene_scene (s : string) (st : State) :
  In s (map fst scenes) -> currentScene (switchScene s st) = s.
Proof.
  intros Hin. apply switchScene_known.
  apply existsb_exists. exists s. split; [exact Hin | apply String.eqb_refl].
Qed.

Lemma mainMenu_enter_is_update (d : Dataset) (st : State) :
  currentScene st = "main_menu"%string ->
  enabled (mainMenu_onClick (row_of d) st) = enabled (switchScene (scene_of d) st) /\
  exists x, mainMenu_onClick (row_of d) st = updateCommonHanziMenu x.
Proof.
  intros Hm. unfold mainMenu_onClick. rewrite Hm.
  destruct d; cbn [row_of scene_of String.eqb Ascii.eqb Bool.eqb negb].
  - split.
    + destruct (radicalPageNum _); reflexivity.
    + eexists. reflexivity.
  - split.
    + destruct (hanziPageNum _); reflexivity.
    + eexists. reflexivity.
Qed.

Lemma onSearchSubmitted_is_update (env : Env) (q : jsstring) (st : State) :
  currentScene (onSearchSubmitted env q st) = currentScene st /\
  enabled (onSearchSubmitted env q st) = enabled st /\
  exists x, onSearchSubmitted env q st = updateCommonHanziMenu x.
Proof.
  unfold onSearchSubmitted. repeat split.
  - unfold searchHanzi.
    destruct (String.eqb (currentScene st) "common_hanzi_menu"), q; reflexivity.
  - unfold searchHanzi.
    destruct (String.eqb (currentScene st) "common_hanzi_menu"), q; reflexivity.
  - eexists. reflexivity.
Qed.

Lemma saveLevel_view (X : jsstring) (u : User) (ow ok : bool) (st : State) :
  currentScene (saveLevel X u ow ok st) = currentScene st /\
  enabled (saveLevel X u ow ok st) = enabled st /\
  pager (saveLevel X u ow ok st) = pager st.
Proof.
  unfold saveLevel, writeLevel. destruct (existsSync _ st), ow, ok; repeat split.
Qed.

Lemma loadLevel_view (env : Env) (X : jsstring) (u : User) (ed : bool)
  (arrival : list nat) (st : State) :
  currentScene (loadLevel env X u ed arrival st) = currentScene st /\
  enabled (loadLevel env X u ed arrival st) = enabled st /\
  pager (loadLevel env X u ed arrival st) = pager st.
Proof. unfold loadLevel. destruct (JSMap.get _ _ _); repeat split. Qed.

Lemma box_onClick_view (env : Env) (u : User) (box model : actor) (st : State) :
  currentScene (box_onClick env u box model st) = currentScene st /\
  enabled (box_onClick env u box model st) = enabled st /\
  pager (box_onClick env u box model st) = pager st.
Proof.
  unfold box_onClick, updateHanziInfoPanel.
  destruct (checkUserName _ _); [|repeat split].
  destruct (negb _); [|repeat split].
  destruct (highlightedActor (entities st)) as [h|].
  - destruct (JSMap.get Nat.eqb h _); [|repeat split].
    destruct (JSMap.get Nat.eqb box _); repeat split.
  - destruct (JSMap.get Nat.eqb box _); repeat split.
Qed.

(** What an event does to the scene, to what is enabled and to the
    pager: it leaves the scene alone, and the pager too unless the grid
    is redrawn; or it goes to the main menu, or from there to the Pinyin
    or the phonetics scene; or it opens a dataset from the main menu. *)
Lemma outcome_view (env : Env) (st st' : State) :
  outcome env st st' ->
  (currentScene st' = currentScene st /\ enabled st' = enabled st /\
   (pager st' = pager st \/ exists x, st' = updateCommonHanziMenu x))
  \/ (exists s, (s = "main_menu" \/
                 currentScene st = "main_menu" /\ (s = "pinyin_menu" \/ s = "phonetics_table"))%string
                /\ st' = switchScene s st)
  \/ (exists d, currentScene st = "main_menu"%string
                /\ st' = mainMenu_onClick (row_of d) st).
Proof.
  intros Ho. destruct Ho;
    try solve [ left; repeat split; left; reflexivity
              | left; repeat split; right; eexists; reflexivity ].
  - right; left. exists "main_menu"%string. auto.
  - right; left. exists s. auto.
  - right; right. exists d. auto.
  - left. destruct (onSearchSubmitted_is_update env q (prompt u t st)) as (V1 & V2 & V3).
    repeat split; [exact V1 | exact V2 | right; exact V3].
  - left. destruct (saveLevel_view X u ow ok (prompt u t st)) as (V1 & V2 & V3).
    repeat split; [exact V1 | exact V2 | left; exact V3].
  - left. destruct (loadLevel_view env X u true ar (prompt u t st)) as (V1 & V2 & V3).
    repeat split; [exact V1 | exact V2 | left; exact V3].
  - left. destruct (box_onClick_view env u box model st) as (V1 & V2 & V3).
    repeat split; [exact V1 | exact V2 | left; exact V3].
Qed.

Lemma init_scene (env : Env) (disk : list (jsstring * levelData)) :
  currentScene (init env disk) = "main_menu"%string /\
  forall w, is_enabled (init env disk) w
            = Some (existsb (Widget_eqb w) (widgets_of "main_menu")).
Proof.
  unfold init. split.
  - apply switchScene_scene. cbn. auto.
  - intros w. apply switchScene_enabled; [cbn; auto | cbn; discriminate].
Qed.

Lemma reachable_scene (env : Env) (disk : list (jsstring * levelData)) (st : State) :
  reachable env disk st ->
  In (currentScene st) (map fst scenes) /\
  forall w, is_enabled st w
            = Some (existsb (Widget_eqb w) (widgets_of (currentScene st))).
Proof.
  assert (Hsw : forall s st,
            In s (map fst scenes) ->
            (In (currentScene st) (map fst scenes) /\
             forall w, is_enabled st w
                       = Some (existsb (Widget_eqb w) (widgets_of (currentScene st)))) ->
            In (currentScene (switchScene s st)) (map fst scenes) /\
            forall w, is_enabled (switchScene s st) w
                      = Some (existsb (Widget_eqb w)
                                      (widgets_of (currentScene (switchScene s st))))).
  { intros s st0 Hin IH.
    destruct (String.eqb_spec (currentScene st0) s) as [He|Hne].
    - rewrite switchScene_same by exact He. exact IH.
    - rewrite switchScene_scene by exact Hin. split; [exact Hin|].
      intros w. apply switchScene_enabled; assumption. }
  induction 1 as [|st st' _ IH Hstep].
  - destruct (init_scene env disk) as [Hs He]. rewrite Hs.
    split; [cbn; auto | exact He].
  - apply step_outcome, outcome_view in Hstep.
    destruct Hstep as [(Hs & He & _)|[(s & Hs & ->)|(d & Hm & ->)]].
    + unfold is_enabled in *. rewrite Hs, He. exact IH.
    + apply Hsw; [|exact IH].
      destruct Hs as [->|[_ [->| ->]]]; cbn; auto.
    + destruct (mainMenu_enter d st Hm) as (Hs & _).
      destruct (mainMenu_enter_is_update d st Hm) as (He & _).
      assert (Hin : In (scene_of d) (map fst scenes)) by (destruct d; cbn; auto 10).
      specialize (Hsw (scene_of d) st Hin IH).
      rewrite switchScene_scene in Hsw by exact Hin.
      unfold is_enabled in *. cbv zeta in Hs. rewrite Hs, He. exact Hsw.
Qed.

(** X3 (switchScene, init and the handlers that call it): in every state
    a session can be in, the current scene is one of the five known
    scenes, and a widget is enabled exactly when it belongs to the
    current scene. *)
Theorem scene_shows_its_widgets_only
  (env : Env) (disk : list (jsstring * levelData)) (st : State) (w : Widget) :
  reachable env disk st ->
  In (currentScene st) (map fst scenes) /\
  is_enabled st w = Some (existsb (Widget_eqb w) (widgets_of (currentScene st))).
Proof.
  intros Hr. destruct (reachable_scene Hr) as [Hs He]. split; [exact Hs | apply He].
Qed.

Lemma reachable_st_common : reachable Example.env0 [] Example.st_common.
Proof.
  unfold Example.st_common.
  eapply reachable_step; [apply reachable_init | apply step_mainMenu].
Qed.

Lemma scene_shows_its_widgets_only_witness :
  currentScene Example.st_common = "common_hanzi_menu"%string /\
  is_enabled Example.st_common commonHanziMenu = Some true /\
  is_enabled Example.st_common mainMenu = Some false.
Proof.
  split; [reflexivity|]. split.
  - exact (proj2 (@scene_shows_its_widgets_only Example.env0 [] Example.st_common
                    commonHanziMenu reachable_st_common)).
  - exact (proj2 (@scene_shows_its_widgets_only Example.env0 [] Example.st_common
                    mainMenu reachable_st_common)).
Defined.

(** X4 (the home button, the main menu, the 'Back' button): an event that
    changes the scene starts from the main menu or ends in it; no scene
    other than the main menu leads to another one directly. *)
Theorem scenes_change_through_main_menu (env : Env) (st st' : State) :
  step env st st' ->
  currentScene st' <> currentScene st ->
  currentScene st = "main_menu"%string \/ currentScene st' = "main_menu"%string.
Proof.
  intros Hstep Hne. apply step_outcome, outcome_view in Hstep.
  destruct Hstep as [(Hs & _)|[(s & Hs & ->)|(d & Hm & _)]].
  - contradiction.
  - destruct Hs as [->|[Hm _]]; [|left; exact Hm].
    right. apply switchScene_scene. cbn. auto.
  - left. exact Hm.
Qed.

Lemma scenes_change_through_main_menu_witness :
  currentScene (init Example.env0 []) = "main_menu"%string
  \/ currentScene Example.st_common = "main_menu"%string.
Proof.
  apply (@scenes_change_through_main_menu Example.env0 (init Example.env0 [])
           Example.st_common).
  - apply step_mainMenu.
  - vm_compute. discriminate.
Defined.

(* ------------------------------------------------------------------ *)
(** ** Pages *)

Lemma slice_length_le {A : Type} (s e : Z) (l : list A) :
  (s <= e)%Z -> List.length (slice s e l) <= Z.to_nat (e - s).
Proof.
  intros Hse. unfold slice. rewrite length_firstn.
  destruct (Z.ltb_spec s 0), (Z.ltb_spec e 0); lia.
Qed.

Lemma slice_past_end {A : Type} (s e : Z) (l : list A) :
  (Z.of_nat (List.length l) <= s)%Z -> slice s e l = [].
Proof.
  intros Hs. unfold slice.
  destruct (Z.ltb_spec s 0); [lia|].
  rewrite skipn_all2 by lia. apply firstn_nil.
Qed.

Lemma page_data_eq (n : nat) (st : State) :
  page_data (Z.of_nat (S n)) st = firstn 64 (skipn (n * 64) (getCharacters st)).
Proof.
  unfold page_data, getCommonHanziPageData.
  change (getCharacters (with_pager (with_curPageNum (Z.of_nat (S n)) (pager st)) st))
    with (getCharacters st).
  cbn [pager with_pager curPageNum with_curPageNum].
  change pageSize with 64%Z.
  replace (64 * (Z.of_nat (S n) - 1))%Z with (Z.of_nat (n * 64)) by lia.
  replace (64 * Z.of_nat (S n))%Z with (Z.of_nat (n * 64 + 64)) by lia.
  rewrite slice_nat. f_equal. lia.
Qed.

(** X5 (getCommonHanziPageData): the pages 1 to [n] put end to end are
    the working list of the scene, once [n] pages are enough to hold it;
    no page has more than 64 characters; a page that starts at or after
    the end of the list is empty, and so is page 0. *)
Theorem pages_partition_the_list (st : State) (n : nat) :
  (total st <= pageSize * Z.of_nat n)%Z ->
  List.concat (map (fun i => page_data (Z.of_nat i) st) (seq 1 n)) = getCharacters st /\
  (forall p, List.length (page_data p st) <= 64) /\
  (forall p, (total st <= pageSize * (p - 1))%Z -> page_data p st = []) /\
  page_data 0 st = [].
Proof.
  unfold total. change pageSize with 64%Z. intros Hn.
  split; [|split; [|split]].
  - rewrite <- seq_shift, map_map.
    rewrite (map_ext _ (fun i => firstn 64 (skipn (i * 64) (getCharacters st))))
      by (intros i; apply page_data_eq).
    rewrite concat_rows. apply firstn_all2. lia.
  - intros p. unfold page_data, getCommonHanziPageData.
    cbn [pager with_pager curPageNum with_curPageNum]. change pageSize with 64%Z.
    etransitivity; [apply slice_length_le; lia|]. lia.
  - intros p Hp. unfold page_data, getCommonHanziPageData.
    cbn [pager with_pager curPageNum with_curPageNum]. change pageSize with 64%Z.
    apply slice_past_end.
    change (getCharacters (with_pager (with_curPageNum p (pager st)) st))
      with (getCharacters st).
    exact Hp.
  - unfold page_data, getCommonHanziPageData, slice.
    cbn [pager with_pager curPageNum with_curPageNum]. change pageSize with 64%Z.
    cbn [Z.mul Z.sub Z.add Z.opp Z.ltb Z.compare Z.pos_sub Pos.mul Pos.add].
    match goal with |- firstn ?k _ = _ => replace k with 0 by lia end.
    reflexivity.
Qed.

Lemma pages_partition_the_list_witness :
  total Example.st_page3 = 200%Z /\
  List.concat (map (fun i => page_data (Z.of_nat i) Example.st_page3) (seq 1 4))
  = getCharacters Example.st_page3.
Proof.
  split; [vm_compute; reflexivity|].
  apply (@pages_partition_the_list Example.st_page3 4).
  vm_compute. discriminate.
Defined.

Lemma updateCommonHanziMenu_shows (x : State) :
  menu_cells (pager (updateCommonHanziMenu x))
  = getCommonHanziPageData (updateCommonHanziMenu x).
Proof. reflexivity. Qed.

Lemma in_hanzi_scene_spec (st : State) :
  in_hanzi_scene st = true <->
  currentScene st = "common_hanzi_menu"%string \/ currentScene st = "radical_menu"%string.
Proof.
  unfold in_hanzi_scene. rewrite orb_true_iff, !String.eqb_eq. tauto.
Qed.

Lemma reachable_page_shown (env : Env) (disk : list (jsstring * levelData)) (st : State) :
  reachable env disk st ->
  in_hanzi_scene st = true ->
  menu_cells (pager st) = getCommonHanziPageData st.
Proof.
  induction 1 as [|st st' _ IH Hstep]; intros Hin.
  - destruct (init_scene env disk) as [Hs _].
    apply in_hanzi_scene_spec in Hin. rewrite Hs in Hin.
    destruct Hin; discriminate.
  - apply step_outcome, outcome_view in Hstep.
    destruct Hstep as [(Hs & _ & [Hp|[x ->]])|[(s & Hs & ->)|(d & Hm & ->)]].
    + unfold getCommonHanziPageData, getCharacters in *.
      unfold in_hanzi_scene in *. rewrite Hs, Hp in *. apply IH, Hin.
    + apply updateCommonHanziMenu_shows.
    + destruct (String.eqb_spec (currentScene st) s) as [He|Hne].
      * rewrite switchScene_same in * by exact He. apply IH, Hin.
      * apply in_hanzi_scene_spec in Hin.
        rewrite switchScene_scene in Hin
          by (destruct Hs as [->|[_ [->| ->]]]; cbn; auto 10).
        destruct Hs as [->|[_ [->| ->]]], Hin; discriminate.
    + destruct (mainMenu_enter_is_update d st Hm) as (_ & x & ->).
      apply updateCommonHanziMenu_shows.
Qed.

(** X6 (updateCommonHanziMenu and its callers): whenever a dataset scene
    is shown, the cells of the grid are the current page of that scene's
    working list; no page operation, search or change of scene leaves a
    stale page on display. *)
Theorem grid_shows_the_current_page
  (env : Env) (disk : list (jsstring * levelData)) (st : State) :
  reachable env disk st ->
  in_hanzi_scene st = true ->
  menu_cells (pager st) = getCommonHanziPageData st /\
  menu_cells (pager st) = page_data (curPageNum (pager st)) st.
Proof.
  intros Hr Hin. split; [exact (reachable_page_shown Hr Hin)|].
  rewrite (reachable_page_shown Hr Hin).
  unfold page_data. destruct st as [sc en k p e h f pr]. destruct p. reflexivity.
Qed.

Lemma grid_shows_the_current_page_witness :
  menu_cells (pager Example.st_common) = [Example.zhong; Example.wen; Example.ren].
Proof.
  rewrite (proj1 (@grid_shows_the_current_page Example.env0 [] Example.st_common
                    reachable_st_common eq_refl)).
  vm_compute. reflexivity.
Defined.

(* ------------------------------------------------------------------ *)
(** ** More on the composer *)

Lemma putc_Backspace (env : Env) (k : Composer) :
  putc env (js "Backspace") k =
  let buffer := removelast (pinyinInfoText k) in
  updatePinyinInfoPanel
    (if truthy buffer then buffer else PINYIN_INFO_PLACE_HOLDER)
    (with_text buffer k).
Proof. reflexivity. Qed.

Lemma firstn_removelast {A : Type} (n : nat) (l : list A) :
  firstn (List.length (removelast l) - n) (removelast l)
  = firstn (List.length l - S n) l.
Proof.
  rewrite removelast_firstn_len, firstn_firstn, length_firstn.
  f_equal. lia.
Qed.

(** X7 (putc, 'Backspace'): each 'Backspace' removes one code unit from
    the end of the buffer, whatever keys put it there, and stops at the
    empty buffer; it never shows the error message, starts no sound, and
    leaves the highlight of the keyboard and the tone as they are. *)
Theorem backspace_removes_code_units (env : Env) (m : nat) (k : Composer) :
  let k' := run_putc env (repeat (js "Backspace") (S m)) k in
  pinyinInfoText k'
  = firstn (List.length (pinyinInfoText k) - S m) (pinyinInfoText k) /\
  pinyinInfoPanel_text k'
  = (if truthy (pinyinInfoText k') then pinyinInfoText k'
     else PINYIN_INFO_PLACE_HOLDER) /\
  sounds k' = sounds k /\
  pinyinMenu_highlighted k' = pinyinMenu_highlighted k /\
  tone_highlighted k' = tone_highlighted k /\
  tone_coord_y k' = tone_coord_y k.
Proof.
  cbv zeta. revert k. induction m as [|m IH]; intros k.
  - cbn [repeat run_putc fold_left]. rewrite putc_Backspace. cbv zeta.
    cbn [pinyinInfoText pinyinInfoPanel_text sounds pinyinMenu_highlighted
         tone_highlighted tone_coord_y updatePinyinInfoPanel with_text].
    rewrite removelast_firstn_len.
    replace (List.length (pinyinInfoText k) - 1) with (pred (List.length (pinyinInfoText k)))
      by lia.
    repeat split; reflexivity.
  - change (run_putc env (repeat (js "Backspace") (S (S m))) k)
      with (run_putc env (repeat (js "Backspace") (S m)) (putc env (js "Backspace") k)).
    destruct (IH (putc env (js "Backspace") k)) as (H1 & H2 & H3 & H4 & H5 & H6).
    rewrite H1, H2, H3, H4, H5, H6. rewrite H1. rewrite putc_Backspace. cbv zeta.
    cbn [pinyinInfoText pinyinInfoPanel_text sounds pinyinMenu_highlighted
         tone_highlighted tone_coord_y updatePinyinInfoPanel with_text].
    rewrite firstn_removelast.
    repeat split; reflexivity.
Qed.

Ltac frame_nil :=
  split; [reflexivity | split; [reflexivity |
    exists []; rewrite app_nil_r; split; [reflexivity | cbn; lia]]].

Lemma putc_frame (env : Env) (c : jsstring) (k : Composer) :
  tone_highlighted (putc env c k) = tone_highlighted k /\
  tone_coord_y (putc env c k) = tone_coord_y k /\
  exists added,
    sounds (putc env c k) = sounds k ++ added /\
    List.length added <= (if JSString.eqb c (js "Enter") then 1 else 0).
Proof.
  destruct (JSString.eqb c (js "Enter")) eqn:E.
  - apply JSStringFacts.eqb_eq in E. subst c. rewrite putc_Enter. cbv zeta.
    destruct (truthy _ && _); [|frame_nil].
    cbn [tone_highlighted tone_coord_y sounds updatePinyinInfoPanel
         release_highlight with_text].
    rewrite playSound_sounds. unfold playSound.
    destruct (JSMap.get _ _ _) as [[s0 s1]|]; [|frame_nil].
    split; [reflexivity | split; [reflexivity |
      eexists; split; [reflexivity | cbn; lia]]].
  - unfold putc. rewrite E.
    destruct (JSString.eqb c (js "Backspace")); [frame_nil|].
    destruct (JSString.eqb c (js "Clear")); [frame_nil|].
    cbn [pinyinInfoText with_text].
    destruct (negb _); frame_nil.
Qed.

(** X8 (putc): no key changes the tone that is selected, and the sounds
    started only grow: a run of keys starts at most one sound for each
    'Enter' in it, and none without. *)
Theorem keys_keep_the_tone_and_sounds (env : Env) (cs : list jsstring) (k : Composer) :
  let k' := run_putc env cs k in
  tone_highlighted k' = tone_highlighted k /\
  tone_coord_y k' = tone_coord_y k /\
  exists added,
    sounds k' = sounds k ++ added /\
    List.length added
    <= List.length (filter (fun c => JSString.eqb c (js "Enter")) cs).
Proof.
  cbv zeta. revert k. induction cs as [|c cs IH]; intros k.
  - frame_nil.
  - change (run_putc env (c :: cs) k) with (run_putc env cs (putc env c k)).
    destruct (IH (putc env c k)) as (H1 & H2 & added & H3 & H4).
    destruct (putc_frame env c k) as (F1 & F2 & added0 & F3 & F4).
    rewrite H1, H2, F1, F2. split; [reflexivity | split; [reflexivity|]].
    exists (added0 ++ added). rewrite H3, F3, app_assoc. split; [reflexivity|].
    rewrite length_app. cbn [filter].
    destruct (JSString.eqb c (js "Enter")); cbn [List.length]; lia.
Qed.

(** X9 (putc, with breakDown's padding): the key of a padding cell is the
    empty string; on a buffer that the database finds it leaves the
    buffer, the highlight, the tone and the sounds as they are, and the
    panel shows the buffer, or the placeholder when it is empty. *)
Theorem padding_key_changes_nothing (env : Env) (k : Composer) :
  find (pinyinDatabase env) (pinyinInfoText k) = true ->
  putc env [] k =
  updatePinyinInfoPanel
    (if truthy (pinyinInfoText k) then pinyinInfoText k else PINYIN_INFO_PLACE_HOLDER)
    k.
Proof.
  intros Hv.
  unfold putc. cbn [JSString.eqb js map list_ascii_of_string].
  cbn [pinyinInfoText with_text]. rewrite app_nil_r, Hv. cbn [negb].
  destruct k. reflexivity.
Qed.

Lemma padding_key_changes_nothing_witness :
  putc Example.env0 [] Example.k_zh = Example.k_zh.
Proof.
  rewrite (@padding_key_changes_nothing Example.env0 Example.k_zh).
  - vm_compute. reflexivity.
  - vm_compute. reflexivity.
Defined.

(* ------------------------------------------------------------------ *)
(** ** What [spawnItem] creates *)

Lemma has_true_get {V : Type} (c : jsstring) (m : list (jsstring * V)) :
  JSMap.has JSString.eqb c m = true <-> exists v, JSMap.get JSString.eqb c m = Some v.
Proof.
  unfold JSMap.has. destruct (JSMap.get JSString.eqb c m) as [v|].
  - split; [intros _; exists v; reflexivity | reflexivity].
  - split; [discriminate | intros [v Hv]; discriminate Hv].
Qed.

Lemma has_false_get {V : Type} (c : jsstring) (m : list (jsstring * V)) :
  JSMap.has JSString.eqb c m = false <-> JSMap.get JSString.eqb c m = None.
Proof.
  unfold JSMap.has. destruct (JSMap.get JSString.eqb c m) as [v|];
    split; congruence.
Qed.

Lemma spawnItem_effect (env : Env) (c : hanzi) (t : option Transform) (ed : bool)
  (e : Entities) (p : prefab) (dim : BoundingBoxDimensions) :
  JSMap.get JSString.eqb c (prefabs e) = Some p ->
  JSMap.get JSString.eqb c (dimensions e) = Some dim ->
  ~ In (next_actor e) (JSMap.keys (objects e)) ->
  let b := next_actor e in
  spawnItem env (Some c) t ed e =
  {| highlightedActor := highlightedActor e;
     highlightBoxes := JSMap.set Nat.eqb (S b) b (highlightBoxes e);
     spawnedHanzi := JSMap.set Nat.eqb b c (spawnedHanzi e);
     prefabs := prefabs e;
     dimensions := dimensions e;
     numberInput_text := numberInput_text e;
     actors := actors e ++ [b; S b];
     objects := objects e ++ [(b, spawned_box env c t ed dim (S b));
                              (S b, spawned_model p ed dim b)];
     next_actor := S (S b) |}.
Proof.
  intros Hp Hd Hfresh b. subst b.
  unfold spawnItem, loadGltf, JSMap.has. rewrite Hp. cbn [negb]. rewrite Hd, Hp.
  assert (Hne : Nat.eqb (S (next_actor e)) (next_actor e) = false)
    by (apply Nat.eqb_neq; lia).
  destruct ed; cbn -[update_object JSMap.set Nat.eqb].
  - rewrite !update_object_app.
    repeat (rewrite update_object_other by (rewrite ?update_object_keys; exact Hfresh)).
    cbn [update_object map fst snd]. rewrite !Nat.eqb_refl, !Hne.
    rewrite <- !app_assoc. cbn [app]. reflexivity.
  - rewrite <- !app_assoc. cbn [app]. reflexivity.
Qed.

(** The cache after [loadGltf], by case: the character was cached, or
    it was fetched, or the fetch failed. *)
Lemma loadGltf_cases (env : Env) (c : hanzi) (e : Entities) :
  (forall c0, JSMap.has JSString.eqb c0 (prefabs e)
              = JSMap.has JSString.eqb c0 (dimensions e)) ->
  let e1 := fst (loadGltf env c e) in
  (forall c0, JSMap.has JSString.eqb c0 (prefabs e1)
              = JSMap.has JSString.eqb c0 (dimensions e1)) /\
  (forall c0, JSMap.has JSString.eqb c0 (prefabs e) = true ->
              JSMap.has JSString.eqb c0 (prefabs e1) = true) /\
  highlightedActor e1 = highlightedActor e /\
  highlightBoxes e1 = highlightBoxes e /\
  spawnedHanzi e1 = spawnedHanzi e /\
  numberInput_text e1 = numberInput_text e /\
  actors e1 = actors e /\
  objects e1 = objects e /\
  next_actor e1 = next_actor e /\
  loadGltf env c e1 = (e1, JSMap.get JSString.eqb c (prefabs e1)) /\
  snd (loadGltf env c e) = JSMap.get JSString.eqb c (prefabs e1) /\
  ((JSMap.has JSString.eqb c (prefabs e) = false /\
    remote_model env (charCodeAt0 c) = None /\ e1 = e /\
    JSMap.get JSString.eqb c (dimensions e1) = None)
   \/ exists p dim,
        JSMap.get JSString.eqb c (prefabs e1) = Some p /\
        JSMap.get JSString.eqb c (dimensions e1) = Some dim /\
        (JSMap.has JSString.eqb c (prefabs e) = true /\ e1 = e
         \/ JSMap.has JSString.eqb c (prefabs e) = false /\
            remote_model env (charCodeAt0 c) = Some (p, dim))).
Proof.
  intros Hc. unfold loadGltf. cbn [fst snd].
  destruct (JSMap.has JSString.eqb c (prefabs e)) eqn:Hh; cbn [negb].
  - rewrite Hh. cbn [negb].
    repeat (split; [solve [reflexivity | exact Hc | auto]|]).
    right. pose proof Hh as Hd. rewrite Hc in Hd.
    apply has_true_get in Hh as [p Hp]. apply has_true_get in Hd as [dim Hd].
    exists p, dim. auto.
  - destruct (remote_model env (charCodeAt0 c)) as [[p dim]|] eqn:Hr.
    + cbn [prefabs dimensions with_caches highlightedActor highlightBoxes spawnedHanzi
           numberInput_text actors objects next_actor].
      assert (Hgp : JSMap.get JSString.eqb c (JSMap.set JSString.eqb c p (prefabs e)) = Some p)
        by apply JSMapFacts.get_set_same, JSStringFacts.eqb_spec.
      assert (Hgd : JSMap.get JSString.eqb c (JSMap.set JSString.eqb c dim (dimensions e))
                    = Some dim)
        by apply JSMapFacts.get_set_same, JSStringFacts.eqb_spec.
      split.
      { intros c0. destruct (JSStringFacts.eqb_spec c0 c) as [->|Hne].
        - unfold JSMap.has. rewrite Hgp, Hgd. reflexivity.
        - unfold JSMap.has.
          rewrite !(@JSMapFacts.get_set_other _ _ JSString.eqb JSStringFacts.eqb_spec)
            by exact Hne.
          apply Hc. }
      split.
      { intros c0. apply JSMapFacts.has_set_mono, JSStringFacts.eqb_spec. }
      repeat (split; [reflexivity|]).
      split.
      { unfold JSMap.has. rewrite Hgp. cbn [negb prefabs with_caches].
        rewrite Hgp. reflexivity. }
      split; [reflexivity|].
      right. exists p, dim. auto.
    + rewrite ?Hh. cbn [negb]. rewrite ?Hr.
      repeat (split; [solve [reflexivity | exact Hc | auto]|]).
      left. repeat split. apply has_false_get. rewrite <- Hc. exact Hh.
Qed.

Lemma spawnItem_cases (env : Env) (c : hanzi) (t : option Transform) (ed : bool)
  (e : Entities) :
  (forall c0, JSMap.has JSString.eqb c0 (prefabs e)
              = JSMap.has JSString.eqb c0 (dimensions e)) ->
  ~ In (next_actor e) (JSMap.keys (objects e)) ->
  let e1 := fst (loadGltf env c e) in
  let b := next_actor e in
  (JSMap.has JSString.eqb c (prefabs e) = false /\
   remote_model env (charCodeAt0 c) = None /\
   spawnItem env (Some c) t ed e = e)
  \/ exists p dim,
       JSMap.get JSString.eqb c (prefabs e1) = Some p /\
       JSMap.get JSString.eqb c (dimensions e1) = Some dim /\
       (JSMap.has JSString.eqb c (prefabs e) = true /\ e1 = e
        \/ JSMap.has JSString.eqb c (prefabs e) = false /\
           remote_model env (charCodeAt0 c) = Some (p, dim)) /\
       spawnItem env (Some c) t ed e =
       {| highlightedActor := highlightedActor e;
          highlightBoxes := JSMap.set Nat.eqb (S b) b (highlightBoxes e);
          spawnedHanzi := JSMap.set Nat.eqb b c (spawnedHanzi e);
          prefabs := prefabs e1;
          dimensions := dimensions e1;
          numberInput_text := numberInput_text e;
          actors := actors e ++ [b; S b];
          objects := objects e ++ [(b, spawned_box env c t ed dim (S b));
                                   (S b, spawned_model p ed dim b)];
          next_actor := S (S b) |}.
Proof.
  intros Hc Hfresh e1 b.
  destruct (loadGltf_cases env c e Hc)
    as (Hc1 & _ & Hhl & Hhb & Hsh & Hni & Hac & Hob & Hnx & Hagain & Hsnd & Hcase).
  fold e1 in Hc1, Hhl, Hhb, Hsh, Hni, Hac, Hob, Hnx, Hagain, Hsnd, Hcase.
  assert (Hsame : spawnItem env (Some c) t ed e = spawnItem env (Some c) t ed e1).
  { unfold spawnItem. rewrite (surjective_pairing (loadGltf env c e)), Hsnd.
    fold e1. rewrite Hagain. reflexivity. }
  destruct Hcase as [(Hh & Hr & He & Hd)|(p & dim & Hp & Hd & Hhow)].
  - left. split; [exact Hh|]. split; [exact Hr|].
    rewrite Hsame. unfold spawnItem. rewrite Hagain, Hd. exact He.
  - right. exists p, dim. split; [exact Hp|]. split; [exact Hd|]. split; [exact Hhow|].
    rewrite Hsame.
    rewrite (@spawnItem_effect env c t ed e1 p dim Hp Hd)
      by (rewrite Hob, Hnx; exact Hfresh).
    subst b. rewrite Hhl, Hhb, Hsh, Hni, Hac, Hob, Hnx. reflexivity.
Qed.

(* ------------------------------------------------------------------ *)
(** ** The selection and its highlight *)

Lemma get_Some_keys {V : Type} (k : nat) (m : list (nat * V)) (v : V) :
  JSMap.get Nat.eqb k m = Some v -> In k (JSMap.keys m).
Proof.
  intros H. destruct (in_dec Nat.eq_dec k (JSMap.keys m)) as [Hin|Hn]; [exact Hin|].
  apply (@JSMapFacts.get_None_keys _ _ Nat.eqb Nat.eqb_spec) in Hn. congruence.
Qed.

Lemma keys_set_mono {V : Type} (k a : nat) (v : V) (m : list (nat * V)) :
  In a (JSMap.keys m) -> In a (JSMap.keys (JSMap.set Nat.eqb k v m)).
Proof.
  intros Hin. apply (@JSMapFacts.keys_In_get _ _ Nat.eqb Nat.eqb_spec) in Hin as [w Hw].
  destruct (Nat.eq_dec a k) as [->|Hne].
  - eapply get_Some_keys. apply (@JSMapFacts.get_set_same _ _ Nat.eqb Nat.eqb_spec).
  - eapply get_Some_keys.
    rewrite (@JSMapFacts.get_set_other _ _ Nat.eqb Nat.eqb_spec) by exact Hne. exact Hw.
Qed.

Lemma update_get (a box : actor) (f : ActorObj -> ActorObj)
  (objs : list (actor * ActorObj)) (o' : ActorObj) :
  JSMap.get Nat.eqb box (update_object a f objs) = Some o' ->
  exists o, JSMap.get Nat.eqb box objs = Some o
            /\ o' = if Nat.eqb box a then f o else o.
Proof.
  rewrite get_update_object. destruct (JSMap.get Nat.eqb box objs) as [o|]; cbn.
  - intros [= <-]. exists o. split; reflexivity.
  - discriminate.
Qed.

Lemma entities_updateHanziInfoPanel (c : option hanzi) (st : State) :
  entities (updateHanziInfoPanel c st) = entities st.
Proof. destruct c; reflexivity. Qed.

Lemma selection_initial : selection_invariant initial_entities.
Proof.
  unfold selection_invariant, object_of. cbn.
  repeat split; try discriminate; try contradiction.
Qed.

(** The invariant looks at the material and the click handler of the
    objects only; a handler that keeps both keeps the invariant. *)
Lemma selection_similar (e e' : Entities) :
  highlightedActor e' = highlightedActor e ->
  highlightBoxes e' = highlightBoxes e ->
  prefabs e' = prefabs e ->
  dimensions e' = dimensions e ->
  next_actor e' = next_actor e ->
  (forall box o', object_of e' box = Some o' ->
     exists o, object_of e box = Some o
               /\ material o' = material o /\ onClick o' = onClick o) ->
  selection_invariant e -> selection_invariant e'.
Proof.
  intros Hh Hhb Hp Hd Hn Hsim (S1 & S2 & S3 & S4 & S5).
  unfold selection_invariant. rewrite Hh, Hhb, Hp, Hd, Hn.
  split; [|split; [|split; [|split]]].
  - intros box o' model Ho' Hk. destruct (Hsim _ _ Ho') as (o & Ho & _ & Hk').
    apply (S1 box o model Ho). congruence.
  - exact S2.
  - exact S3.
  - intros box o' Ho'. destruct (Hsim _ _ Ho') as (o & Ho & Hm & _).
    rewrite Hm. apply (S4 box o Ho).
  - exact S5.
Qed.

Lemma selection_update (a : actor) (f : ActorObj -> ActorObj) (e e' : Entities) :
  highlightedActor e' = highlightedActor e ->
  highlightBoxes e' = highlightBoxes e ->
  prefabs e' = prefabs e ->
  dimensions e' = dimensions e ->
  next_actor e' = next_actor e ->
  objects e' = update_object a f (objects e) ->
  (forall o, material (f o) = material o /\ onClick (f o) = onClick o) ->
  selection_invariant e -> selection_invariant e'.
Proof.
  intros Hh Hhb Hp Hd Hn Ho Hf. apply selection_similar; try assumption.
  intros box o' Ho'. unfold object_of in *. rewrite Ho in Ho'.
  apply update_get in Ho' as (o & Hg & ->). exists o. split; [exact Hg|].
  destruct (Nat.eqb box a); [apply Hf | split; reflexivity].
Qed.

Lemma deleteItem_selection (a : actor) (e e' : Entities) :
  deleteItem a e = Some e' -> selection_invariant e -> selection_invariant e'.
Proof.
  intros Hd.
  destruct (JSMap.get Nat.eqb a (highlightBoxes e)) as [box|] eqn:G;
    [|unfold deleteItem in Hd; rewrite G in Hd; discriminate Hd].
  destruct (deleteItem_effect a e G)
    as (e1 & Hd1 & Hh & Hhb & _ & Hp & Hdm & Hobj & Hn & _ & _).
  rewrite Hd in Hd1. injection Hd1 as <-.
  eapply selection_update; try eassumption.
  intros o. split; reflexivity.
Qed.

Lemma forEach_deleteItem_selection (ks : list actor) :
  forall e e', forEach_deleteItem ks e = Some e' ->
               selection_invariant e -> selection_invariant e'.
Proof.
  induction ks as [|k ks IH]; intros e e' Hf Hsel; cbn in Hf.
  - injection Hf as <-. exact Hsel.
  - destruct (deleteItem k e) as [e1|] eqn:D; [|discriminate Hf].
    apply (IH e1 e' Hf). eapply deleteItem_selection; eassumption.
Qed.

Lemma rescale_selection (f : number -> number) (e e' : Entities) :
  rescale f e = Some e' -> selection_invariant e -> selection_invariant e'.
Proof.
  unfold rescale. intros H.
  destruct (highlightedActor e) as [a|] eqn:Hh; [|discriminate H].
  destruct (JSMap.get Nat.eqb a (highlightBoxes e)) as [box|]; [|discriminate H].
  destruct (object_of _ box); [|discriminate H].
  injection H as <-.
  eapply selection_update with (a := box) (f := map_scale f); try reflexivity.
  intros o. split; reflexivity.
Qed.

Lemma box_onClick_selection (env : Env) (u : User) (box model : actor) (o : ActorObj)
  (st : State) :
  object_of (entities st) box = Some o ->
  onClick o = Some model ->
  selection_invariant (entities st) ->
  selection_invariant (entities (box_onClick env u box model st)).
Proof.
  intros Ho Hc Hsel. pose proof Hsel as (S1 & S2 & S3 & S4 & S5).
  pose proof (S1 _ _ _ Ho Hc) as Hmb.
  unfold box_onClick. destruct (checkUserName _ _); [|exact Hsel].
  unfold object_of in *.
  destruct (actor_eqb (highlightedActor (entities st)) model) eqn:Ha; cbn [negb].
  - (* the selected entity is clicked again *)
    assert (Hhl : highlightedActor (entities st) = Some model).
    { unfold actor_eqb in Ha. destruct (highlightedActor (entities st)); [|discriminate Ha].
      apply Nat.eqb_eq in Ha. congruence. }
    cbn [entities with_entities]. unfold selection_invariant, object_of.
    cbn [highlightedActor highlightBoxes prefabs dimensions next_actor objects
         with_highlightedActor with_objects].
    split; [|split; [|split; [|split]]].
    + intros b o' m Ho' Hk. apply update_get in Ho' as (o0 & Ho0 & ->).
      apply (S1 b o0 m Ho0). destruct (Nat.eqb b box); exact Hk.
    + discriminate.
    + exact S3.
    + intros b o' Ho'. apply update_get in Ho' as (o0 & Ho0 & ->).
      split; [|intros (a & Hn & _); discriminate Hn].
      intros Hm. exfalso.
      destruct (Nat.eqb_spec b box) as [->|Hnb]; [discriminate Hm|].
      apply (S4 b o0 Ho0) in Hm as (a & Hha & Hga).
      rewrite Hhl in Hha. injection Hha as <-. congruence.
    + exact S5.
  - (* another entity, or none, was selected *)
    assert (Hgoal : forall objs0,
              (forall b o', JSMap.get Nat.eqb b objs0 = Some o' ->
                 exists o0, JSMap.get Nat.eqb b (objects (entities st)) = Some o0 /\
                            onClick o' = onClick o0 /\
                            (material o' = boundingBoxMaterial ->
                             material o0 = boundingBoxMaterial /\
                             forall h, highlightedActor (entities st) = Some h ->
                                       JSMap.get Nat.eqb h (highlightBoxes (entities st))
                                       <> Some b)) ->
              selection_invariant
                (with_highlightedActor (Some model)
                   (with_objects
                      (update_object box (with_material boundingBoxMaterial) objs0)
                      (entities st)))).
    { intros objs0 Hobjs. unfold selection_invariant, object_of.
      cbn [highlightedActor highlightBoxes prefabs dimensions next_actor objects
           with_highlightedActor with_objects].
      split; [|split; [|split; [|split]]].
      - intros b o' m Ho' Hk. apply update_get in Ho' as (o1 & Ho1 & ->).
        destruct (Hobjs _ _ Ho1) as (o0 & Ho0 & Hk0 & _).
        apply (S1 b o0 m Ho0). rewrite <- Hk0. destruct (Nat.eqb b box); exact Hk.
      - intros a [= <-]. eapply get_Some_keys. exact Hmb.
      - exact S3.
      - intros b o' Ho'. apply update_get in Ho' as (o1 & Ho1 & ->).
        destruct (Hobjs _ _ Ho1) as (o0 & Ho0 & _ & Hm0).
        split.
        + intros Hm. exists model. split; [reflexivity|].
          destruct (Nat.eqb_spec b box) as [->|Hnb]; [exact Hmb|]. exfalso.
          destruct (Hm0 Hm) as [Hb0 Hnot].
          apply (S4 b o0 Ho0) in Hb0 as (a & Hha & Hga).
          exact (Hnot a Hha Hga).
        + intros (a & [= <-] & Hga). rewrite Hmb in Hga. injection Hga as <-.
          rewrite Nat.eqb_refl. reflexivity.
      - exact S5. }
    destruct (highlightedActor (entities st)) as [h|] eqn:Hhl.
    + destruct (JSMap.get Nat.eqb h (highlightBoxes (entities st))) as [hbx|] eqn:Hg;
        [|exact Hsel].
      rewrite entities_updateHanziInfoPanel. cbn [entities with_entities].
      apply Hgoal. intros b o' Ho'. apply update_get in Ho' as (o0 & Ho0 & ->).
      exists o0. split; [exact Ho0|]. split; [destruct (Nat.eqb b hbx); reflexivity|].
      destruct (Nat.eqb_spec b hbx) as [->|Hnh]; [discriminate|].
      intros Hm. split; [exact Hm|]. intros h' [= <-]. congruence.
    + rewrite entities_updateHanziInfoPanel. cbn [entities with_entities].
      apply Hgoal. intros b o' Ho'. exists o'. split; [exact Ho'|].
      split; [reflexivity|]. intros Hm. split; [exact Hm|]. discriminate.
Qed.

Lemma spawned_selection (env : Env) (c : hanzi) (t : option Transform) (ed : bool)
  (p : prefab) (dim : BoundingBoxDimensions) (pf : list (hanzi * prefab))
  (dm : list (hanzi * BoundingBoxDimensions)) (e : Entities) :
  entities_invariant e ->
  selection_invariant e ->
  (forall c0, JSMap.has JSString.eqb c0 pf = JSMap.has JSString.eqb c0 dm) ->
  let b := next_actor e in
  selection_invariant
    {| highlightedActor := highlightedActor e;
       highlightBoxes := JSMap.set Nat.eqb (S b) b (highlightBoxes e);
       spawnedHanzi := JSMap.set Nat.eqb b c (spawnedHanzi e);
       prefabs := pf;
       dimensions := dm;
       numberInput_text := numberInput_text e;
       actors := actors e ++ [b; S b];
       objects := objects e ++ [(b, spawned_box env c t ed dim (S b));
                                (S b, spawned_model p ed dim b)];
       next_actor := S (S b) |}.
Proof.
  intros (I1 & I2 & I3) (S1 & S2 & S3 & S4 & S5) Hcache b.
  unfold object_of in *.
  assert (Hold : forall a v, JSMap.get Nat.eqb a (highlightBoxes e) = Some v -> a <> S b).
  { intros a v Ha ->. apply get_Some_keys, I3 in Ha. subst b. lia. }
  assert (Hget' : forall a, a <> S b ->
            JSMap.get Nat.eqb a (JSMap.set Nat.eqb (S b) b (highlightBoxes e))
            = JSMap.get Nat.eqb a (highlightBoxes e)).
  { intros a Hne. apply (@JSMapFacts.get_set_other _ _ Nat.eqb Nat.eqb_spec). exact Hne. }
  assert (Hobj : forall x l,
            JSMap.get Nat.eqb x (objects e ++ l) =
            match JSMap.get Nat.eqb x (objects e) with
            | Some o => Some o
            | None => JSMap.get Nat.eqb x l
            end).
  { intros x l. destruct (JSMap.get Nat.eqb x (objects e)) eqn:G.
    - apply (@JSMapFacts.get_app_old _ _ Nat.eqb). exact G.
    - apply (@JSMapFacts.get_app_new _ _ Nat.eqb Nat.eqb_spec).
      apply (@JSMapFacts.get_None_keys _ _ Nat.eqb Nat.eqb_spec). exact G. }
  unfold selection_invariant, object_of.
  cbn [highlightedActor highlightBoxes prefabs dimensions next_actor objects].
  split; [|split; [|split; [|split]]].
  - intros x o' m Ho' Hk. rewrite Hobj in Ho'.
    destruct (JSMap.get Nat.eqb x (objects e)) as [o0|] eqn:G.
    + injection Ho' as <-. pose proof (S1 x o0 m G Hk) as Hm.
      rewrite Hget'; [exact Hm | eapply Hold; exact Hm].
    + cbn [JSMap.get] in Ho'. destruct (Nat.eqb_spec x b) as [->|Hxb].
      * injection Ho' as <-. cbn [onClick spawned_box] in Hk.
        destruct ed; [|discriminate Hk]. injection Hk as <-.
        apply (@JSMapFacts.get_set_same _ _ Nat.eqb Nat.eqb_spec).
      * destruct (Nat.eqb_spec x (S b)); [|discriminate Ho'].
        injection Ho' as <-. discriminate Hk.
  - intros a Ha. apply keys_set_mono, S2, Ha.
  - intros a bx Ha. destruct (Nat.eq_dec a (S b)) as [->|Hne].
    + rewrite (@JSMapFacts.get_set_same _ _ Nat.eqb Nat.eqb_spec) in Ha.
      injection Ha as <-. lia.
    + rewrite Hget' in Ha by exact Hne. apply S3 in Ha. subst b. lia.
  - intros x o' Ho'. rewrite Hobj in Ho'.
    assert (Hrhs :
      (exists a, highlightedActor e = Some a /\
                 JSMap.get Nat.eqb a (JSMap.set Nat.eqb (S b) b (highlightBoxes e)) = Some x)
      <-> (exists a, highlightedActor e = Some a /\
                     JSMap.get Nat.eqb a (highlightBoxes e) = Some x)).
    { split; intros (a & Ha & Hg); exists a; (split; [exact Ha|]);
        assert (Hne : a <> S b) by (apply S2, I3 in Ha; subst b; lia);
        rewrite Hget' in * by exact Hne; exact Hg. }
    rewrite Hrhs.
    destruct (JSMap.get Nat.eqb x (objects e)) as [o0|] eqn:G.
    + injection Ho' as <-. apply (S4 x o0 G).
    + cbn [JSMap.get] in Ho'.
      destruct (Nat.eqb_spec x b) as [->|Hxb].
      * injection Ho' as <-. split; [discriminate|].
        intros (a & _ & Hg). apply S3 in Hg. subst b. lia.
      * destruct (Nat.eqb_spec x (S b)) as [->|]; [|discriminate Ho'].
        injection Ho' as <-. split; [discriminate|].
        intros (a & _ & Hg). apply S3 in Hg. subst b. lia.
  - exact Hcache.
Qed.

Lemma spawnItem_selection (env : Env) (c : option hanzi) (t : option Transform)
  (ed : bool) (e : Entities) :
  entities_invariant e -> selection_invariant e ->
  selection_invariant (spawnItem env c t ed e).
Proof.
  intros Hinv Hsel. destruct c as [c|]; [|exact Hsel].
  pose proof Hsel as (_ & _ & _ & _ & S5).
  pose proof Hinv as (_ & I2 & _).
  assert (Hfresh : ~ In (next_actor e) (JSMap.keys (objects e)))
    by (intros Hin; apply I2 in Hin; lia).
  destruct (loadGltf_cases env c e S5) as (Hc1 & _).
  destruct (@spawnItem_cases env c t ed e S5 Hfresh)
    as [(_ & _ & ->)|(p & dim & _ & _ & _ & ->)]; [exact Hsel|].
  apply spawned_selection; assumption.
Qed.

Lemma replay_selection (env : Env) (ed : bool) (l : levelData) :
  forall e, entities_invariant e -> selection_invariant e ->
  selection_invariant (fold_left (spawn_entry env ed) l e).
Proof.
  induction l as [|d l IH]; intros e Hinv Hsel; [exact Hsel|].
  cbn [fold_left]. apply IH.
  - apply spawnItem_invariant, Hinv.
  - apply spawnItem_selection; assumption.
Qed.

Lemma has_set (c c0 : hanzi) {V : Type} (v : V) (m : list (hanzi * V)) :
  JSMap.has JSString.eqb c0 (JSMap.set JSString.eqb c v m)
  = JSString.eqb c0 c || JSMap.has JSString.eqb c0 m.
Proof.
  unfold JSMap.has. destruct (JSStringFacts.eqb_spec c0 c) as [->|Hne]; cbn [orb].
  - rewrite (@JSMapFacts.get_set_same _ _ JSString.eqb JSStringFacts.eqb_spec).
    reflexivity.
  - rewrite (@JSMapFacts.get_set_other _ _ JSString.eqb JSStringFacts.eqb_spec)
      by exact Hne.
    reflexivity.
Qed.

Lemma cached_invariants (c : hanzi) (p : prefab) (dim : BoundingBoxDimensions)
  (e : Entities) :
  entities_invariant e -> selection_invariant e ->
  let e' := with_caches (JSMap.set JSString.eqb c p (prefabs e))
                        (JSMap.set JSString.eqb c dim (dimensions e)) e in
  entities_invariant e' /\ selection_invariant e'.
Proof.
  intros Hinv Hsel e'. split.
  - apply (@invariant_caches_grow e); try reflexivity; try assumption.
    + intros c0. apply JSMapFacts.has_set_mono, JSStringFacts.eqb_spec.
    + intros c0. apply JSMapFacts.has_set_mono, JSStringFacts.eqb_spec.
  - destruct Hsel as (S1 & S2 & S3 & S4 & S5).
    split; [exact S1|]. split; [exact S2|]. split; [exact S3|]. split; [exact S4|].
    intros c0. subst e'. cbn [prefabs dimensions with_caches].
    rewrite !has_set, S5. reflexivity.
Qed.

Lemma spawn_arrived_selection (env : Env) (ed : bool) (e : Entities) (d : LevelEntry) :
  entities_invariant e -> selection_invariant e ->
  entities_invariant (spawn_arrived env ed e d)
  /\ selection_invariant (spawn_arrived env ed e d).
Proof.
  intros Hinv Hsel. split; [apply spawn_arrived_invariant, Hinv|].
  unfold spawn_arrived.
  destruct (remote_model env (charCodeAt0 (char d))) as [[p dim]|]; [|exact Hsel].
  destruct (@cached_invariants (char d) p dim e Hinv Hsel) as [H1 H2].
  apply spawnItem_selection; assumption.
Qed.

Lemma arrivals_selection (env : Env) (ed : bool) (l : levelData) :
  forall e, entities_invariant e -> selection_invariant e ->
  selection_invariant (fold_left (spawn_arrived env ed) l e).
Proof.
  induction l as [|d l IH]; intros e Hinv Hsel; [exact Hsel|].
  cbn [fold_left].
  destruct (@spawn_arrived_selection env ed e d Hinv Hsel) as [H1 H2].
  apply IH; assumption.
Qed.

Lemma outcome_selection (env : Env) (st st' : State) :
  outcome env st st' ->
  entities_invariant (entities st) ->
  selection_invariant (entities st) ->
  selection_invariant (entities st').
Proof.
  intros Ho Hinv Hsel. destruct Ho;
    rewrite ?switchScene_entities, ?mainMenu_entities, ?onSearchSubmitted_entities,
      ?saveLevel_entities;
    try exact Hsel.
  - cbn [entities with_entities]. apply spawnItem_selection; assumption.
  - cbn [entities with_entities]. eapply deleteItem_selection; eassumption.
  - unfold loadLevel. destruct (JSMap.get _ _ _); [|exact Hsel].
    cbn [entities with_entities prompt]. apply arrivals_selection.
    + apply replay_invariant, Hinv.
    + apply replay_selection; assumption.
  - cbn [entities with_entities]. eapply forEach_deleteItem_selection; eassumption.
  - cbn [entities with_entities]. eapply rescale_selection; eassumption.
  - cbn [entities with_entities]. eapply rescale_selection; eassumption.
  - eapply box_onClick_selection; eassumption.
  - cbn [entities with_entities].
    eapply selection_update with (e := entities st) (a := box) (f := with_transform t);
      try reflexivity; [|exact Hsel].
    intros o0. split; reflexivity.
Qed.

Lemma reachable_invariants
  (env : Env) (disk : list (jsstring * levelData)) (st : State) :
  reachable env disk st ->
  entities_invariant (entities st) /\ selection_invariant (entities st).
Proof.
  induction 1 as [|st st' _ [IH1 IH2] Hstep].
  - rewrite init_entities. split; [apply invariant_initial | apply selection_initial].
  - split.
    + apply (step_invariant Hstep IH1).
    + apply step_outcome in Hstep. apply (outcome_selection Hstep IH1 IH2).
Qed.

(* ------------------------------------------------------------------ *)
(** ** Entities in the states a session can be in *)

Lemma reachable_st_spawned : reachable Example.env0 [] Example.st_spawned.
Proof.
  eapply reachable_step; [apply reachable_st_common|].
  apply step_controlStrip with (col := 4%Z) (u := Example.alice) (r := Example.no_reply).
  vm_compute. reflexivity.
Qed.

Lemma reachable_st_selected : reachable Example.env0 [] Example.st_selected.
Proof.
  eapply reachable_step; [apply reachable_st_spawned | apply step_click].
Qed.

(** X10 (the click handler of a box, with spawnItem, deleteItem and the
    number input): in every state a session can be in, a box shows the
    bounding-box material exactly when it is the box of the selected
    entity; so at most one box is highlighted at a time. *)
Theorem only_the_selected_box_is_highlighted
  (env : Env) (disk : list (jsstring * levelData)) (st : State)
  (box : actor) (o : ActorObj) :
  reachable env disk st ->
  object_of (entities st) box = Some o ->
  (material o = boundingBoxMaterial <->
   exists a, highlightedActor (entities st) = Some a
             /\ JSMap.get Nat.eqb a (highlightBoxes (entities st)) = Some box).
Proof.
  intros Hr Ho. destruct (reachable_invariants Hr) as (_ & _ & _ & _ & S4 & _).
  apply (S4 box o Ho).
Qed.

Lemma only_the_selected_box_is_highlighted_witness :
  exists o,
    object_of (entities Example.st_selected) 0 = Some o /\
    (material o = boundingBoxMaterial <->
     exists a, highlightedActor (entities Example.st_selected) = Some a
               /\ JSMap.get Nat.eqb a (highlightBoxes (entities Example.st_selected))
                  = Some 0).
Proof.
  eexists. split.
  - vm_compute. reflexivity.
  - apply (@only_the_selected_box_is_highlighted Example.env0 [] Example.st_selected 0 _
             reachable_st_selected).
    vm_compute. reflexivity.
Defined.

(** X11 (spawnItem, loadGltf): in a state a session can be in, spawning
    a character that is not cached while the remote store has no model
    for it changes nothing: no actor is created and nothing is recorded
    or cached. *)
Theorem failed_fetch_creates_nothing
  (env : Env) (disk : list (jsstring * levelData)) (st : State)
  (c : hanzi) (t : option Transform) (ed : bool) :
  reachable env disk st ->
  JSMap.has JSString.eqb c (prefabs (entities st)) = false ->
  remote_model env (charCodeAt0 c) = None ->
  spawnItem env (Some c) t ed (entities st) = entities st.
Proof.
  intros Hr Hh Hn. destruct (reachable_invariants Hr) as ((_ & I2 & _) & (_ & _ & _ & _ & S5)).
  assert (Hfresh : ~ In (next_actor (entities st)) (JSMap.keys (objects (entities st))))
    by (intros Hin; apply I2 in Hin; lia).
  destruct (@spawnItem_cases env c t ed (entities st) S5 Hfresh)
    as [(_ & _ & He)|(p & dim & _ & _ & [[Hh' _]|[_ Hr']] & _)].
  - exact He.
  - congruence.
  - congruence.
Qed.

Lemma failed_fetch_creates_nothing_witness :
  spawnItem Example.env1 (Some [19968%N]) None true (entities (init Example.env1 []))
  = entities (init Example.env1 []).
Proof.
  apply (@failed_fetch_creates_nothing Example.env1 [] (init Example.env1 [])).
  - apply reachable_init.
  - reflexivity.
  - reflexivity.
Defined.

Lemma spawnItem_prefabs (env : Env) (c : hanzi) (t : option Transform) (ed : bool)
  (e : Entities) :
  prefabs (spawnItem env (Some c) t ed e) = prefabs (fst (loadGltf env c e)).
Proof.
  unfold spawnItem. destruct (loadGltf env c e) as [e1 pf]. cbn [fst].
  destruct (JSMap.get JSString.eqb c (dimensions e1)); [|reflexivity].
  destruct pf, ed; reflexivity.
Qed.

Lemma loadGltf_available (env : Env) (c : hanzi) (e : Entities) :
  available env e c ->
  JSMap.has JSString.eqb c (prefabs (fst (loadGltf env c e))) = true.
Proof.
  intros Hav. unfold loadGltf. cbn [fst].
  destruct (JSMap.has JSString.eqb c (prefabs e)) eqn:Hh; cbn [negb]; [exact Hh|].
  destruct (remote_model env (charCodeAt0 c)) as [[p dim]|] eqn:Hr.
  - cbn [prefabs with_caches]. unfold JSMap.has.
    rewrite (@JSMapFacts.get_set_same _ _ JSString.eqb JSStringFacts.eqb_spec).
    reflexivity.
  - destruct Hav as [Hav|Hav]; congruence.
Qed.

Lemma spawnItem_cached_remote (env : Env) r (c : hanzi) (t : option Transform)
  (ed : bool) (e : Entities) :
  JSMap.has JSString.eqb c (prefabs e) = true ->
  spawnItem (with_remote r env) (Some c) t ed e = spawnItem env (Some c) t ed e.
Proof.
  intros Hh. unfold spawnItem, loadGltf. rewrite Hh. reflexivity.
Qed.

(** X12 (loadGltf, spawnItem): a spawn that has come to its end leaves
    the model cached.  When the model of a character is cached or the
    remote store has it, the character is cached once a spawn of it has
    come to its end, and a spawn of it that starts after that is carried
    out without the remote store: it gives the same result whatever the
    store holds by then.  Nothing is said here of spawns that start
    before the first has come to its end, as those of one load do: each
    of them tests the cache before the model is in it, and fetches. *)
Theorem finished_spawn_leaves_the_model_cached
  (env : Env) (c : hanzi) (t t' : option Transform) (ed ed' : bool) (e : Entities)
  (r : option N -> option (prefab * BoundingBoxDimensions)) :
  available env e c ->
  let e1 := spawnItem env (Some c) t ed e in
  JSMap.has JSString.eqb c (prefabs e1) = true /\
  spawnItem (with_remote r env) (Some c) t' ed' e1 = spawnItem env (Some c) t' ed' e1.
Proof.
  intros Hav e1.
  assert (Hh : JSMap.has JSString.eqb c (prefabs e1) = true).
  { subst e1. rewrite spawnItem_prefabs. apply loadGltf_available, Hav. }
  split; [exact Hh|]. apply spawnItem_cached_remote, Hh.
Qed.

Lemma finished_spawn_leaves_the_model_cached_witness :
  let e1 := spawnItem Example.env0 (Some Example.zhong) None true initial_entities in
  spawnItem (with_remote (fun _ => None) Example.env0) (Some Example.zhong) None true e1
  = spawnItem Example.env0 (Some Example.zhong) None true e1.
Proof.
  cbv zeta.
  apply (@finished_spawn_leaves_the_model_cached Example.env0 Example.zhong None None
           true true initial_entities (fun _ => None)).
  right. cbn. discriminate.
Defined.

Lemma click_on_handler (env : Env) (u : User) (box model : actor) (o : ActorObj)
  (st : State) :
  selection_invariant (entities st) ->
  is_live (entities st) box = true ->
  object_of (entities st) box = Some o ->
  onClick o = Some model ->
  checkUserName u (OWNER_NAME env) = true ->
  let st2 := click env u box st in
  highlightedActor (entities st2)
  = (if actor_eqb (highlightedActor (entities st)) model then None else Some model) /\
  (exists o2, object_of (entities st2) box = Some o2 /\
              material o2 = if actor_eqb (highlightedActor (entities st)) model
                            then invisibleMaterial else boundingBoxMaterial) /\
  hanziInfoPanel_char st2
  = (if actor_eqb (highlightedActor (entities st)) model then hanziInfoPanel_char st
     else match JSMap.get Nat.eqb box (spawnedHanzi (entities st)) with
          | Some c => Some c
          | None => hanziInfoPanel_char st
          end).
Proof.
  intros (S1 & S2 & _) Hl Ho Hc Hu st2. subst st2.
  unfold click. rewrite Hl, Ho, Hc. unfold box_onClick. rewrite Hu.
  unfold object_of in *.
  destruct (actor_eqb (highlightedActor (entities st)) model) eqn:Ha; cbn [negb].
  - cbn [entities with_entities highlightedActor with_highlightedActor objects
         with_objects hanziInfoPanel_char].
    split; [reflexivity|]. split; [|reflexivity].
    rewrite get_update_object, Ho. cbn [option_map]. rewrite Nat.eqb_refl.
    eexists. split; reflexivity.
  - assert (Hobjs : exists objs0,
              match highlightedActor (entities st) with
              | Some h =>
                  match JSMap.get Nat.eqb h (highlightBoxes (entities st)) with
                  | Some hb =>
                      Some (update_object hb (with_material invisibleMaterial)
                                          (objects (entities st)))
                  | None => None
                  end
              | None => Some (objects (entities st))
              end = Some objs0 /\
              exists o0, JSMap.get Nat.eqb box objs0 = Some o0).
    { destruct (highlightedActor (entities st)) as [h|] eqn:Hh.
      - destruct (@JSMapFacts.keys_In_get _ _ Nat.eqb Nat.eqb_spec h _ (S2 h eq_refl))
          as [hb Hhb].
        rewrite Hhb. eexists. split; [reflexivity|].
        rewrite get_update_object, Ho. cbn [option_map]. eexists. reflexivity.
      - eexists. split; [reflexivity|]. exists o. exact Ho. }
    destruct Hobjs as (objs0 & -> & o0 & Ho0).
    rewrite entities_updateHanziInfoPanel.
    cbn [entities with_entities highlightedActor with_highlightedActor objects
         with_objects spawnedHanzi].
    split; [reflexivity|]. split.
    + rewrite get_update_object, Ho0. cbn [option_map]. rewrite Nat.eqb_refl.
      eexists. split; reflexivity.
    + destruct (JSMap.get Nat.eqb box (spawnedHanzi (entities st))); reflexivity.
Qed.

(** X13 (the click handler of a box): in every state a session can be
    in, the owner's click on a live box that has a handler toggles the
    selection: the entity becomes the selected one and its box shows the
    bounding-box material, or, when it was the selected one, nothing is
    selected any more and the box is invisible.  The handler never stops
    on a missing box. *)
Theorem click_toggles_the_selection
  (env : Env) (disk : list (jsstring * levelData)) (st : State) (u : User)
  (box model : actor) (o : ActorObj) :
  reachable env disk st ->
  is_live (entities st) box = true ->
  object_of (entities st) box = Some o ->
  onClick o = Some model ->
  checkUserName u (OWNER_NAME env) = true ->
  let st2 := click env u box st in
  let was_selected := actor_eqb (highlightedActor (entities st)) model in
  highlightedActor (entities st2) = (if was_selected then None else Some model) /\
  exists o2, object_of (entities st2) box = Some o2 /\
             material o2 = if was_selected then invisibleMaterial
                           else boundingBoxMaterial.
Proof.
  intros Hr Hl Ho Hc Hu st2 was.
  destruct (reachable_invariants Hr) as (_ & Hsel).
  destruct (@click_on_handler env u box model o st Hsel Hl Ho Hc Hu) as (H1 & H2 & _).
  split; assumption.
Qed.

Lemma click_toggles_the_selection_witness :
  highlightedActor (entities (click Example.env0 Example.alice 0 Example.st_selected))
  = None.
Proof.
  eapply (@click_toggles_the_selection Example.env0 [] Example.st_selected Example.alice
            0 1 _ reachable_st_selected); reflexivity.
Defined.

(** X14 (spawnItem with the click handler it installs): in a state a
    session can be in, spawning a character whose model is cached or can
    be fetched creates a live box and a live model under two fresh
    handles and records them; the owner's click on the new box then
    selects the new entity, shows the bounding box, and puts the
    character on the info panel. *)
Theorem spawned_box_can_be_selected
  (env : Env) (disk : list (jsstring * levelData)) (st : State) (u : User)
  (c : hanzi) (t : option Transform) :
  reachable env disk st ->
  available env (entities st) c ->
  checkUserName u (OWNER_NAME env) = true ->
  let box := next_actor (entities st) in
  let model := S box in
  let st1 := with_entities (spawnItem env (Some c) t true (entities st)) st in
  let st2 := click env u box st1 in
  is_live (entities st1) box = true /\
  is_live (entities st1) model = true /\
  JSMap.get Nat.eqb model (highlightBoxes (entities st1)) = Some box /\
  JSMap.get Nat.eqb box (spawnedHanzi (entities st1)) = Some c /\
  highlightedActor (entities st2) = Some model /\
  hanziInfoPanel_char st2 = Some c /\
  exists o2, object_of (entities st2) box = Some o2
             /\ material o2 = boundingBoxMaterial.
Proof.
  intros Hr Hav Hu box model st1 st2.
  destruct (reachable_invariants Hr) as (Hinv & Hsel).
  pose proof Hinv as (_ & I2 & I3). pose proof Hsel as (_ & S2 & _ & _ & S5).
  assert (Hfresh : ~ In box (JSMap.keys (objects (entities st))))
    by (intros Hin; apply I2 in Hin; subst box; lia).
  destruct (@spawnItem_cases env c t true (entities st) S5 Hfresh)
    as [(Hh & Hn & _)|(p & dim & _ & _ & _ & He)].
  { destruct Hav as [Hav|Hav]; congruence. }
  fold box in He.
  assert (Hsel1 : selection_invariant (entities st1))
    by (apply spawnItem_selection; assumption).
  assert (Hlive : is_live (entities st1) box = true).
  { subst st1. cbn [entities with_entities]. rewrite He. unfold is_live. cbn [actors].
    rewrite existsb_app. cbn. rewrite Nat.eqb_refl, orb_true_r. reflexivity. }
  assert (Hobj : object_of (entities st1) box
                 = Some (spawned_box env c t true dim model)).
  { subst st1. cbn [entities with_entities]. rewrite He. unfold object_of. cbn [objects].
    rewrite (@JSMapFacts.get_app_new _ _ Nat.eqb Nat.eqb_spec) by exact Hfresh.
    cbn. rewrite Nat.eqb_refl. reflexivity. }
  assert (Hsh : JSMap.get Nat.eqb box (spawnedHanzi (entities st1)) = Some c).
  { subst st1. cbn [entities with_entities]. rewrite He. cbn [spawnedHanzi].
    apply (@JSMapFacts.get_set_same _ _ Nat.eqb Nat.eqb_spec). }
  assert (Hnot : actor_eqb (highlightedActor (entities st1)) model = false).
  { subst st1. cbn [entities with_entities]. rewrite He. cbn [highlightedActor].
    destruct (highlightedActor (entities st)) as [a|] eqn:Ha; [|reflexivity].
    specialize (S2 a eq_refl). apply I3 in S2.
    cbn. apply Nat.eqb_neq. subst model box. lia. }
  destruct (@click_on_handler env u box model _ st1 Hsel1 Hlive Hobj eq_refl Hu)
    as (H1 & H2 & H3).
  fold st2 in H1, H2, H3. rewrite Hnot in H1, H2, H3. rewrite Hsh in H3.
  split; [exact Hlive|]. split.
  { subst st1. cbn [entities with_entities]. rewrite He. unfold is_live. cbn [actors].
    rewrite existsb_app. cbn. rewrite Nat.eqb_refl, !orb_true_r. reflexivity. }
  split.
  { subst st1. cbn [entities with_entities]. rewrite He. cbn [highlightBoxes].
    apply (@JSMapFacts.get_set_same _ _ Nat.eqb Nat.eqb_spec). }
  split; [exact Hsh|]. split; [exact H1|]. split; [exact H3 | exact H2].
Qed.

Lemma spawned_box_can_be_selected_witness :
  let st1 := with_entities
               (spawnItem Example.env0 (Some Example.zhong) None true
                          (entities Example.st_common)) Example.st_common in
  highlightedActor (entities (click Example.env0 Example.alice 0 st1)) = Some 1 /\
  hanziInfoPanel_char (click Example.env0 Example.alice 0 st1) = Some Example.zhong.
Proof.
  cbv zeta.
  assert (Hav : available Example.env0 (entities Example.st_common) Example.zhong)
    by (right; vm_compute; discriminate).
  assert (Hu : checkUserName Example.alice (OWNER_NAME Example.env0) = true)
    by (vm_compute; reflexivity).
  pose proof (@spawned_box_can_be_selected Example.env0 [] Example.st_common Example.alice
                Example.zhong None reachable_st_common Hav Hu) as H.
  cbv zeta in H.
  assert (E : next_actor (entities Example.st_common) = 0) by (vm_compute; reflexivity).
  rewrite E in H.
  destruct H as (_ & _ & _ & _ & H1 & H2 & _).
  split; [exact H1 | exact H2].
Defined.

(* ------------------------------------------------------------------ *)
(** ** Clearing, loading and saving *)

Lemma In_update_object (a b : actor) (f : ActorObj -> ActorObj)
  (objs : list (actor * ActorObj)) (o1 : ActorObj) :
  In (b, o1) (update_object a f objs) ->
  exists o, In (b, o) objs /\ o1 = if Nat.eqb b a then f o else o.
Proof.
  unfold update_object. intros Hin. apply in_map_iff in Hin as ([k o] & Heq & Hin).
  cbn [fst snd] in Heq. destruct (Nat.eqb k a) eqn:E; injection Heq as <- <-;
    exists o; rewrite E; split; (exact Hin || reflexivity).
Qed.

Lemma update_object_fixed (a : actor) (f : ActorObj -> ActorObj)
  (objs : list (actor * ActorObj)) :
  (forall o, In (a, o) objs -> f o = o) -> update_object a f objs = objs.
Proof.
  induction objs as [|[k o] objs IH]; intros Hf; [reflexivity|].
  cbn [update_object map fst snd]. fold (update_object a f objs).
  rewrite IH by (intros o' Hin; apply Hf; right; exact Hin).
  destruct (Nat.eqb_spec k a) as [->|Hne]; [|reflexivity].
  rewrite Hf by (left; reflexivity). reflexivity.
Qed.

Lemma get_delete_None {V : Type} (k k' : nat) (m : list (nat * V)) :
  JSMap.get Nat.eqb k m = None -> JSMap.get Nat.eqb k (JSMap.delete Nat.eqb k' m) = None.
Proof.
  intros H. apply (@JSMapFacts.get_None_keys _ _ Nat.eqb Nat.eqb_spec).
  apply (@JSMapFacts.get_None_keys _ _ Nat.eqb Nat.eqb_spec) in H.
  intros Hin. apply (@JSMapFacts.keys_delete_In _ _ Nat.eqb Nat.eqb_spec) in Hin.
  tauto.
Qed.

Lemma deleteItem_stays_dead (a x : actor) (e e1 : Entities) :
  deleteItem a e = Some e1 -> is_live e x = false -> is_live e1 x = false.
Proof.
  unfold deleteItem. destruct (JSMap.get Nat.eqb a (highlightBoxes e)); [|discriminate].
  intros [= <-] Hx. apply destroy_stays_dead, destroy_stays_dead. exact Hx.
Qed.

Lemma deleteItem_deletes (a box : actor) (e e1 : Entities) :
  JSMap.get Nat.eqb a (highlightBoxes e) = Some box ->
  deleteItem a e = Some e1 ->
  deleted e1 a box.
Proof.
  intros G Hd.
  destruct (deleteItem_effect a e G)
    as (e1' & Hd' & _ & _ & Hsh & _ & _ & Hobj & _ & La & Lb).
  rewrite Hd in Hd'. injection Hd' as <-.
  split; [exact La|]. split; [exact Lb|]. split.
  - rewrite Hsh. apply (@JSMapFacts.get_delete_same _ _ Nat.eqb).
  - intros o Hin. rewrite Hobj in Hin. apply In_update_object in Hin as (o0 & _ & ->).
    rewrite Nat.eqb_refl. apply drop_subscription_idem.
Qed.

Lemma deleteItem_keeps_deleted (a k b : actor) (e e1 : Entities) :
  deleteItem a e = Some e1 -> deleted e k b -> deleted e1 k b.
Proof.
  intros Hd (Lk & Lb & Hs & Ho).
  destruct (JSMap.get Nat.eqb a (highlightBoxes e)) as [box|] eqn:G;
    [|unfold deleteItem in Hd; rewrite G in Hd; discriminate Hd].
  destruct (deleteItem_effect a e G)
    as (e1' & Hd' & _ & _ & Hsh & _ & _ & Hobj & _ & _ & _).
  rewrite Hd in Hd'. injection Hd' as <-.
  split; [eapply deleteItem_stays_dead; eassumption|].
  split; [eapply deleteItem_stays_dead; eassumption|].
  split.
  - rewrite Hsh. apply get_delete_None, Hs.
  - intros o Hin. rewrite Hobj in Hin. apply In_update_object in Hin as (o0 & Hin & ->).
    destruct (Nat.eqb b box); [apply drop_subscription_idem | apply Ho, Hin].
Qed.

Lemma deleteItem_deleted_again (a box : actor) (e : Entities) :
  JSMap.get Nat.eqb a (highlightBoxes e) = Some box ->
  deleted e a box -> deleteItem a e = Some e.
Proof.
  intros G (La & Lb & Hs & Ho). apply (deleteItem_again a e G).
  - apply update_object_fixed, Ho.
  - apply (@JSMapFacts.delete_absent _ _ Nat.eqb), Hs.
  - exact La.
  - exact Lb.
Qed.

Lemma forEach_deleteItem_deletes (ks : list actor) :
  forall e : Entities,
  (forall k, In k ks -> exists b, JSMap.get Nat.eqb k (highlightBoxes e) = Some b) ->
  exists e',
    forEach_deleteItem ks e = Some e' /\
    highlightedActor e' = highlightedActor e /\
    highlightBoxes e' = highlightBoxes e /\
    (forall k b, deleted e k b -> deleted e' k b) /\
    (forall k b, In k ks -> JSMap.get Nat.eqb k (highlightBoxes e) = Some b ->
                 deleted e' k b).
Proof.
  induction ks as [|k ks IH]; intros e Hks.
  - exists e. cbn [forEach_deleteItem].
    split; [reflexivity|]. split; [reflexivity|]. split; [reflexivity|].
    split; [auto | intros k b []].
  - destruct (Hks k (or_introl eq_refl)) as [b G].
    destruct (deleteItem_effect k e G) as (e1 & Hd & Hhl & Hhb & _).
    destruct (IH e1) as (e' & Hf & Hhl' & Hhb' & Hkeep & Hdel).
    { intros k' Hin. rewrite Hhb. apply Hks. right. exact Hin. }
    exists e'. cbn [forEach_deleteItem]. rewrite Hd.
    split; [exact Hf|]. split; [congruence|]. split; [congruence|]. split.
    + intros k' b' Hdd. apply Hkeep. eapply deleteItem_keeps_deleted; eassumption.
    + intros k' b' [<-|Hin] G'.
      * apply Hkeep. rewrite G in G'. injection G' as <-.
        eapply deleteItem_deletes; eassumption.
      * apply Hdel; [exact Hin | rewrite Hhb; exact G'].
Qed.

Lemma forEach_deleteItem_again (ks : list actor) (e : Entities) :
  (forall k, In k ks -> exists b, JSMap.get Nat.eqb k (highlightBoxes e) = Some b
                                  /\ deleted e k b) ->
  forEach_deleteItem ks e = Some e.
Proof.
  induction ks as [|k ks IH]; intros Hks; [reflexivity|].
  cbn [forEach_deleteItem].
  destruct (Hks k (or_introl eq_refl)) as (b & G & Hd).
  rewrite (deleteItem_deleted_again G Hd).
  apply IH. intros k' Hin. apply Hks. right. exact Hin.
Qed.

(** X15 (clearLevel, deleteItem): clearing never raises and is
    idempotent.  After it every model that was ever recorded and its box
    are destroyed and the box is no longer recorded, so no recorded
    entity of a well-formed state is left; the map from models to boxes
    and the selection are left as they were; and clearing once more
    changes nothing. *)
Theorem clearLevel_is_idempotent (e : Entities) :
  exists e1,
    clearLevel e = Some e1 /\
    (forall a box, JSMap.get Nat.eqb a (highlightBoxes e) = Some box ->
       is_live e1 a = false /\ is_live e1 box = false /\
       JSMap.get Nat.eqb box (spawnedHanzi e1) = None) /\
    (well_formed e = true -> spawnedHanzi e1 = []) /\
    highlightBoxes e1 = highlightBoxes e /\
    highlightedActor e1 = highlightedActor e /\
    clearLevel e1 = Some e1.
Proof.
  assert (Hkeys : forall e0 k, In k (JSMap.keys (highlightBoxes e0)) ->
                    exists b, JSMap.get Nat.eqb k (highlightBoxes e0) = Some b)
    by (intros e0 k; apply (@JSMapFacts.keys_In_get _ _ Nat.eqb Nat.eqb_spec)).
  destruct (@forEach_deleteItem_deletes (JSMap.keys (highlightBoxes e)) e (Hkeys e))
    as (e1 & Hf & Hhl & Hhb & _ & Hdel).
  exists e1. unfold clearLevel. split; [exact Hf|].
  assert (Hd : forall a box, JSMap.get Nat.eqb a (highlightBoxes e) = Some box ->
                             deleted e1 a box).
  { intros a box G. apply Hdel; [|exact G]. eapply get_Some_keys; exact G. }
  split; [|split; [|split; [exact Hhb | split; [exact Hhl|]]]].
  - intros a box G. destruct (Hd a box G) as (La & Lb & Hs & _). auto.
  - intros Hwf. destruct (clearLevel_effect e Hwf) as (e1' & Hc & Hsh & _).
    unfold clearLevel in Hc. rewrite Hf in Hc. injection Hc as <-. exact Hsh.
  - rewrite Hhb. apply forEach_deleteItem_again.
    intros k Hin. destruct (Hkeys e k Hin) as [b G].
    exists b. split; [rewrite Hhb; exact G | apply Hd, G].
Qed.

Lemma spawnItem_level (env : Env) (c : hanzi) (t : Transform) (ed : bool) (e : Entities) :
  entities_invariant e -> selection_invariant e -> available env e c ->
  level_of (spawnItem env (Some c) (Some t) ed e)
  = level_of e ++ [{| char := c; entry_transform := t |}] /\
  forall c0, available env e c0 -> available env (spawnItem env (Some c) (Some t) ed e) c0.
Proof.
  intros (I1 & I2 & I3) (_ & _ & _ & _ & S5) Hav.
  assert (Hfresh : ~ In (next_actor e) (JSMap.keys (objects e)))
    by (intros Hin; apply I2 in Hin; lia).
  assert (Hsh : forall k, In k (JSMap.keys (spawnedHanzi e)) -> k < next_actor e).
  { intros k Hin. apply in_map_iff in Hin as ([k' c'] & <- & Hin).
    apply (I1 k' c' Hin). }
  split.
  - destruct (@spawnItem_cases env c (Some t) ed e S5 Hfresh)
      as [(Hh & Hn & _)|(p & dim & _ & _ & _ & He)].
    { destruct Hav as [Hav|Hav]; congruence. }
    rewrite He.
    match goal with
    | |- level_of ?e' = _ =>
        rewrite (@level_of_one_more e e' (next_actor e) c
                   (spawned_box env c (Some t) ed dim (S (next_actor e)))
                   (spawned_model p ed dim (next_actor e)))
    end.
    + reflexivity.
    + cbn [spawnedHanzi]. apply JSMapFacts.set_fresh.
      apply (@JSMapFacts.get_None_keys _ _ Nat.eqb Nat.eqb_spec).
      intros Hin. apply Hsh in Hin. lia.
    + reflexivity.
    + exact I2.
    + exact Hsh.
  - intros c0 [Hc0|Hc0]; [left | right; exact Hc0].
    rewrite spawnItem_prefabs.
    destruct (loadGltf_cases env c e S5) as (_ & Hmono & _). apply Hmono, Hc0.
Qed.

Lemma replay_available (env : Env) (ed : bool) (l : levelData) :
  forall e : Entities,
  entities_invariant e -> selection_invariant e ->
  (forall d, In d l -> available env e (char d)) ->
  level_of (fold_left (spawn_entry env ed) l e) = level_of e ++ l.
Proof.
  induction l as [|[c t] l IH]; intros e Hinv Hsel Hav.
  - cbn. rewrite app_nil_r. reflexivity.
  - cbn [fold_left].
    change (spawn_entry env ed e {| char := c; entry_transform := t |})
      with (spawnItem env (Some c) (Some t) ed e).
    destruct (@spawnItem_level env c t ed e Hinv Hsel (Hav _ (or_introl eq_refl)))
      as [Hl Hmono].
    rewrite IH.
    + rewrite Hl, <- app_assoc. reflexivity.
    + apply spawnItem_invariant, Hinv.
    + apply spawnItem_selection; assumption.
    + intros d Hin. apply Hmono, Hav. right. exact Hin.
Qed.

(** X16 (loadLevel): loading does not clear first.  In a state a session
    can be in, loading a level file whose characters have their models
    cached adds the entities of the file, in the order of the file and
    with the transforms of the file, after the entities already there;
    the files are left as they are.  When there is no such file, the only
    effect is the prompt that says so. *)
Theorem loadLevel_adds_to_what_is_there
  (env : Env) (disk : list (jsstring * levelData)) (st : State)
  (X : jsstring) (u : User) (ed : bool) (arrival : list nat) :
  reachable env disk st ->
  match JSMap.get JSString.eqb (loadLevel_path X) (files st) with
  | Some level =>
      (forall d, In d level ->
                 JSMap.has JSString.eqb (char d) (prefabs (entities st)) = true) ->
      level_of (entities (loadLevel env X u ed arrival st))
      = level_of (entities st) ++ level /\
      files (loadLevel env X u ed arrival st) = files st /\
      prompts (loadLevel env X u ed arrival st) = prompts st
  | None => loadLevel env X u ed arrival st = prompt u "No such file" st
  end.
Proof.
  intros Hr. destruct (reachable_invariants Hr) as (Hinv & Hsel).
  destruct (JSMap.get JSString.eqb (loadLevel_path X) (files st)) as [level|] eqn:G;
    [|unfold loadLevel; rewrite G; reflexivity].
  intros Hav. rewrite (@loadLevel_cached env X u ed arrival st level G Hav).
  cbn [entities with_entities files prompts].
  split; [|split; reflexivity].
  apply replay_available; [assumption | assumption |].
  intros d Hin. left. apply Hav, Hin.
Qed.

Lemma reachable_st_two : reachable Example.env0 [] Example.st_two.
Proof.
  eapply reachable_step.
  - eapply reachable_step; [apply reachable_st_selected|].
    apply step_controlStrip with (col := 4%Z) (u := Example.alice) (r := Example.no_reply).
    vm_compute. reflexivity.
  - apply step_increase. vm_compute. reflexivity.
Qed.

Lemma loadLevel_adds_to_what_is_there_witness :
  let entry := {| char := Example.zhong;
                  entry_transform := default_transform Example.env0 Example.dim0 |} in
  let disk := [(js "./public/levels/lvl1.json", [entry; entry])] in
  let st0 := mainMenu_onClick 3 (init Example.env0 disk) in
  let st := with_entities
              (spawnItem Example.env0 (Some Example.zhong) None true (entities st0)) st0 in
  level_of (entities (loadLevel Example.env0 (js "lvl1") Example.alice true [] st))
  = [entry; entry; entry].
Proof.
  intros entry disk st0 st.
  assert (Hr : reachable Example.env0 disk st).
  { eapply reachable_step.
    - eapply reachable_step; [apply reachable_init | apply (step_mainMenu _ 3)].
    - apply step_controlStrip with (col := 4%Z) (u := Example.alice)
                                   (r := Example.no_reply).
      vm_compute. reflexivity. }
  pose proof (@loadLevel_adds_to_what_is_there Example.env0 disk st
                (js "lvl1") Example.alice true [] Hr) as H.
  assert (G : JSMap.get JSString.eqb (loadLevel_path (js "lvl1")) (files st)
              = Some [entry; entry])
    by (vm_compute; reflexivity).
  rewrite G in H.
  assert (Hav : forall d, In d [entry; entry] ->
                          JSMap.has JSString.eqb (char d) (prefabs (entities st)) = true).
  { intros d [<-|[<-|[]]]; vm_compute; reflexivity. }
  destruct (H Hav) as [H1 _]. rewrite H1. vm_compute. reflexivity.
Defined.

Lemma arrivals_level (env : Env) (ed : bool) (l : levelData) :
  forall e : Entities,
  entities_invariant e -> selection_invariant e ->
  level_of (fold_left (spawn_arrived env ed) l e)
  = level_of e ++ filter (can_fetch env) l.
Proof.
  induction l as [|[c t] l IH]; intros e Hinv Hsel.
  - cbn. rewrite app_nil_r. reflexivity.
  - cbn [fold_left filter].
    destruct (@spawn_arrived_selection env ed e {| char := c; entry_transform := t |}
                Hinv Hsel) as [Hinv1 Hsel1].
    rewrite IH by assumption. clear IH Hinv1 Hsel1.
    unfold spawn_arrived, can_fetch. cbn [char entry_transform].
    destruct (remote_model env (charCodeAt0 c)) as [[p dim]|]; [|reflexivity].
    destruct (@cached_invariants c p dim e Hinv Hsel) as [Hinv' Hsel'].
    unfold spawn_entry. cbn [char entry_transform].
    match goal with
    | |- level_of (spawnItem _ _ _ _ ?e') ++ _ = _ =>
        destruct (@spawnItem_level env c t ed e' Hinv' Hsel') as [Hl _]
    end.
    { left. cbn [prefabs with_caches]. unfold JSMap.has.
      rewrite (@JSMapFacts.get_set_same _ _ JSString.eqb JSStringFacts.eqb_spec).
      reflexivity. }
    rewrite Hl, <- app_assoc. reflexivity.
Qed.

(** X27 (loadLevel, with spawnItem and loadGltf): a load starts all its
    spawns at once, so every entry tests the cache as it is when the
    level is loaded.  In a state a session can be in, the entries whose
    character is cached then are spawned first, in the order of the
    file; the others each wait for a fetch and are spawned after them,
    in the order their models arrive, those whose model the remote store
    does not have being left out.  Every waiting entry is served once. *)
Theorem load_spawns_cached_entries_first
  (env : Env) (disk : list (jsstring * levelData)) (st : State)
  (X : jsstring) (u : User) (ed : bool) (arrival : list nat) (level : levelData) :
  reachable env disk st ->
  JSMap.get JSString.eqb (loadLevel_path X) (files st) = Some level ->
  let cached d := JSMap.has JSString.eqb (char d) (prefabs (entities st)) in
  let waiting := filter (fun d => negb (cached d)) level in
  Permutation (served arrival waiting) waiting /\
  level_of (entities (loadLevel env X u ed arrival st))
  = level_of (entities st)
    ++ filter cached level
    ++ filter (can_fetch env) (served arrival waiting).
Proof.
  intros Hr G cached waiting. split; [apply served_Permutation|].
  destruct (reachable_invariants Hr) as (Hinv & Hsel).
  unfold loadLevel. rewrite G. cbn [entities with_entities].
  fold cached. fold waiting.
  rewrite arrivals_level.
  - rewrite replay_available; [rewrite <- app_assoc; reflexivity | assumption..|].
    intros d Hin. left. apply filter_In in Hin as [_ Hc]. exact Hc.
  - apply replay_invariant, Hinv.
  - apply replay_selection; assumption.
Qed.

(** The character zhong is cached, wen and ren are not.  Of the level
    wen, zhong, ren the entry of zhong is spawned first; the model of
    ren arrives before that of wen. *)
Lemma load_spawns_cached_entries_first_witness :
  let entry c := {| char := c;
                    entry_transform := default_transform Example.env0 Example.dim0 |} in
  let level := [entry Example.wen; entry Example.zhong; entry Example.ren] in
  let disk := [(js "./public/levels/lvl1.json", level)] in
  let st0 := mainMenu_onClick 3 (init Example.env0 disk) in
  let st := with_entities
              (spawnItem Example.env0 (Some Example.zhong) None true (entities st0)) st0 in
  level_of (entities (loadLevel Example.env0 (js "lvl1") Example.alice true [1] st))
  = [entry Example.zhong; entry Example.zhong; entry Example.ren; entry Example.wen].
Proof.
  intros entry level disk st0 st.
  assert (Hr : reachable Example.env0 disk st).
  { eapply reachable_step.
    - eapply reachable_step; [apply reachable_init | apply (step_mainMenu _ 3)].
    - apply step_controlStrip with (col := 4%Z) (u := Example.alice)
                                   (r := Example.no_reply).
      vm_compute. reflexivity. }
  assert (G : JSMap.get JSString.eqb (loadLevel_path (js "lvl1")) (files st)
              = Some level)
    by (vm_compute; reflexivity).
  destruct (@load_spawns_cached_entries_first Example.env0 disk st (js "lvl1")
              Example.alice true [1] level Hr G) as [_ H].
  rewrite H. vm_compute. reflexivity.
Defined.

(* ------------------------------------------------------------------ *)
(** ** Saving, the scale prompt, the main menu and the search *)

(** X17 (saveLevel, writeLevel): saving can change one file only, the
    one directly inside the levels directory that is named by the base
    name of the answer; it leaves the entities as they are; when the
    write fails, or the file exists and the overwrite is declined, no
    file changes; otherwise that file holds the level afterwards. *)
Theorem saveLevel_touches_one_file
  (X : jsstring) (u : User) (ow ok : bool) (st : State) :
  let st' := saveLevel X u ow ok st in
  let path := saveLevel_path X in
  Path.directly_inside levels_dir path /\
  (forall q, q <> path ->
     JSMap.get JSString.eqb q (files st') = JSMap.get JSString.eqb q (files st)) /\
  entities st' = entities st /\
  (ok = false -> files st' = files st) /\
  (existsSync path st = true -> ow = false -> files st' = files st) /\
  (ok = true -> (existsSync path st = true -> ow = true) ->
   JSMap.get JSString.eqb path (files st') = Some (json_level (level_of (entities st)))).
Proof.
  cbv zeta. split; [apply saveLevel_path_inside_levels|].
  split; [|split; [apply saveLevel_entities|]].
  - intros q Hq. unfold saveLevel, writeLevel.
    destruct (existsSync _ st), ow, ok; cbn [files prompt with_files]; try reflexivity;
      apply (@JSMapFacts.get_set_other _ _ JSString.eqb JSStringFacts.eqb_spec);
      exact Hq.
  - split; [|split].
    + intros ->. unfold saveLevel, writeLevel. destruct (existsSync _ st), ow; reflexivity.
    + intros He ->. unfold saveLevel. rewrite He. reflexivity.
    + intros -> Hw. exact (proj2 (@saveLevel_written X u ow st Hw)).
Qed.

(** X18 (createNumberInput, the edit prompt): with an entity selected in
    a dataset scene, an answer to the scale prompt sets the three axes of
    the selected box to one and the same double: the number [parseInt]
    reads, times HANZI_MODEL_SCALE, rounded.  The number input then shows
    that product divided by HANZI_MODEL_SCALE, rounded again, which need
    not be the number typed.  The position and rotation of the box,
    every other actor and the selection are left as they are. *)
Theorem scale_prompt_sets_three_axes
  (u : User) (input : jsstring) (a box : actor) (o : ActorObj) (st : State) :
  in_hanzi_scene st = true ->
  highlightedActor (entities st) = Some a ->
  JSMap.get Nat.eqb a (highlightBoxes (entities st)) = Some box ->
  object_of (entities st) box = Some o ->
  let s := num_mul (parseInt input) HANZI_MODEL_SCALE in
  exists st',
    numberInput_onEdit u {| submitted := true; text := input |} st = Some st' /\
    object_of (entities st') box = Some (with_local_scale (vec s s s) o) /\
    (forall b, b <> box -> object_of (entities st') b = object_of (entities st) b) /\
    highlightedActor (entities st') = Some a /\
    numberInput_text (entities st') = Some (num_div s HANZI_MODEL_SCALE).
Proof.
  intros Hs Hh Hg Ho s.
  unfold numberInput_onEdit. rewrite Hs, Hh. cbn [negb submitted text].
  unfold onScaleSubmitted. rewrite scale_guard_never_rejects.
  unfold lift_entities, rescale. cbn [entities prompt]. rewrite Hh, Hg.
  unfold object_of in *. cbn [objects with_objects].
  rewrite get_update_object, Ho. cbn [option_map]. rewrite Nat.eqb_refl.
  eexists. split; [reflexivity|].
  cbn [entities with_entities objects updateText with_objects highlightedActor
       numberInput_text].
  fold s.
  split; [|split; [|split]].
  - rewrite get_update_object, Ho. cbn [option_map]. rewrite Nat.eqb_refl. reflexivity.
  - intros b Hb. rewrite get_update_object.
    rewrite (proj2 (Nat.eqb_neq b box) Hb).
    destruct (JSMap.get Nat.eqb b _); reflexivity.
  - exact Hh.
  - destruct o as [nm pa sh tr ma gr su oc]. destruct tr. reflexivity.
Qed.

(** The answer "150" puts 0.12000000000000001 on the three axes, and the
    answer "13" makes the number input show 13.000000000000002. *)
Lemma scale_prompt_sets_three_axes_witness :
  (exists st',
     numberInput_onEdit Example.alice {| submitted := true; text := js "150" |}
                        Example.st_selected = Some st' /\
     let s := Num (S754_finite false 8646911284551353 (-56)) in
     box_scale st' 0 = Some (vec s s s)) /\
  (exists st',
     numberInput_onEdit Example.alice {| submitted := true; text := js "13" |}
                        Example.st_selected = Some st' /\
     numberInput_text (entities st')
     = Some (Num (S754_finite false 7318349394477057 (-49)))).
Proof.
  assert (Ho : exists o, object_of (entities Example.st_selected) 0 = Some o)
    by (eexists; vm_compute; reflexivity).
  destruct Ho as [o Ho].
  assert (Hs : in_hanzi_scene Example.st_selected = true) by (vm_compute; reflexivity).
  assert (Hh : highlightedActor (entities Example.st_selected) = Some 1)
    by (vm_compute; reflexivity).
  assert (Hg : JSMap.get Nat.eqb 1 (highlightBoxes (entities Example.st_selected)) = Some 0)
    by (vm_compute; reflexivity).
  split.
  - destruct (@scale_prompt_sets_three_axes Example.alice (js "150") 1 0 o
                Example.st_selected Hs Hh Hg Ho)
      as (st' & H1 & H2 & _).
    exists st'. split; [exact H1|].
    unfold box_scale. rewrite H2. vm_compute. reflexivity.
  - destruct (@scale_prompt_sets_three_axes Example.alice (js "13") 1 0 o
                Example.st_selected Hs Hh Hg Ho)
      as (st' & H1 & _ & _ & _ & H5).
    exists st'. split; [exact H1|].
    rewrite H5. vm_compute. reflexivity.
Defined.

(** X19 (the main menu handler): opening a dataset stores the page the
    grid is on as the page remembered for the other dataset, whichever
    dataset that page belongs to.  So leaving a dataset for the main menu
    and opening the same dataset again replaces the page remembered for
    the other dataset by this dataset's page. *)
Theorem reopening_a_dataset_overwrites_the_other_page
  (env : Env) (u : User) (d : Dataset) (st : State) :
  checkUserName u (OWNER_NAME env) = true ->
  currentScene st = scene_of d ->
  let back := mainMenu_onClick (row_of d) (home_onClick env u st) in
  currentScene back = scene_of d /\
  remembered (other d) (pager back) = Some (curPageNum (pager st)) /\
  remembered d (pager back) = remembered d (pager st) /\
  working_list d (pager back) = working_list d (pager st) /\
  working_list (other d) (pager back) = working_list (other d) (pager st).
Proof.
  intros Hu Hs back.
  destruct (home_onClick_owner env u st Hu) as [Hm Hp].
  destruct (mainMenu_enter d (home_onClick env u st) Hm) as (H1 & H2 & H3 & H4 & H5 & _).
  fold back in H1, H2, H3, H4, H5. rewrite Hp in *.
  split; [exact H1|]. split; [exact H4|]. split; [exact H5|].
  destruct d; cbn [other]; split; assumption.
Qed.

Lemma reopening_a_dataset_overwrites_the_other_page_witness :
  let st := gotoPage 2 (mainMenu_onClick (row_of Radicals)
                          (home_onClick Example.env1 Example.alice Example.st_page3)) in
  remembered Characters (pager st) = Some 3%Z /\
  remembered (other Radicals)
    (pager (mainMenu_onClick (row_of Radicals)
              (home_onClick Example.env1 Example.alice st))) = Some 2%Z.
Proof.
  cbv zeta.
  assert (Hu : checkUserName Example.alice (OWNER_NAME Example.env1) = true)
    by (vm_compute; reflexivity).
  assert (Hs : currentScene
                 (gotoPage 2 (mainMenu_onClick (row_of Radicals)
                                (home_onClick Example.env1 Example.alice Example.st_page3)))
               = scene_of Radicals)
    by (vm_compute; reflexivity).
  pose proof (@reopening_a_dataset_overwrites_the_other_page Example.env1 Example.alice
                Radicals _ Hu Hs) as H.
  cbv zeta in H.
  destruct H as (_ & H2 & _).
  split; [vm_compute; reflexivity|].
  rewrite H2. vm_compute. reflexivity.
Defined.

(** X20 (searchHanzi and the search prompt, with updateCommonHanziMenu):
    searches do not narrow each other.  A search always filters the full
    list of the database, so after a second search the working lists,
    the page, the cells shown and everything else but the thumbnails are
    what the second search alone would have given.  The thumbnails
    differ: those loaded for the page that the first search showed stay
    loaded, and the second search loads those of its page on top. *)
Theorem searches_do_not_narrow_each_other (env : Env) (q1 q2 : jsstring) (st : State) :
  let st1 := onSearchSubmitted env q1 st in
  let st12 := onSearchSubmitted env q2 st1 in
  let st2 := onSearchSubmitted env q2 st in
  with_assets (assets st2) st12 = st2 /\
  assets st1 = fst (Assets.page_cells (menu_cells (pager st1)) (assets st)) /\
  assets st12 = fst (Assets.page_cells (menu_cells (pager st2)) (assets st1)).
Proof.
  cbv zeta.
  unfold onSearchSubmitted, searchHanzi, updateCommonHanziMenu, getCommonHanziPageData,
    getCharacters.
  destruct (String.eqb (currentScene st) "common_hanzi_menu") eqn:E1;
    [|destruct (String.eqb (currentScene st) "radical_menu") eqn:E2];
    destruct q1, q2;
    cbn [with_assets assets currentScene with_pager pager with_characters with_radicals
         with_curPageNum with_cells characters radicals curPageNum];
    rewrite ?E1, ?E2;
    cbn [with_assets assets currentScene with_pager pager with_characters with_radicals
         with_curPageNum with_cells characters radicals curPageNum radicalPageNum
         hanziPageNum menu_coord menu_cells];
    rewrite ?E1, ?E2;
    (split; [reflexivity | split; reflexivity]).
Qed.

(** X21 (the loop of saveLevel, with spawnItem and deleteItem): in every
    state a session can be in, each entry that saveLevel would write
    comes from a recorded box, carries the transform that box has now,
    and names a character whose model and bounding box are cached, and
    the recorded boxes are well formed; so a level saved in a session
    can be loaded back in it without a fetch. *)
Theorem saved_characters_are_cached
  (env : Env) (disk : list (jsstring * levelData)) (st : State) (d : LevelEntry) :
  reachable env disk st ->
  In d (level_of (entities st)) ->
  (exists b o, In (b, char d) (spawnedHanzi (entities st))
               /\ object_of (entities st) b = Some o
               /\ entry_transform d = transform o) /\
  JSMap.has JSString.eqb (char d) (prefabs (entities st)) = true /\
  JSMap.has JSString.eqb (char d) (dimensions (entities st)) = true /\
  well_formed (entities st) = true.
Proof.
  intros Hr Hin. destruct (reachable_invariants Hr) as ((I1 & I2 & I3) & _).
  unfold level_of in Hin. apply in_flat_map in Hin as ([b c] & Hbc & Hd).
  cbn [fst snd] in Hd.
  destruct (object_of (entities st) b) as [o|] eqn:Ho; [|contradiction].
  destruct Hd as [<-|[]]. cbn [char entry_transform].
  destruct (I1 b c Hbc) as (_ & Hp & Hdm & _).
  split; [exists b, o; auto|]. split; [exact Hp|]. split; [exact Hdm|].
  apply invariant_well_formed. split; [exact I1 | split; assumption].
Qed.

Lemma saved_characters_are_cached_witness :
  JSMap.has JSString.eqb Example.zhong (prefabs (entities Example.st_two)) = true.
Proof.
  assert (Hin : In {| char := Example.zhong;
                      entry_transform := default_transform Example.env0 Example.dim0 |}
                   (level_of (entities Example.st_two)))
    by (vm_compute; right; left; reflexivity).
  exact (proj1 (proj2 (@saved_characters_are_cached Example.env0 [] Example.st_two _
                         reachable_st_two Hin))).
Defined.

(* ------------------------------------------------------------------ *)
(** ** Thumbnails *)

Lemma js_String (c : ascii) (s : string) : js (String c s) = N_of_ascii c :: js s.
Proof. reflexivity. Qed.

Ltac eval_digit :=
  match goal with
  | |- context [digit_value ?c] =>
      let v := eval vm_compute in (digit_value c) in
      change (digit_value c) with v; cbv iota beta;
      match goal with
      | |- context [N.ltb ?x ?r] =>
          let w := eval vm_compute in (N.ltb x r) in
          change (N.ltb x r) with w; cbv iota beta
      end
  end.

Lemma digits_uint (d : Decimal.uint) :
  forall a : N,
  digits 10 (js (NilEmpty.string_of_uint d)) (Some a)
  = Some (match a with
          | 0%N => N.of_uint d
          | N.pos p => N.pos (Pos.of_uint_acc d p)
          end).
Proof.
  induction d; intros a;
    cbn [NilEmpty.string_of_uint]; rewrite ?js_String;
    [destruct a; reflexivity|..];
    cbn [digits]; eval_digit;
    rewrite IHd; destruct a; cbn [N.mul N.add]; unfold N.of_uint;
    cbn [Pos.of_uint Pos.of_uint_acc]; try reflexivity; f_equal; f_equal; f_equal; lia.
Qed.

Lemma to_uint_nonnil (n : N) : N.to_uint n <> Decimal.Nil.
Proof.
  destruct n; [discriminate|]. cbn. apply DecimalPos.Unsigned.to_uint_nonnil.
Qed.

Lemma parseInt_digits (d : Decimal.uint) :
  d <> Decimal.Nil ->
  parseInt_Z (js (NilEmpty.string_of_uint d)) = Some (Z.of_N (N.of_uint d)).
Proof.
  intros Hd.
  assert (H0 : digits 10 (js (NilEmpty.string_of_uint d)) None
               = digits 10 (js (NilEmpty.string_of_uint d)) (Some 0%N)).
  { destruct d; [contradiction|..]; cbn [NilEmpty.string_of_uint]; rewrite js_String;
      cbn [digits]; eval_digit; reflexivity. }
  assert (Hp : parseInt_Z (js (NilEmpty.string_of_uint d))
               = match digits 10 (js (NilEmpty.string_of_uint d)) None with
                 | Some n => Some (1 * Z.of_N n)%Z
                 | None => None
                 end).
  { destruct d as [|d|d|d|d|d|d|d|d|d|d]; [contradiction|..];
      destruct d; reflexivity. }
  rewrite Hp, H0, digits_uint. f_equal. lia.
Qed.

(** [parseInt] reads back what [toString] wrote. *)
Lemma parseInt_toString (n : N) : parseInt_Z (toString_N n) = Some (Z.of_N n).
Proof.
  unfold toString_N. rewrite parseInt_digits by apply to_uint_nonnil.
  rewrite DecimalN.Unsigned.of_to. reflexivity.
Qed.

(** X22 (updateCommonHanziMenu, the text of a cell): the text under a
    thumbnail is the first code unit of the character in hexadecimal,
    upper case ("4E2D" for U+4E2D); the decimal code that names the
    thumbnail file is read back without loss. *)
Theorem cell_text_is_the_code_in_hex (n : N) (rest : jsstring) :
  Assets.cell_text (code_string (n :: rest)) = Assets.toUpperCase (Assets.toString16 n) /\
  parseInt_Z (code_string (n :: rest)) = Some (Z.of_N n) /\
  Assets.thumbnail_url (code_string (n :: rest))
  = Assets.THUMBNAILS_BASE_URL ++ toString_N n ++ js ".png" /\
  Assets.cell_text (code_string [20013%N]) = js "4E2D".
Proof.
  unfold Assets.cell_text, code_string. cbn [charCodeAt0 hd_error].
  rewrite parseInt_toString. unfold Assets.toString16_Z.
  rewrite (proj2 (Z.ltb_ge (Z.of_N n) 0) (N2Z.is_nonneg n)), Zabs2N.id.
  split; [reflexivity|]. split; [reflexivity|]. split; [reflexivity|].
  vm_compute. reflexivity.
Qed.

Lemma get_set_absent_other {V : Type} (k k' : jsstring) (v x : V)
  (m : list (jsstring * V)) :
  JSMap.get JSString.eqb k' m = None ->
  JSMap.get JSString.eqb k m = Some x ->
  JSMap.get JSString.eqb k (JSMap.set JSString.eqb k' v m) = Some x.
Proof.
  intros Hn Hs. destruct (JSStringFacts.eqb_spec k k') as [->|Hne]; [congruence|].
  rewrite (@JSMapFacts.get_set_other _ _ JSString.eqb JSStringFacts.eqb_spec)
    by exact Hne.
  exact Hs.
Qed.

Lemma loadMaterial_caches (name uri : jsstring) (a : Assets.t) :
  material_cached (fst (Assets.loadMaterial name uri a)) name
                  (snd (Assets.loadMaterial name uri a)).
Proof.
  unfold Assets.loadMaterial, material_cached.
  destruct (JSMap.get JSString.eqb (js "texture_" ++ name) (Assets.textures a))
    as [tx|] eqn:T;
    cbn [Assets.materials Assets.textures Assets.container];
    destruct (JSMap.get JSString.eqb (js "material_" ++ name) (Assets.materials a))
      as [m|] eqn:M;
    cbn [fst snd Assets.materials Assets.textures];
    unfold JSMap.has;
    rewrite ?(@JSMapFacts.get_set_same _ _ JSString.eqb JSStringFacts.eqb_spec), ?T, ?M;
    split; reflexivity.
Qed.

Lemma loadMaterial_cached (name uri : jsstring) (a : Assets.t) (m : nat) :
  material_cached a name m -> Assets.loadMaterial name uri a = (a, m).
Proof.
  intros [Hm Ht]. apply has_true_get in Ht as [tx Ht].
  unfold Assets.loadMaterial. rewrite Ht, Hm. reflexivity.
Qed.

Lemma loadMaterial_keeps (n u name : jsstring) (a : Assets.t) (m : nat) :
  material_cached a name m ->
  material_cached (fst (Assets.loadMaterial n u a)) name m.
Proof.
  intros [Hm Ht]. unfold Assets.loadMaterial, material_cached.
  destruct (JSMap.get JSString.eqb (js "texture_" ++ n) (Assets.textures a))
    as [tx|] eqn:T;
    cbn [Assets.materials Assets.textures Assets.container];
    destruct (JSMap.get JSString.eqb (js "material_" ++ n) (Assets.materials a))
      as [m0|] eqn:M;
    cbn [fst snd Assets.materials Assets.textures];
    (split;
     [ first [ exact Hm | apply get_set_absent_other; assumption ]
     | first [ exact Ht
             | apply JSMapFacts.has_set_mono; [apply JSStringFacts.eqb_spec | exact Ht] ] ]).
Qed.

Lemma loadMaterial_container (n u : jsstring) (a : Assets.t) :
  exists new,
    Assets.container (fst (Assets.loadMaterial n u a)) = Assets.container a ++ new /\
    List.length new <= 2.
Proof.
  unfold Assets.loadMaterial.
  destruct (JSMap.get JSString.eqb (js "texture_" ++ n) (Assets.textures a)) as [tx|];
    cbn [Assets.materials Assets.textures Assets.container];
    destruct (JSMap.get JSString.eqb (js "material_" ++ n) (Assets.materials a)) as [m0|];
    cbn [fst Assets.container].
  - exists []. rewrite app_nil_r. split; [reflexivity | cbn; lia].
  - eexists. split; [reflexivity | cbn; lia].
  - eexists. split; [reflexivity | cbn; lia].
  - rewrite <- app_assoc. eexists. split; [reflexivity | cbn; lia].
Qed.

(** X23 (loadMaterial): the texture and the material of a name are
    created once.  After the first load of a name, whatever other names
    are loaded in between, loading it again gives the same material and
    creates no asset, whatever address is passed by then. *)
Theorem material_is_created_once
  (name uri uri2 : jsstring) (calls : list (jsstring * jsstring)) (a : Assets.t) :
  let a1 := fst (Assets.loadMaterial name uri a) in
  let m := snd (Assets.loadMaterial name uri a) in
  let a2 := fold_left (fun a nu => fst (Assets.loadMaterial (fst nu) (snd nu) a))
                      calls a1 in
  Assets.loadMaterial name uri2 a2 = (a2, m) /\
  List.length (Assets.container a1) <= List.length (Assets.container a) + 2.
Proof.
  cbv zeta. split.
  - apply loadMaterial_cached.
    generalize (loadMaterial_caches name uri a).
    generalize (fst (Assets.loadMaterial name uri a)) as a1.
    induction calls as [|[n u] calls IH]; intros a1 Hc; [exact Hc|].
    cbn [fold_left fst snd]. apply IH, loadMaterial_keeps, Hc.
  - destruct (loadMaterial_container name uri a) as (new & -> & Hn).
    rewrite length_app. lia.
Qed.

Lemma page_cells_acc (pd : list hanzi) :
  forall (a : Assets.t) (acc : list Assets.Cell),
  fold_left
    (fun (acc : Assets.t * list Assets.Cell) d =>
       let code := code_string d in
       let url := Assets.thumbnail_url code in
       let '(a, m) := Assets.loadMaterial code url (fst acc) in
       (a, snd acc ++ [{| Assets.cell_label := Assets.cell_text code;
                          Assets.cell_material := m |}]))
    pd (a, acc)
  = (fst (Assets.page_cells pd a), acc ++ snd (Assets.page_cells pd a)).
Proof.
  unfold Assets.page_cells.
  induction pd as [|d pd IH]; intros a acc.
  - cbn. rewrite app_nil_r. reflexivity.
  - cbn [fold_left fst snd].
    destruct (Assets.loadMaterial (code_string d)
                (Assets.thumbnail_url (code_string d)) a) as [a' m].
    rewrite IH. rewrite (IH a' ([] ++ _)). cbn [fst snd app].
    rewrite <- app_assoc. reflexivity.
Qed.

Lemma page_cells_cons (d : hanzi) (pd : list hanzi) (a : Assets.t) :
  Assets.page_cells (d :: pd) a =
  let code := code_string d in
  let r := Assets.loadMaterial code (Assets.thumbnail_url code) a in
  (fst (Assets.page_cells pd (fst r)),
   {| Assets.cell_label := Assets.cell_text code; Assets.cell_material := snd r |}
   :: snd (Assets.page_cells pd (fst r))).
Proof.
  cbv zeta. unfold Assets.page_cells at 1. cbn [fold_left fst snd].
  destruct (Assets.loadMaterial (code_string d)
              (Assets.thumbnail_url (code_string d)) a) as [a' m].
  cbn [app fst snd]. rewrite page_cells_acc. reflexivity.
Qed.

Lemma page_cells_spec (pd : list hanzi) :
  forall a : Assets.t,
  (forall n m, material_cached a n m ->
               material_cached (fst (Assets.page_cells pd a)) n m) /\
  Forall2
    (fun d cell =>
       Assets.cell_label cell = Assets.cell_text (code_string d) /\
       material_cached (fst (Assets.page_cells pd a)) (code_string d)
                       (Assets.cell_material cell))
    pd (snd (Assets.page_cells pd a)) /\
  List.length (Assets.container (fst (Assets.page_cells pd a)))
  <= List.length (Assets.container a) + 2 * List.length pd.
Proof.
  induction pd as [|d pd IH]; intros a.
  - cbn. split; [auto|]. split; [constructor | lia].
  - rewrite page_cells_cons. cbv zeta. cbn [fst snd].
    set (r := Assets.loadMaterial (code_string d)
                (Assets.thumbnail_url (code_string d)) a).
    destruct (IH (fst r)) as (Hk & Hf & Hl).
    split; [|split].
    + intros n m Hc. apply Hk. subst r. apply loadMaterial_keeps, Hc.
    + constructor; [|exact Hf]. cbn [Assets.cell_label Assets.cell_material].
      split; [reflexivity|]. apply Hk. subst r. apply loadMaterial_caches.
    + destruct (loadMaterial_container (code_string d)
                  (Assets.thumbnail_url (code_string d)) a) as (new & Hn & Hlen).
      fold r in Hn. rewrite Hn, length_app in Hl. cbn [List.length]. lia.
Qed.

Lemma page_cells_again (pd : list hanzi) (cells : list Assets.Cell) (a : Assets.t) :
  Forall2
    (fun d cell =>
       Assets.cell_label cell = Assets.cell_text (code_string d) /\
       material_cached a (code_string d) (Assets.cell_material cell))
    pd cells ->
  Assets.page_cells pd a = (a, cells).
Proof.
  induction 1 as [|d cell pd cells [Hl Hc] _ IH]; [reflexivity|].
  rewrite page_cells_cons. cbv zeta.
  rewrite (loadMaterial_cached _ Hc). cbn [fst snd]. rewrite IH. cbn [fst snd].
  destruct cell as [lbl mt]. cbn in Hl. subst lbl. reflexivity.
Qed.

(** X24 (updateCommonHanziMenu with loadMaterial): the thumbnails of a
    page are created once.  Showing a page creates at most one texture
    and one material for each of its characters; showing the same page
    again creates nothing and gives the same cells. *)
Theorem page_thumbnails_are_created_once (pd : list hanzi) (a : Assets.t) :
  let a1 := fst (Assets.page_cells pd a) in
  let cells := snd (Assets.page_cells pd a) in
  Assets.page_cells pd a1 = (a1, cells) /\
  map Assets.cell_label cells = map (fun d => Assets.cell_text (code_string d)) pd /\
  List.length (Assets.container a1) <= List.length (Assets.container a) + 2 * List.length pd.
Proof.
  cbv zeta. destruct (page_cells_spec pd a) as (_ & Hf & Hl).
  split; [apply page_cells_again, Hf|]. split; [|exact Hl].
  induction Hf as [|d cell pd' cells' [Hlbl _] _ IH]; [reflexivity|].
  cbn [map]. rewrite Hlbl, IH. reflexivity.
Qed.

(* ------------------------------------------------------------------ *)
(** ** The control strip never fails on its own *)

Lemma deleteButton_total
  (env : Env) (disk : list (jsstring * levelData)) (st : State) :
  reachable env disk st -> exists st', deleteButton st = Some st'.
Proof.
  intros Hr. destruct (reachable_invariants Hr) as (_ & _ & S2 & _).
  unfold deleteButton.
  destruct (highlightedActor (entities st)) as [a|] eqn:Hh; [|eexists; reflexivity].
  destruct (@JSMapFacts.keys_In_get _ _ Nat.eqb Nat.eqb_spec a _ (S2 a eq_refl)) as [b G].
  destruct (deleteItem_effect a (entities st) G) as (e1 & Hd & _).
  unfold lift_entities. rewrite Hd. eexists. reflexivity.
Qed.

Lemma clearLevel_total (e : Entities) : exists e', clearLevel e = Some e'.
Proof.
  destruct (@forEach_deleteItem_deletes (JSMap.keys (highlightBoxes e)) e)
    as (e1 & Hf & _).
  - intros k. apply (@JSMapFacts.keys_In_get _ _ Nat.eqb Nat.eqb_spec).
  - exists e1. exact Hf.
Qed.

Ltac total_case Hr Hgoto r st :=
  solve
    [ eexists; reflexivity
    | destruct (submitted (dialog r)); eexists; reflexivity
    | apply (deleteButton_total Hr)
    | destruct (submitted (dialog r)); [|eexists; reflexivity];
      unfold lift_entities; cbn [entities prompt];
      destruct (clearLevel_total (entities st)) as [e' ->]; eexists; reflexivity
    | destruct (submitted (dialog r)); [|eexists; reflexivity];
      unfold onGotoSubmitted; rewrite goto_guard_never_rejects;
      destruct (parseInt_Z (text (dialog r))) as [z|];
      [eexists; reflexivity | exfalso; apply (Hgoto eq_refl eq_refl eq_refl)] ].

(** X25 (the control strip of the dataset scenes): in every state a
    session can be in, a click on the control strip is handled to its
    end whatever the answers to its prompts are: 'Delete' finds the box
    of the selected entity and 'Clear' the box of every model.  The one
    exception is 'Goto' with an answer that is not a number, which hands
    NaN to the grid. *)
Theorem control_strip_is_handled
  (env : Env) (disk : list (jsstring * levelData)) (st : State)
  (col : Z) (u : User) (r : Reply) :
  reachable env disk st ->
  (col = 1%Z -> submitted (dialog r) = true ->
   parseInt_Z (text (dialog r)) = None -> False) ->
  exists st', commonHanziMenuControlStrip_onClick env col u r st = Some st'.
Proof.
  intros Hr Hgoto. unfold commonHanziMenuControlStrip_onClick.
  destruct (negb (in_hanzi_scene st)); [eexists; reflexivity|].
  destruct col as [|p|p]; try total_case Hr Hgoto r st.
  do 5 try (destruct p as [p|p|]; try total_case Hr Hgoto r st).
Qed.

Lemma control_strip_is_handled_witness :
  exists st',
    commonHanziMenuControlStrip_onClick Example.env0 8 Example.alice
      (Example.answer []) Example.st_two = Some st'.
Proof.
  apply (@control_strip_is_handled Example.env0 [] Example.st_two 8 Example.alice
           (Example.answer []) reachable_st_two).
  intros H. discriminate H.
Defined.

(** X26 (deleteItem, with the loop of saveLevel): after an entity is
    deleted, what saveLevel would write is what it would have written
    before without the entries of the deleted box; the transforms of the
    other entities are the same. *)
Theorem deleted_entity_is_not_saved (a box : actor) (e : Entities) :
  JSMap.get Nat.eqb a (highlightBoxes e) = Some box ->
  exists e1,
    deleteItem a e = Some e1 /\
    level_of e1
    = level_of (with_spawnedHanzi (JSMap.delete Nat.eqb box (spawnedHanzi e)) e) /\
    ~ In box (JSMap.keys (spawnedHanzi e1)) /\
    forall d, In d (level_of e1) -> In d (level_of e).
Proof.
  intros G.
  destruct (deleteItem_effect a e G)
    as (e1 & Hd & _ & _ & Hsh & _ & _ & Hobj & _).
  exists e1. split; [exact Hd|].
  assert (Hl : level_of e1
               = level_of (with_spawnedHanzi (JSMap.delete Nat.eqb box (spawnedHanzi e)) e)).
  { unfold level_of, object_of. rewrite Hsh, Hobj.
    cbn [spawnedHanzi objects with_spawnedHanzi].
    apply flat_map_ext. intros [b c]. cbn [fst snd].
    rewrite get_update_object. destruct (JSMap.get Nat.eqb b (objects e)) as [o|];
      [|reflexivity].
    cbn [option_map]. destruct (Nat.eqb b box); reflexivity. }
  split; [exact Hl|]. split.
  - rewrite Hsh. intros Hin.
    apply (@JSMapFacts.keys_delete_In _ _ Nat.eqb Nat.eqb_spec) in Hin. tauto.
  - intros d. rewrite Hl. unfold level_of, object_of.
    cbn [spawnedHanzi objects with_spawnedHanzi].
    rewrite !in_flat_map. intros (kv & Hin & Hd'). exists kv.
    split; [|exact Hd']. eapply JSMapFacts.delete_In. exact Hin.
Qed.

Lemma deleted_entity_is_not_saved_witness :
  exists e1,
    deleteItem 1 (entities Example.st_two) = Some e1 /\
    List.length (level_of (entities Example.st_two)) = 2 /\
    List.length (level_of e1) = 1.
Proof.
  assert (G : JSMap.get Nat.eqb 1 (highlightBoxes (entities Example.st_two)) = Some 0)
    by (vm_compute; reflexivity).
  destruct (@deleted_entity_is_not_saved 1 0 (entities Example.st_two) G)
    as (e1 & Hd & Hl & _).
  exists e1. split; [exact Hd|]. split; [vm_compute; reflexivity|].
  rewrite Hl. vm_compute. reflexivity.
Defined.
